(** * The transit detection engine of [scripts/real-ml-processor.py]

  A shallow embedding of the class [RealExoplanetDetector]: the
  preprocessor, the Box Least Squares period search, the box transit
  fit, the significance evaluator, the planet property calculator and
  the orchestration in [analyze_lightcurve].

  Numbers are IEEE 754 binary64 values, as [np.float64] is: Rocq's
  primitive [float], whose operations the Standard Library specifies by
  [SpecFloat].  Arrays are lists.  A raised Python exception is the
  [Raise] outcome of the error monad [res].

  What the repository calls but does not define is a field of the class
  [External]: libm's [log10], [pow] and [exp] as NumPy exposes them, and
  SciPy's Nelder-Mead [minimize].  Every theorem holds for every such
  implementation.

  [analyze_lightcurve] starts from the first line of the text and the
  rows that parsed as two floats (lines 233-247 of the script turn the
  text into exactly these). *)

From Stdlib Require Import ZArith List Bool Ascii String Floats Lia.
From Stdlib Require Uint63.
From Stdlib Require Import Sorted.
Import ListNotations.

Set Warnings "-inexact-float,-register-all".

(** ** Python values and exceptions *)

Module Py.

Inductive exn : Type :=
| ValueError (msg : string)
| IndexError (msg : string)
| OtherError (msg : string).

(** [str(e)] *)
Definition str (e : exn) : string :=
  match e with
  | ValueError m | IndexError m | OtherError m => m
  end.

Inductive res (A : Type) : Type :=
| Ok (a : A)
| Raise (e : exn).
Arguments Ok {A} a.
Arguments Raise {A} e.

Definition bind {A B : Type} (c : res A) (k : A -> res B) : res B :=
  match c with
  | Ok a => k a
  | Raise e => Raise e
  end.

(** A dictionary as [json.dumps] sees it: keys in insertion order. *)
Inductive value : Type :=
| PyNone
| PyBool (b : bool)
| PyFloat (x : float)
| PyStr (s : string)
| PyDict (items : list (string * value)).

Fixpoint lookup (k : string) (items : list (string * value)) : option value :=
  match items with
  | [] => None
  | (k', v) :: rest => if String.eqb k k' then Some v else lookup k rest
  end.

(** [d.get(k)] on a value that is a dictionary. *)
Definition get (k : string) (d : value) : option value :=
  match d with
  | PyDict items => lookup k items
  | _ => None
  end.

(** The built-in [max(a, b)]: [b] replaces [a] only when [b > a]. *)
Definition py_max (a b : float) : float := if (a <? b)%float then b else a.

(** The built-in [min(a, b)]: [b] replaces [a] only when [b < a]. *)
Definition py_min (a b : float) : float := if (b <? a)%float then b else a.

(** [float(n)] for an integer below 2^53 in magnitude. *)
Definition float_of_Z (z : Z) : float :=
  match z with
  | Z0 => 0%float
  | Zpos _ => of_uint63 (Uint63.of_Z z)
  | Zneg p => (- of_uint63 (Uint63.of_Z (Zpos p)))%float
  end.

Definition float_of_nat (n : nat) : float := float_of_Z (Z.of_nat n).

(** [needle in haystack] for strings. *)
Fixpoint contains (needle haystack : string) : bool :=
  String.prefix needle haystack ||
  match haystack with
  | EmptyString => false
  | String _ rest => contains needle rest
  end.

Definition lower_ascii (c : ascii) : ascii :=
  let n := nat_of_ascii c in
  if ((65 <=? n) && (n <=? 90))%nat then ascii_of_nat (n + 32) else c.

(** [s.lower()] on ASCII text. *)
Fixpoint lower (s : string) : string :=
  match s with
  | EmptyString => EmptyString
  | String c rest => String (lower_ascii c) (lower rest)
  end.

End Py.

Import Py.

Declare Scope res_scope.
Delimit Scope res_scope with res.
Notation "x <- c ;; k" := (Py.bind c (fun x => k))
(at level 61, c at next level, right associativity) : res_scope.

(** ** NumPy on one-dimensional [float64] arrays *)

Module Np.

Local Open Scope float_scope.

Definition isfinite (x : float) : bool := is_finite x.

(** [fmod] of C: the exact remainder of [x / y] with the sign of [x]. *)
Definition SFfmod (x y : spec_float) : spec_float :=
  match x, y with
  | S754_nan, _ | _, S754_nan => S754_nan
  | S754_infinity _, _ => S754_nan
  | _, S754_zero _ => S754_nan
  | S754_zero _, _ => x
  | S754_finite _ _ _, S754_infinity _ => x
  | S754_finite sx mx ex, S754_finite _ my ey =>
      let e := Z.min ex ey in
      let a := (Zpos mx * 2 ^ (ex - e))%Z in
      let b := (Zpos my * 2 ^ (ey - e))%Z in
      match (a mod b)%Z with
      | Zpos r =>
          let e' := fexp prec emax (Zdigits2 (Zpos r) + e) in
          match (Zpos r * 2 ^ (e - e'))%Z with
          | Zpos m => S754_finite sx m e'
          | _ => S754_nan
          end
      | _ => S754_zero sx
      end
  end.

Definition fmod (x y : float) : float :=
  SF2Prim (SFfmod (Prim2SF x) (Prim2SF y)).

(** [a % b] ([np.remainder]): [fmod], moved into the sign of [b]. *)
Definition remainder (a b : float) : float :=
  let m := fmod a b in
  if b =? 0 then m
  else if is_nan m then m
  else if m =? 0 then (if get_sign b then neg_zero else zero)
  else if Bool.eqb (b <? 0) (m <? 0) then m
  else m + b.

(** [np.sum]: accumulation from the left, starting at 0.  (NumPy adds
    arrays of eight and more elements blockwise; the two agree whenever
    the partial sums are exact.) *)
Definition sum (a : list float) : float := fold_left PrimFloat.add a 0.

Definition size (a : list float) : float := float_of_nat (List.length a).

Definition mean (a : list float) : float := sum a / size a.

(** [np.std] with [ddof = 0]. *)
Definition std (a : list float) : float :=
  let m := mean a in
  sqrt (sum (map (fun x => (x - m) * (x - m)) a) / size a).

(** [np.maximum] and [np.minimum] propagate NaN. *)
Definition maximum (a b : float) : float :=
  if (b <=? a) || is_nan a then a else b.
Definition minimum (a b : float) : float :=
  if (a <=? b) || is_nan a then a else b.

Definition amax (a : list float) : res float :=
  match a with
  | [] => Raise (ValueError "zero-size array to reduction operation maximum which has no identity")
  | x :: rest => Ok (fold_left maximum rest x)
  end.

Definition amin (a : list float) : res float :=
  match a with
  | [] => Raise (ValueError "zero-size array to reduction operation minimum which has no identity")
  | x :: rest => Ok (fold_left minimum rest x)
  end.

(** Stable insertion of [x] behind every element that is not greater. *)
Fixpoint insert {A : Type} (key : A -> float) (x : A) (l : list A) : list A :=
  match l with
  | [] => [x]
  | y :: rest => if key x <? key y then x :: l else y :: insert key x rest
  end.

Definition sort_by {A : Type} (key : A -> float) (l : list A) : list A :=
  fold_left (fun acc x => insert key x acc) l [].

(** [np.argsort(a)] for an array without NaN, equal keys in input order. *)
Definition argsort (a : list float) : list nat :=
  sort_by (fun i => nth i a nan) (seq 0 (List.length a)).

(** [a[idx]] for an array of indices. *)
Definition take (a : list float) (idx : list nat) : list float :=
  map (fun i => nth i a nan) idx.

(** [a[mask]] for a boolean mask of the same length. *)
Definition compress (a : list float) (mask : list bool) : res (list float) :=
  if (List.length a =? List.length mask)%nat
  then Ok (map fst (filter snd (combine a mask)))
  else Raise (IndexError "boolean index did not match indexed array")%string.

(** Elementwise operation on two arrays; an array of List.length one is
    broadcast against the other. *)
Definition broadcast {A B C : Type} (op : A -> B -> C)
    (a : list A) (b : list B) : res (list C) :=
  if (List.length a =? List.length b)%nat
  then Ok (map (fun p => op (fst p) (snd p)) (combine a b))
  else
    match a, b with
    | [x], _ => Ok (map (op x) b)
    | _, [y] => Ok (map (fun x => op x y) a)
    | _, _ => Raise (ValueError "operands could not be broadcast together")%string
    end.

Definition count_nonzero (mask : list bool) : nat :=
  List.length (filter (fun b => b) mask).

(** [np.median]: NaN if the array holds one, else the mean of the middle
    element or of the two middle elements of the sorted array. *)
Definition median (a : list float) : float :=
  if existsb is_nan a then nan
  else
    let s := sort_by (fun x => x) a in
    let n := List.length a in
    let index := (n / 2)%nat in
    if Nat.even n
    then mean (firstn 2 (skipn (index - 1) s))
    else mean (firstn 1 (skipn index s)).

(** [np.rint]: to the nearest integer, ties to even. *)
Definition rint (x : float) : float :=
  let two52 := 4503599627370496 in
  if is_nan x then x
  else if two52 <=? abs x then x
  else if x =? 0 then x
  else if x <? 0 then - ((- x + two52) - two52)
  else (x + two52) - two52.

(** [round(x, ndigits)] on a [float64]: scale, [rint], scale back. *)
Definition round (x : float) (ndigits : nat) : float :=
  let f := float_of_Z (10 ^ Z.of_nat ndigits) in
  rint (x * f) / f.

(** [np.linspace(start, stop, num)] with the end point. *)
Definition linspace (start stop : float) (num : nat) : list float :=
  let delta := stop - start in
  let div := (num - 1)%nat in
  let idx := map float_of_nat (seq 0 num) in
  let y :=
    match div with
    | O => map (fun i => i * delta) idx
    | S _ =>
        let step := delta / float_of_nat div in
        if step =? 0
        then map (fun i => i / float_of_nat div * delta) idx
        else map (fun i => i * step) idx
    end in
  let y := map (fun v => v + start) y in
  if (1 <? num)%nat then firstn div y ++ [stop] else y.

End Np.

(** ** What the script imports and the repository does not define *)

(** The parameter vector [[depth, period, t0, duration]] of the fit. *)
Definition params : Type := (float * float * float * float)%type.

Class External : Type := {
  (** [np.log10] *)
  np_log10 : float -> float;
  (** [x ** y] on [float64] *)
  np_power : float -> float -> float;
  (** [np.exp] *)
  np_exp : float -> float;
  (** [minimize(f, x0, method='Nelder-Mead').x], or what the call raised *)
  minimize : (params -> res float) -> params -> res params
}.

(** ** The detector *)

(** The attributes [__init__] sets. *)
Record RealExoplanetDetector : Type := {
  min_period : float;
  max_period : float;
  min_transit_duration : float;
  detection_threshold : float
}.

Definition init : RealExoplanetDetector :=
  {| min_period := 0.5;
     max_period := 50.0;
     min_transit_duration := 0.01;
     detection_threshold := 7.0 |}.

(** The dictionary [box_least_squares] returns. *)
Record BLSResult : Type := {
  bls_period : float;
  bls_power : float;
  bls_t0 : float;
  bls_duration : float
}.

(** The dictionary [fit_transit_model] returns. *)
Record TransitFit : Type := {
  fit_depth : float;
  fit_period : float;
  fit_t0 : float;
  fit_duration : float;
  fit_chi2 : float;
  fit_reduced_chi2 : float;
  fit_model_flux : list float
}.

(** The dictionary [calculate_detection_significance] returns. *)
Record Significance : Type := {
  snr : float;
  confidence_percent : float;
  false_alarm_probability : float;
  detection_significance_sigma : float
}.

(** The methods [analyze_lightcurve] calls on [self], in call order. *)
Inductive call : Type :=
| call_preprocess_lightcurve
| call_box_least_squares
| call_fit_transit_model
| call_calculate_planet_properties
| call_calculate_detection_significance.

(** A computation that records the methods it calls and may raise. *)
Definition traced (A : Type) : Type := list call -> list call * res A.

Definition tret {A : Type} (a : A) : traced A := fun log => (log, Ok a).

Definition tbind {A B : Type} (c : traced A) (k : A -> traced B) : traced B :=
  fun log =>
    match c log with
    | (log', Ok a) => k a log'
    | (log', Raise e) => (log', Raise e)
    end.

Definition invoke {A : Type} (c : call) (r : res A) : traced A :=
  fun log => (log ++ [c], r).

Declare Scope traced_scope.
Delimit Scope traced_scope with traced.
Notation "x <~ c ;; k" := (tbind c (fun x => k))
  (at level 61, c at next level, right associativity) : traced_scope.

Definition dquote : string := String (ascii_of_nat 34) EmptyString.

Definition error_result (msg : string) : value := PyDict [("error", PyStr msg)]%string.

Fixpoint foldM {A B : Type} (f : A -> B -> res A) (l : list B) (a : A) : res A :=
  match l with
  | [] => Ok a
  | x :: rest => Py.bind (f a x) (foldM f rest)
  end.

Section Detector.

Context {ext : External}.
Variable self : RealExoplanetDetector.

Local Open Scope float_scope.
Local Open Scope res_scope.

Definition preprocess_lightcurve (time flux : list float)
    : res (list float * list float) :=
  (* Remove NaN values *)
  mask <- Np.broadcast andb (map Np.isfinite time) (map Np.isfinite flux) ;;
  time <- Np.compress time mask ;;
  flux <- Np.compress flux mask ;;
  (* Sort by time *)
  let sort_idx := Np.argsort time in
  let time := Np.take time sort_idx in
  let flux := Np.take flux sort_idx in
  (* Normalize flux to relative units *)
  let median_flux := Np.median flux in
  let flux := map (fun x => x / median_flux) flux in
  (* Remove outliers using sigma clipping (3-sigma) *)
  let flux_median := Np.median flux in
  let flux_std := Np.std flux in
  let outlier_mask := map (fun x => abs (x - flux_median) <? 3 * flux_std) flux in
  time <- Np.compress time outlier_mask ;;
  flux <- Np.compress flux outlier_mask ;;
  Ok (time, flux).

Definition _calculate_bls_power (phase flux : list float)
    (t0_frac duration_frac : float) : res float :=
  let transit_mask := map (fun p => abs (p - t0_frac) <? duration_frac / 2) phase in
  if (Np.count_nonzero transit_mask <? 3)%nat then Ok 0
  else
    inside <- Np.compress flux transit_mask ;;
    let flux_in := Np.mean inside in
    outside <- Np.compress flux (map negb transit_mask) ;;
    let flux_out := Np.mean outside in
    let n_in := Np.count_nonzero transit_mask in
    let n_out := Np.count_nonzero (map negb transit_mask) in
    if (n_in =? 0)%nat || (n_out =? 0)%nat then Ok 0
    else
      let sigma_out := Np.std outside in
      if sigma_out =? 0 then Ok 0
      else
        let power :=
          (flux_out - flux_in)
          * sqrt (float_of_nat (n_in * n_out) / float_of_nat (n_in + n_out))
          / sigma_out in
        Ok (py_max 0 power).

(** [np.logspace(np.log10(min_period), np.log10(max_period), 1000)] *)
Definition period_grid : list float :=
  map (np_power 10)
      (Np.linspace (np_log10 (min_period self)) (np_log10 (max_period self)) 1000).

Definition duration_grid : list float := Np.linspace 0.01 0.2 20.

Definition t0_grid : list float := Np.linspace 0 1 50.

(** [(time % period) / period] *)
Definition fold_phase (time : list float) (period : float) : list float :=
  map (fun t => Np.remainder t period / period) time.

(** The body of the innermost loop: one grid point against the best so far. *)
Definition bls_step (phase flux : list float) (period duration_frac : float)
    (best : BLSResult) (t0_frac : float) : res BLSResult :=
  let duration := duration_frac * period in
  power <- _calculate_bls_power phase flux t0_frac duration_frac ;;
  Ok (if bls_power best <? power
      then {| bls_period := period;
              bls_power := power;
              bls_t0 := t0_frac * period;
              bls_duration := duration |}
      else best).

Definition bls_scan (periods : list float) (time flux : list float)
    (best : BLSResult) : res BLSResult :=
  foldM (fun best period =>
           let phase := fold_phase time period in
           foldM (fun best duration_frac =>
                    foldM (bls_step phase flux period duration_frac) t0_grid best)
                 duration_grid best)
        periods best.

Definition box_least_squares (time flux : list float) : res BLSResult :=
  bls_scan period_grid time flux
    {| bls_period := 0; bls_power := 0; bls_t0 := 0; bls_duration := 0 |}.

(** The inner function [transit_model] of [fit_transit_model]. *)
Definition transit_model (time : list float) (p : params) : list float :=
  let '(depth, period_fit, t0_fit, duration_fit) := p in
  (* Phase fold, centered around 0 *)
  let phase := fold_phase (map (fun t => t - t0_fit) time) period_fit in
  let phase := map (fun ph => if 0.5 <? ph then ph - 1 else ph) phase in
  (* Simple box transit model *)
  map (fun ph => if abs (ph * period_fit) <? duration_fit / 2 then 1 - depth else 1)
      phase.

Definition sum_squares (residuals : list float) : float :=
  Np.sum (map (fun r => r * r) residuals).

(** The inner function [chi_squared] of [fit_transit_model]. *)
Definition chi_squared (time flux : list float) (p : params) : res float :=
  let '(depth, period_fit, t0_fit, duration_fit) := p in
  if (depth <? 0) || (0.1 <? depth) then Ok 1e10
  else if (period_fit <? min_period self) || (max_period self <? period_fit) then Ok 1e10
  else if (duration_fit <? min_transit_duration self) || (period_fit / 2 <? duration_fit)
  then Ok 1e10
  else
    residuals <- Np.broadcast sub flux (transit_model time p) ;;
    Ok (sum_squares residuals).

(** The body of the [try] block of [fit_transit_model]. *)
Definition fit_attempt (time flux : list float) (initial_params : params)
    : res TransitFit :=
  fitted_params <- minimize (chi_squared time flux) initial_params ;;
  let '(depth, period_fit, t0_fit, duration_fit) := fitted_params in
  (* Calculate goodness of fit *)
  let model_flux := transit_model time fitted_params in
  residuals <- Np.broadcast sub flux model_flux ;;
  let chi2 := sum_squares residuals in
  let reduced_chi2 := chi2 / float_of_Z (Z.of_nat (List.length flux) - 4) in
  Ok {| fit_depth := depth;
        fit_period := period_fit;
        fit_t0 := t0_fit;
        fit_duration := duration_fit;
        fit_chi2 := chi2;
        fit_reduced_chi2 := reduced_chi2;
        fit_model_flux := model_flux |}.

(** [None] is the [return None] of the bare [except]. *)
Definition fit_transit_model (time flux : list float)
    (period t0 duration : float) : res (option TransitFit) :=
  lowest <- Np.amin flux ;;
  let initial_depth := py_max 0.001 (1 - lowest) in
  let initial_params := (initial_depth, period, t0, duration) in
  match fit_attempt time flux initial_params with
  | Ok fit => Ok (Some fit)
  | Raise _ => Ok None
  end.

Definition calculate_planet_properties (depth period stellar_radius : float)
    : value :=
  (* Planet radius (in Earth radii) *)
  let planet_radius := sqrt depth * stellar_radius * 109.2 in
  (* Semi-major axis (AU) using Kepler's third law *)
  let stellar_mass := 1.0 in
  let semi_major_axis :=
    np_power (np_power (period / 365.25) 2 * stellar_mass) (1 / 3) in
  (* Equilibrium temperature (K) *)
  let stellar_temp := 5778 in
  let eq_temp :=
    stellar_temp * sqrt (stellar_radius / (2 * semi_major_axis * 215)) in
  (* Orbital velocity (km/s) *)
  let orbital_velocity :=
    2 * 3.141592653589793 * semi_major_axis * 149.6e6
    / (period * 24 * 3600) / 1000 in
  PyDict [("radius_earth", PyFloat (Np.round planet_radius 2));
          ("period_days", PyFloat (Np.round period 3));
          ("semi_major_axis_au", PyFloat (Np.round semi_major_axis 4));
          ("equilibrium_temp_k", PyFloat (Np.round eq_temp 1));
          ("orbital_velocity_kms", PyFloat (Np.round orbital_velocity 2))]%string.

Definition calculate_detection_significance (time flux model_flux : list float)
    : res Significance :=
  residuals <- Np.broadcast sub flux model_flux ;;
  let noise_std := Np.std residuals in
  (* Signal-to-noise ratio *)
  highest <- Np.amax model_flux ;;
  lowest <- Np.amin model_flux ;;
  let signal_depth := highest - lowest in
  let snr := signal_depth / noise_std in
  (* False alarm probability (simplified) *)
  let false_alarm_prob := 1 / (1 + np_exp (snr - 5)) in
  (* Detection confidence *)
  let confidence := py_max 0 (py_min 100 ((snr - 3) / 7 * 100)) in
  Ok {| snr := Np.round snr 2;
        confidence_percent := Np.round confidence 1;
        false_alarm_probability := Np.round false_alarm_prob 6;
        detection_significance_sigma := Np.round snr 1 |}.

Local Open Scope traced_scope.
Local Open Scope string_scope.

(** The [try] block of [analyze_lightcurve], from the parsed rows on. *)
Definition analyze_body (header : string) (data : list (float * float))
    : traced value :=
  let header := lower header in
  if contains "time" header && contains "flux" header then
    if (List.length data <? 100)%nat
    then tret (error_result "Insufficient data points. Need at least 100 measurements.")
    else
      let time := map fst data in
      let flux := map snd data in
      (* Preprocess data *)
      cleaned <~ invoke call_preprocess_lightcurve
                   (preprocess_lightcurve time flux) ;;
      let '(time, flux) := cleaned in
      if (List.length time <? 50)%nat
      then tret (error_result "Too few valid data points after preprocessing")
      else
        (* Run BLS algorithm *)
        bls_result <~ invoke call_box_least_squares
                        (box_least_squares time flux) ;;
        (* Check if significant period found *)
        if (bls_power bls_result <? detection_threshold self)%float
        then tret (PyDict
               [("planet_detected", PyBool false);
                ("confidence", PyFloat 15.0);
                ("analysis", PyDict
                   [("bls_power", PyFloat (Np.round (bls_power bls_result) 2));
                    ("best_period", PyFloat (Np.round (bls_period bls_result) 3));
                    ("message", PyStr "No significant periodic signal detected")])])
        else
          (* Fit transit model *)
          fitted <~ invoke call_fit_transit_model
                      (fit_transit_model time flux (bls_period bls_result)
                         (bls_t0 bls_result) (bls_duration bls_result)) ;;
          match fitted with
          | None =>
              tret (PyDict
                [("planet_detected", PyBool false);
                 ("confidence", PyFloat 25.0);
                 ("analysis", PyDict
                    [("message", PyStr "Transit model fitting failed")])])
          | Some transit_fit =>
              (* Calculate planet properties *)
              planet_props <~ invoke call_calculate_planet_properties
                (Ok (calculate_planet_properties
                       (fit_depth transit_fit) (fit_period transit_fit) 1.0)) ;;
              (* Calculate detection significance *)
              significance <~ invoke call_calculate_detection_significance
                (calculate_detection_significance time flux
                   (fit_model_flux transit_fit)) ;;
              (* Determine if planet is detected *)
              let planet_detected :=
                ((5.0 <? snr significance)
                 && (70 <? confidence_percent significance))%float in
              tret (PyDict
                [("planet_detected", PyBool planet_detected);
                 ("confidence", PyFloat (confidence_percent significance));
                 ("analysis", PyDict
                    [("bls_power", PyFloat (Np.round (bls_power bls_result) 2));
                     ("signal_to_noise", PyFloat (snr significance));
                     ("detection_significance",
                      PyFloat (detection_significance_sigma significance));
                     ("false_alarm_probability",
                      PyFloat (false_alarm_probability significance))]);
                 ("planet_properties",
                  if planet_detected then planet_props else PyNone);
                 ("transit_parameters",
                  if planet_detected
                  then PyDict
                    [("depth_ppm",
                      PyFloat (Np.round (fit_depth transit_fit * 1e6) 1));
                     ("period_days",
                      PyFloat (Np.round (fit_period transit_fit) 3));
                     ("duration_hours",
                      PyFloat (Np.round (fit_duration transit_fit * 24) 2));
                     ("reduced_chi_squared",
                      PyFloat (Np.round (fit_reduced_chi2 transit_fit) 3))]
                  else PyNone)])
          end
  else
    tret (error_result
            ("CSV must contain " ++ dquote ++ "time" ++ dquote
             ++ " and " ++ dquote ++ "flux" ++ dquote ++ " columns")).

(** [analyze_lightcurve]: the methods called, and the dictionary returned. *)
Definition analyze_lightcurve (header : string) (data : list (float * float))
    : list call * value :=
  match analyze_body header data [] with
  | (log, Ok result) => (log, result)
  | (log, Raise e) => (log, error_result ("Analysis failed: " ++ str e))
  end.

End Detector.


(** ** The specification's formulas, in its words

    Written from the text of the specification, to be compared with what
    the methods above compute. *)

Module Spec.

Local Open Scope float_scope.

(** "in-transit mask: points with |phase - t0_frac| < d/2" *)
Definition in_transit (t0_frac d phase : float) : bool :=
  abs (phase - t0_frac) <? d / 2.

Definition flux_in (phase flux : list float) (t0_frac d : float) : list float :=
  map snd (filter (fun pf => in_transit t0_frac d (fst pf)) (combine phase flux)).

Definition flux_out (phase flux : list float) (t0_frac d : float) : list float :=
  map snd (filter (fun pf => negb (in_transit t0_frac d (fst pf)))
                  (combine phase flux)).

(** "(mean(flux_out) - mean(flux_in)) * sqrt(n_in*n_out/(n_in+n_out))
    / std(flux_out)" *)
Definition bls_statistic (phase flux : list float) (t0_frac d : float) : float :=
  let inside := flux_in phase flux t0_frac d in
  let outside := flux_out phase flux t0_frac d in
  let n_in := List.length inside in
  let n_out := List.length outside in
  (Np.mean outside - Np.mean inside)
  * sqrt (float_of_nat (n_in * n_out) / float_of_nat (n_in + n_out))
  / Np.std outside.

(** "require at least 3 in-transit points, else power = 0 for this
    combination"; "power = max(power, 0)" *)
Definition bls_power (phase flux : list float) (t0_frac d : float) : float :=
  if (List.length (flux_in phase flux t0_frac d) <? 3)%nat then 0
  else py_max 0 (bls_statistic phase flux t0_frac d).

(** The same with the guard of the code on a zero spread. *)
Definition guarded_power (phase flux : list float) (t0_frac d : float) : float :=
  if (List.length (flux_in phase flux t0_frac d) <? 3)%nat
     || (Np.std (flux_out phase flux t0_frac d) =? 0)
  then 0
  else py_max 0 (bls_statistic phase flux t0_frac d).

End Spec.

(** ** The search grid as one list, in scan order *)

(** A grid point: period, duration fraction, phase offset. *)
Definition grid_point : Type := (float * float * float)%type.

Definition grid_of (periods : list float) : list grid_point :=
  flat_map (fun period =>
    flat_map (fun duration_frac =>
      map (fun t0_frac => (period, duration_frac, t0_frac)) t0_grid)
      duration_grid)
    periods.

Definition bls_grid {ext : External} (self : RealExoplanetDetector)
    : list grid_point :=
  grid_of (period_grid self).


(** The power [_calculate_bls_power] gives a grid point. *)
Definition power_at (time flux : list float) (g : grid_point) : float :=
  let '(period, duration_frac, t0_frac) := g in
  Spec.guarded_power (fold_phase time period) flux t0_frac duration_frac.

(** What the search records for a grid point it takes as the best. *)
Definition candidate (time flux : list float) (g : grid_point) : BLSResult :=
  let '(period, duration_frac, t0_frac) := g in
  {| bls_period := period;
     bls_power := power_at time flux g;
     bls_t0 := (t0_frac * period)%float;
     bls_duration := (duration_frac * period)%float |}.

(** The value the search starts from and returns when no power is positive. *)
Definition fallback : BLSResult :=
  {| bls_period := 0; bls_power := 0; bls_t0 := 0; bls_duration := 0 |}.

(** No period is greater than a later one. *)
Definition ascending (periods : list float) : Prop :=
  StronglySorted (fun a b => (b <? a)%float = false) periods.


(** ** Computable stand-ins for the external functions

    Series for [exp] and [log], and an optimizer run that ends at the
    flat model; concrete runs of the pipeline below use them. *)

Module Standin.

Local Open Scope float_scope.

Definition ln2 : float := 0.6931471805599453.
Definition ln10 : float := 2.302585092994046.

(** The exponential series by Horner's rule, on a small argument. *)
Definition exp_series (x : float) : float :=
  fold_right (fun k acc => 1 + x / float_of_nat k * acc) 1 (seq 1 20).

Definition exp (x : float) : float :=
  if is_nan x then x
  else if x <? -746 then 0
  else if 710 <? x then infinity
  else Nat.iter 10 (fun v => v * v) (exp_series (x / 1024)).

(** [2 * atanh z] by its series, for [z] between [-1/3] and [0]. *)
Definition atanh2_series (z : float) : float :=
  let z2 := z * z in
  2 * z * fold_right (fun k acc => 1 / float_of_nat (2 * k + 1) + z2 * acc) 0 (seq 0 20).

Definition ln (x : float) : float :=
  if is_nan x || (x <? 0) then nan
  else if x =? 0 then neg_infinity
  else if x =? infinity then x
  else
    let '(m, e) := Z.frexp x in
    float_of_Z e * ln2 + atanh2_series ((m - 1) / (m + 1)).

Definition log10 (x : float) : float := ln x / ln10.

Definition power (x y : float) : float :=
  if y =? 0 then 1
  else if x =? 0 then 0
  else exp (y * ln x).

(** The search ends at depth 0 whatever the objective and the seed. *)
Definition flat_minimize (f : params -> res float) (x0 : params) : res params :=
  Ok (0, 1, 0, 0.1).

#[export] Instance external : External :=
  {| np_log10 := log10;
     np_power := power;
     np_exp := exp;
     minimize := flat_minimize |}.

End Standin.


(** * Properties *)

(** ** The order of [float64] values

    [SFcompare] orders the values that are not NaN like the triples
    [rank] gives them, compared from the left. *)

Module F.

Definition rank (x : spec_float) : option (Z * Z * Z) :=
  match x with
  | S754_nan => None
  | S754_infinity true => Some (-2, 0, 0)%Z
  | S754_infinity false => Some (2, 0, 0)%Z
  | S754_zero _ => Some (0, 0, 0)%Z
  | S754_finite true m e => Some (-1, - e, Zneg m)%Z
  | S754_finite false m e => Some (1, e, Zpos m)%Z
  end.

Definition lt3 (a b : Z * Z * Z) : Prop :=
  let '(a1, a2, a3) := a in
  let '(b1, b2, b3) := b in
  (a1 < b1 \/ (a1 = b1 /\ (a2 < b2 \/ (a2 = b2 /\ a3 < b3))))%Z.

Definition lex_compare (a b : Z * Z * Z) : comparison :=
  let '(a1, a2, a3) := a in
  let '(b1, b2, b3) := b in
  match (a1 ?= b1)%Z with
  | Eq => match (a2 ?= b2)%Z with
          | Eq => (a3 ?= b3)%Z
          | c => c
          end
  | c => c
  end.

(** The rank of a float. *)
Definition key (x : float) : option (Z * Z * Z) := rank (Prim2SF x).

Lemma lex_compare_Lt a b : lex_compare a b = Lt <-> lt3 a b.
Proof.
  destruct a as [[a1 a2] a3], b as [[b1 b2] b3]; unfold lex_compare, lt3.
  destruct (Z.compare_spec a1 b1); [destruct (Z.compare_spec a2 b2);
    [destruct (Z.compare_spec a3 b3) | |] | |];
    split; intros; try discriminate; try reflexivity; lia.
Qed.

Lemma lex_compare_Eq a b : lex_compare a b = Eq <-> a = b.
Proof.
  destruct a as [[a1 a2] a3], b as [[b1 b2] b3]; unfold lex_compare.
  destruct (Z.compare_spec a1 b1); [destruct (Z.compare_spec a2 b2);
    [destruct (Z.compare_spec a3 b3) | |] | |];
    split; intros E; try discriminate; try (inversion E; lia); subst; reflexivity.
Qed.

Lemma SFcompare_rank x y :
  SFcompare x y =
  match rank x, rank y with
  | Some a, Some b => Some (lex_compare a b)
  | _, _ => None
  end.
Proof.
  destruct x as [[|]|[|]| |[|] m1 e1], y as [[|]|[|]| |[|] m2 e2];
    try reflexivity; cbn.
  rewrite Z.compare_opp, (Z.compare_antisym e1 e2).
  destruct (e1 ?= e2)%Z; reflexivity.
Qed.

Lemma SFltb_iff x y :
  SFltb x y = true <->
  exists a b, rank x = Some a /\ rank y = Some b /\ lt3 a b.
Proof.
  unfold SFltb. rewrite SFcompare_rank.
  destruct (rank x) as [a|], (rank y) as [b|]; split;
    try discriminate; try (intros (? & ? & ? & ? & ?); discriminate).
  - destruct (lex_compare a b) eqn:E; try discriminate.
    intros _. exists a, b. repeat split. now apply lex_compare_Lt.
  - intros (a' & b' & Ha & Hb & L). inversion Ha; inversion Hb; subst.
    apply lex_compare_Lt in L. now rewrite L.
Qed.

Lemma SFleb_iff x y :
  SFleb x y = true <->
  exists a b, rank x = Some a /\ rank y = Some b /\ (lt3 a b \/ a = b).
Proof.
  unfold SFleb. rewrite SFcompare_rank.
  destruct (rank x) as [a|], (rank y) as [b|]; split;
    try discriminate; try (intros (? & ? & ? & ? & ?); discriminate).
  - destruct (lex_compare a b) eqn:E; try discriminate; intros _;
      exists a, b; repeat split.
    + right. now apply lex_compare_Eq.
    + left. now apply lex_compare_Lt.
  - intros (a' & b' & Ha & Hb & L). inversion Ha; inversion Hb; subst.
    destruct L as [L | L].
    + apply lex_compare_Lt in L. now rewrite L.
    + apply lex_compare_Eq in L. now rewrite L.
Qed.

Lemma SFeqb_iff x y :
  SFeqb x y = true <-> exists a, rank x = Some a /\ rank y = Some a.
Proof.
  unfold SFeqb. rewrite SFcompare_rank.
  destruct (rank x) as [a|], (rank y) as [b|]; split;
    try discriminate; try (intros (? & ? & ?); discriminate).
  - destruct (lex_compare a b) eqn:E; try discriminate.
    apply lex_compare_Eq in E. subst. intros _. eexists; split; reflexivity.
  - intros (a' & Ha & Hb). inversion Ha; inversion Hb; subst.
    assert (E : lex_compare a' a' = Eq) by now apply lex_compare_Eq.
    now rewrite E.
Qed.

Lemma ltb_iff (x y : float) :
  (x <? y)%float = true <-> exists a b, key x = Some a /\ key y = Some b /\ lt3 a b.
Proof. rewrite ltb_spec. apply SFltb_iff. Qed.

Lemma leb_iff (x y : float) :
  (x <=? y)%float = true <->
  exists a b, key x = Some a /\ key y = Some b /\ (lt3 a b \/ a = b).
Proof. rewrite leb_spec. apply SFleb_iff. Qed.

Lemma eqb_iff (x y : float) :
  (x =? y)%float = true <-> exists a, key x = Some a /\ key y = Some a.
Proof. rewrite eqb_spec. apply SFeqb_iff. Qed.

Lemma lt3_irrefl a : ~ lt3 a a.
Proof. destruct a as [[a1 a2] a3]. unfold lt3. lia. Qed.

Lemma lt3_trans a b c : lt3 a b -> lt3 b c -> lt3 a c.
Proof.
  destruct a as [[a1 a2] a3], b as [[b1 b2] b3], c as [[c1 c2] c3].
  unfold lt3. lia.
Qed.

Lemma lt3_total a b : lt3 a b \/ a = b \/ lt3 b a.
Proof.
  destruct a as [[a1 a2] a3], b as [[b1 b2] b3]. unfold lt3.
  destruct (Z.lt_total a1 b1) as [|[|]]; [lia | | lia].
  destruct (Z.lt_total a2 b2) as [|[|]]; [lia | | lia].
  destruct (Z.lt_total a3 b3) as [|[|]]; [lia | | lia].
  right; left. subst. reflexivity.
Qed.

(** A float is a number when it is not NaN. *)
Lemma is_nan_key x : is_nan x = false <-> exists a, key x = Some a.
Proof.
  unfold is_nan. rewrite negb_false_iff, eqb_iff. split.
  - intros (a & H & _). now exists a.
  - intros (a & H). now exists a.
Qed.


Lemma ltb_leb x y : (x <? y)%float = true -> (x <=? y)%float = true.
Proof.
  rewrite ltb_iff, leb_iff. intros (a & b & Ha & Hb & L).
  exists a, b. auto.
Qed.

Lemma ltb_asym x y : (x <? y)%float = true -> (y <? x)%float = false.
Proof.
  intros H. destruct (y <? x)%float eqn:E; [|reflexivity].
  apply ltb_iff in H, E.
  destruct H as (a & b & Ha & Hb & L), E as (b' & a' & Hb' & Ha' & L').
  rewrite Ha in Ha'; rewrite Hb in Hb'. inversion Ha'; inversion Hb'; subst.
  exfalso. eapply lt3_irrefl, lt3_trans; eassumption.
Qed.

Lemma ltb_trans x y z :
  (x <? y)%float = true -> (y <? z)%float = true -> (x <? z)%float = true.
Proof.
  rewrite !ltb_iff.
  intros (a & b & Ha & Hb & L) (b' & c & Hb' & Hc & L').
  rewrite Hb in Hb'. inversion Hb'; subst.
  exists a, c. repeat split; trivial. eapply lt3_trans; eassumption.
Qed.


Lemma leb_ltb_trans x y z :
  (x <=? y)%float = true -> (y <? z)%float = true -> (x <? z)%float = true.
Proof.
  rewrite leb_iff, !ltb_iff.
  intros (a & b & Ha & Hb & L) (b' & c & Hb' & Hc & L').
  rewrite Hb in Hb'. inversion Hb'; subst.
  exists a, c. repeat split; trivial.
  destruct L as [L|L]; subst; auto. eapply lt3_trans; eassumption.
Qed.


(** Two numbers are comparable. *)
Lemma not_ltb_leb x y :
  is_nan x = false -> is_nan y = false ->
  (x <? y)%float = false -> (y <=? x)%float = true.
Proof.
  rewrite !is_nan_key. intros (a & Ha) (b & Hb) N.
  apply leb_iff. exists b, a. repeat split; trivial.
  destruct (lt3_total a b) as [L|[E|L]]; auto.
  exfalso. assert (T : (x <? y)%float = true)
    by (apply ltb_iff; exists a, b; auto).
  congruence.
Qed.

Lemma leb_not_ltb x y : (x <=? y)%float = true -> (y <? x)%float = false.
Proof.
  intros H. destruct (y <? x)%float eqn:E; [|reflexivity].
  apply leb_iff in H. apply ltb_iff in E.
  destruct H as (a & b & Ha & Hb & L), E as (b' & a' & Hb' & Ha' & L').
  rewrite Ha in Ha'; rewrite Hb in Hb'. inversion Ha'; inversion Hb'; subst.
  exfalso. destruct L as [L|L]; subst.
  - eapply lt3_irrefl, lt3_trans; eassumption.
  - now apply lt3_irrefl in L'.
Qed.

Lemma leb_is_nan_l x y : (x <=? y)%float = true -> is_nan x = false.
Proof.
  rewrite leb_iff, is_nan_key. intros (a & b & Ha & _). now exists a.
Qed.

Lemma leb_is_nan_r x y : (x <=? y)%float = true -> is_nan y = false.
Proof.
  rewrite leb_iff, is_nan_key. intros (a & b & _ & Hb & _). now exists b.
Qed.

Lemma ltb_is_nan_r x y : (x <? y)%float = true -> is_nan y = false.
Proof. intros H. eapply leb_is_nan_r, ltb_leb, H. Qed.

Lemma leb_refl x : is_nan x = false -> (x <=? x)%float = true.
Proof.
  rewrite is_nan_key, leb_iff. intros (a & Ha). exists a, a. auto.
Qed.

Lemma eqb_ltb_r x y z :
  (y =? z)%float = true -> (x <? y)%float = true -> (x <? z)%float = true.
Proof.
  rewrite eqb_iff, !ltb_iff. intros (b & Hy & Hz) (a & b' & Ha & Hb & L).
  rewrite Hy in Hb. inversion Hb; subst. exists a, b'. auto.
Qed.


(** [max(0, p)] of Python is never negative and never NaN. *)
Lemma py_max_zero_nonneg p : (0 <=? py_max 0 p)%float = true.
Proof.
  unfold py_max. destruct (0 <? p)%float eqn:E.
  - now apply ltb_leb.
  - reflexivity.
Qed.

End F.

(** ** NaN, infinities and division by zero *)

Module Special.

Local Open Scope float_scope.

Lemma nan_sub x : Prim2SF (nan - x) = S754_nan.
Proof. rewrite sub_spec. reflexivity. Qed.

Lemma nan_mul_l x y : Prim2SF x = S754_nan -> Prim2SF (x * y) = S754_nan.
Proof. intros H. rewrite mul_spec, H. reflexivity. Qed.

Lemma nan_div_l x y : Prim2SF x = S754_nan -> Prim2SF (x / y) = S754_nan.
Proof. intros H. rewrite div_spec, H. reflexivity. Qed.

Lemma ltb_nan_r x y : Prim2SF y = S754_nan -> (x <? y) = false.
Proof.
  intros H. rewrite ltb_spec, H. unfold SFltb, SFcompare.
  destruct (Prim2SF x); reflexivity.
Qed.

(** [max(0, p)] of Python is 0 when [p] is NaN. *)
Lemma py_max_nan p : Prim2SF p = S754_nan -> py_max 0 p = 0.
Proof. intros H. unfold py_max. now rewrite ltb_nan_r. Qed.

(** A float is finite when its specification is a zero or a finite number. *)
Lemma is_finite_spec x :
  is_finite x = true <->
  match Prim2SF x with
  | S754_zero _ | S754_finite _ _ _ => True
  | _ => False
  end.
Proof.
  unfold is_finite, is_nan, is_infinity.
  rewrite !eqb_spec, abs_spec. change (Prim2SF infinity) with (S754_infinity false).
  destruct (Prim2SF x) as [s| [|] | |[|] m e]; cbn;
    rewrite ?Z.compare_refl, ?Pos.compare_cont_refl; cbn; intuition discriminate.
Qed.

(** A value within a bound of another is finite: the test [|x - m| < s]
    fails on an infinite or NaN [x]. *)
Lemma within_bound_finite x m s : (abs (x - m) <? s) = true -> is_finite x = true.
Proof.
  rewrite ltb_spec, abs_spec, sub_spec. intros H. apply is_finite_spec.
  destruct (Prim2SF x) as [sx| sx | |sx mx ex]; trivial.
  - destruct (Prim2SF m) as [sm| sm | |sm mm em]; cbn in H;
      try (destruct sx, sm; cbn in H);
      try (destruct (Prim2SF s) as [?|[|]| |[|] ? ?]; discriminate H).
  - destruct (Prim2SF m); discriminate H.
Qed.

(** A float that compares equal to 0 is one of the two zeros. *)
Lemma eqb_zero z : (z =? 0) = true -> exists s, Prim2SF z = S754_zero s.
Proof.
  rewrite eqb_spec. change (Prim2SF 0) with (S754_zero false).
  destruct (Prim2SF z) as [s| [|] | |[|] m e]; try discriminate.
  intros _. now exists s.
Qed.

Lemma of_nan y : Prim2SF y = S754_nan -> y = nan.
Proof. intros H. rewrite <- (SF2Prim_Prim2SF y), H. reflexivity. Qed.

Lemma of_infinity y s :
  Prim2SF y = S754_infinity s -> y = if s then neg_infinity else infinity.
Proof. intros H. rewrite <- (SF2Prim_Prim2SF y), H. destruct s; reflexivity. Qed.

(** Dividing by a zero gives an infinity or NaN, and raises nothing. *)
Lemma div_by_zero x z :
  (z =? 0) = true -> x / z = nan \/ x / z = infinity \/ x / z = neg_infinity.
Proof.
  intros Hz. apply eqb_zero in Hz. destruct Hz as (s & Hz).
  pose proof (div_spec x z) as H. rewrite Hz in H.
  destruct (Prim2SF x) as [sx| sx | |sx m e]; cbn in H.
  - left. now apply of_nan.
  - apply of_infinity in H. destruct (xorb sx s); auto.
  - left. now apply of_nan.
  - apply of_infinity in H. destruct (xorb sx s); auto.
Qed.

Lemma div_by_zero_not_finite x z : (z =? 0) = true -> is_finite (x / z) = false.
Proof.
  intros Hz. destruct (div_by_zero x z Hz) as [-> | [-> | ->]]; reflexivity.
Qed.

(** Rounding to decimals keeps an infinity or NaN. *)
Lemma round_by_zero_not_finite x z (ndigits : nat) :
  (ndigits <= 6)%nat ->
  (z =? 0) = true -> is_finite (Np.round (x / z) ndigits) = false.
Proof.
  intros Hn Hz.
  assert (H : forallb (fun n =>
                negb (is_finite (Np.round nan n))
                && negb (is_finite (Np.round infinity n))
                && negb (is_finite (Np.round neg_infinity n))) (seq 0 7) = true)
    by (vm_compute; reflexivity).
  rewrite forallb_forall in H.
  assert (Hin : In ndigits (seq 0 7)) by (apply in_seq; lia).
  specialize (H ndigits Hin).
  apply andb_prop in H. destruct H as [H H3]. apply andb_prop in H.
  destruct H as [H1 H2]. rewrite negb_true_iff in H1, H2, H3.
  destruct (div_by_zero x z Hz) as [-> | [-> | ->]]; assumption.
Qed.

End Special.
(** ** Binary64 rounding of a quotient

    The integer arithmetic behind [SFdiv]: the shift to the target
    exponent, rounding to nearest even and the renormalization, for the
    quotient of two positive numbers of which the first is the smaller. *)

Module Binary64.

Local Open Scope Z_scope.

Lemma digits2_pos_size p : digits2_pos p = Pos.size p.
Proof. induction p; cbn; congruence. Qed.

Lemma Zdigits2_log2 q : 0 < q -> Zdigits2 q = Z.log2 q + 1.
Proof.
  destruct q as [|p|p]; try lia. intros _. cbn [Zdigits2].
  rewrite digits2_pos_size. destruct p; cbn; lia.
Qed.

Lemma Zdigits2_bounds q : 0 < q -> 2 ^ (Zdigits2 q - 1) <= q < 2 ^ Zdigits2 q.
Proof.
  intros H. rewrite Zdigits2_log2 by exact H.
  replace (Z.log2 q + 1 - 1) with (Z.log2 q) by lia.
  replace (Z.log2 q + 1) with (Z.succ (Z.log2 q)) by lia.
  now apply Z.log2_spec.
Qed.

Lemma Zdigits2_nonneg q : 0 <= Zdigits2 q.
Proof. destruct q; cbn; lia. Qed.

Lemma Zdigits2_le q k : 0 <= q < 2 ^ k -> 0 <= k -> Zdigits2 q <= k.
Proof.
  intros [H0 H1] Hk. destruct (Z.eq_dec q 0) as [->|N]; [cbn; lia|].
  rewrite Zdigits2_log2 by lia.
  assert (Z.log2 q < k) by (apply Z.log2_lt_pow2; lia). lia.
Qed.

Lemma Zdigits2_ge q k : 0 <= k -> 2 ^ k <= q -> k + 1 <= Zdigits2 q.
Proof.
  intros Hk H. assert (0 < q) by (pose proof (Z.pow_pos_nonneg 2 k); lia).
  rewrite Zdigits2_log2 by lia.
  assert (k <= Z.log2 q) by (apply Z.log2_le_pow2; lia). lia.
Qed.

Lemma Zdigits2_mul_pow2 q k : 0 < q -> 0 <= k -> Zdigits2 (q * 2 ^ k) = Zdigits2 q + k.
Proof.
  intros Hq Hk.
  assert (0 < q * 2 ^ k) by (pose proof (Z.pow_pos_nonneg 2 k); nia).
  rewrite !Zdigits2_log2 by lia. rewrite Z.log2_mul_pow2; lia.
Qed.

Lemma Zdigits2_mono p q : 0 <= p <= q -> Zdigits2 p <= Zdigits2 q.
Proof.
  intros [H0 H1]. destruct (Z.eq_dec p 0) as [->|N]; [cbn; apply Zdigits2_nonneg|].
  rewrite !Zdigits2_log2 by lia.
  assert (Z.log2 p <= Z.log2 q) by (apply Z.log2_le_mono; lia). lia.
Qed.

(* iter_pos as Nat.iter *)
Lemma iter_pos_nat {A} (f : A -> A) p x : iter_pos f p x = Nat.iter (Pos.to_nat p) f x.
Proof.
  revert x. induction p as [p IH|p IH|]; intros x; cbn [iter_pos].
  - rewrite !IH.
    replace (Pos.to_nat p~1) with (Pos.to_nat p + (Pos.to_nat p + 1))%nat by lia.
    rewrite !Nat.iter_add. reflexivity.
  - rewrite !IH.
    replace (Pos.to_nat p~0) with (Pos.to_nat p + Pos.to_nat p)%nat by lia.
    now rewrite Nat.iter_add.
  - reflexivity.
Qed.

(* one step of shr on a non-negative mantissa *)
Lemma shr_1_spec m r s :
  0 <= m ->
  shr_m (shr_1 (Build_shr_record m r s)) = m / 2
  /\ shr_r (shr_1 (Build_shr_record m r s)) = Z.odd m.
Proof.
  intros Hm. destruct m as [|p|p]; [split; reflexivity| |lia].
  destruct p as [p|p|]; cbn [shr_1 shr_m shr_r Z.odd].
  - split; [|reflexivity]. rewrite Pos2Z.inj_xI.
    apply Z.div_unique with 1; lia.
  - split; [|reflexivity]. rewrite Pos2Z.inj_xO.
    apply Z.div_unique with 0; lia.
  - split; reflexivity.
Qed.

Lemma shr_iter_spec (k : nat) mrs :
  0 <= shr_m mrs ->
  let out := Nat.iter k shr_1 mrs in
  shr_m out = shr_m mrs / 2 ^ Z.of_nat k
  /\ ((0 < k)%nat -> shr_r out = true ->
      2 ^ (Z.of_nat k - 1) <= shr_m mrs mod 2 ^ Z.of_nat k).
Proof.
  intros Hm. induction k as [|k IH]; cbn zeta.
  - cbn. rewrite Z.div_1_r. split; [reflexivity | lia].
  - rewrite !Nat.iter_succ. destruct IH as [IHm IHr].
    destruct (Nat.iter k shr_1 mrs) as [m' r' s'] eqn:E. cbn [shr_m] in IHm.
    assert (H0 : 0 <= m') by (rewrite IHm; apply Z.div_pos; [lia | apply Z.pow_pos_nonneg; lia]).
    destruct (shr_1_spec m' r' s' H0) as [Hm1 Hr1].
    rewrite Hm1, Hr1. rewrite IHm.
    replace (Z.of_nat (S k)) with (Z.of_nat k + 1) by lia.
    rewrite Z.pow_add_r by lia. rewrite Z.div_div by (try apply Z.pow_pos_nonneg; lia).
    change (2 ^ 1) with 2. split; [reflexivity|].
    intros _ Hodd. replace (Z.of_nat k + 1 - 1) with (Z.of_nat k) by lia.
    (* m mod (2^k * 2) = (m / 2^k mod 2) * 2^k + m mod 2^k *)
    set (P := 2 ^ Z.of_nat k) in *. assert (HP : 0 < P) by (apply Z.pow_pos_nonneg; lia).
    rewrite Z.rem_mul_r by lia.
    assert (Hbit : (shr_m mrs / P) mod 2 = 1).
    { rewrite Zmod_odd, Hodd. reflexivity. }
    rewrite Hbit. pose proof (Z.mod_pos_bound (shr_m mrs) P HP). lia.
Qed.

Lemma shr_spec m l e n :
  0 <= m ->
  (0 < n ->
   snd (shr (shr_record_of_loc m l) e n) = e + n
   /\ shr_m (fst (shr (shr_record_of_loc m l) e n)) = m / 2 ^ n
   /\ (shr_r (fst (shr (shr_record_of_loc m l) e n)) = true ->
       2 ^ (n - 1) <= m mod 2 ^ n))
  /\ (n <= 0 -> shr (shr_record_of_loc m l) e n = (shr_record_of_loc m l, e)).
Proof.
  intros Hm. split.
  - intros Hn. destruct n as [|p|p]; try lia. cbn [shr fst snd].
    rewrite iter_pos_nat.
    assert (Hrec : 0 <= shr_m (shr_record_of_loc m l))
      by (destruct l as [|[| |]]; exact Hm).
    destruct (shr_iter_spec (Pos.to_nat p) (shr_record_of_loc m l) Hrec) as [H1 H2].
    rewrite positive_nat_Z in H1, H2.
    assert (Hmm : shr_m (shr_record_of_loc m l) = m) by (destruct l as [|[| |]]; reflexivity).
    rewrite Hmm in H1, H2.
    split; [reflexivity|]. split; [exact H1|]. apply H2. lia.
  - intros Hn. destruct n as [|p|p]; try lia; reflexivity.
Qed.

(** The exponent function of binary64. *)
Definition fexp64 (k : Z) : Z := Z.max (k - 53) (-1074).

Lemma fexp_64 k : fexp prec emax k = fexp64 k.
Proof. reflexivity. Qed.

Lemma bounded_facts m e :
  bounded prec emax m e = true ->
  Zdigits2 (Zpos m) <= 53 /\ -1074 <= e <= 971
  /\ (Zdigits2 (Zpos m) = 53 \/ e = -1074).
Proof.
  unfold bounded, canonical_mantissa. rewrite fexp_64. unfold fexp64.
  intros H. apply andb_prop in H. destruct H as [H1 H2].
  apply Z.eqb_eq in H1. apply Z.leb_le in H2.
  change (Zpos (digits2_pos m)) with (Zdigits2 (Zpos m)) in H1.
  change (emax - prec) with 971 in H2. lia.
Qed.

Lemma compare_Lt_facts m1 e1 m2 e2 :
  SFcompare (S754_finite false m1 e1) (S754_finite false m2 e2) = Some Lt ->
  e1 < e2 \/ (e1 = e2 /\ Zpos m1 < Zpos m2).
Proof.
  cbn. destruct (Z.compare_spec e1 e2) as [E|L|G]; intros H; try discriminate.
  - right. split; [exact E|]. inversion H as [H']. now apply Pos.compare_lt_iff in H'.
  - now left.
Qed.

Lemma no_round_up_to_one m1 m2 e1 e2 K n s :
  0 < m1 < 2 ^ 53 -> 0 < m2 < 2 ^ 53 ->
  (e1 = e2 /\ m1 < m2) \/ (e1 < e2 /\ 2 ^ 52 <= m2) ->
  53 <= K -> 0 <= n -> s = e1 - e2 + K + n -> 0 <= s ->
  (2 ^ (K + 1) - 1) * 2 ^ n * m2 <= 2 * (m1 * 2 ^ s) -> False.
Proof.
  intros Hm1 Hm2 Hlt HK Hn Hs Hs0 H.
  set (A := 2 ^ n) in *. set (B := 2 ^ K) in *.
  assert (HA : 0 < A) by (apply Z.pow_pos_nonneg; lia).
  assert (HB : 2 ^ 53 <= B) by (apply Z.pow_le_mono_r; lia).
  assert (HB1 : 2 ^ (K + 1) = 2 * B) by (rewrite Z.pow_add_r by lia; unfold B; lia).
  rewrite HB1 in H.
  destruct Hlt as [[E Hlt] | [L Hn2]].
  - assert (Hp : 2 ^ s = B * A) by (subst s; replace (e1 - e2 + K + n) with (K + n) by lia;
                                    now rewrite Z.pow_add_r by lia).
    rewrite Hp in H.
    assert (H' : (2 * B - 1) * m2 <= 2 * m1 * B).
    { apply Z.mul_le_mono_pos_l with A; [exact HA|]. nia. }
    nia.
  - set (D := 2 ^ (e2 - e1)).
    assert (HD : 2 <= D) by (change 2 with (2 ^ 1) at 1; apply Z.pow_le_mono_r; lia).
    assert (Hp : 2 ^ s * D = B * A).
    { unfold D, B, A. rewrite <- !Z.pow_add_r by lia. f_equal. lia. }
    assert (H1 : (2 * B - 1) * A * m2 * D <= 2 * (m1 * 2 ^ s) * D) by nia.
    replace (2 * (m1 * 2 ^ s) * D) with (2 * m1 * (2 ^ s * D)) in H1 by ring.
    rewrite Hp in H1.
    assert (H' : (2 * B - 1) * (m2 * D) <= 2 * m1 * B).
    { apply Z.mul_le_mono_pos_l with A; [exact HA|]. nia. }
    assert (H2 : 2 ^ 53 <= m2 * D) by (change (2 ^ 53) with (2 ^ 52 * 2); nia).
    assert (H3 : (2 * B - 1) * 2 ^ 53 <= 2 * m1 * B) by nia.
    nia.
Qed.

Lemma round_nearest_even_cases mrs :
  let mr := round_nearest_even (shr_m mrs) (loc_of_shr_record mrs) in
  mr = shr_m mrs \/ (mr = shr_m mrs + 1 /\ shr_r mrs = true).
Proof.
  destruct mrs as [m [|] [|]]; cbn; auto.
  destruct (Z.even m); auto.
Qed.

Lemma new_location_round_bit q m2 r :
  0 <= r ->
  shr_r (shr_record_of_loc q (new_location m2 r)) = true -> m2 <= 2 * r.
Proof.
  intros Hr. unfold new_location, new_location_even, new_location_odd.
  destruct (Z.even m2); destruct (r =? 0) eqn:Z0;
    cbn [shr_record_of_loc shr_r]; try discriminate.
  - destruct (Z.compare_spec (2 * r) m2);
      cbn [shr_record_of_loc shr_r]; intros; try discriminate; lia.
  - destruct (Z.compare_spec (2 * r + 1) m2);
      cbn [shr_record_of_loc shr_r]; intros; try discriminate; lia.
Qed.

(** The result of the second normalization is small when the rounded
    mantissa is. *)
Lemma renormalize_small mr ea :
  0 <= mr -> ea <= -53 -> Zdigits2 mr + ea <= 0 ->
  let '(mrs, eb) := shr_fexp prec emax mr ea loc_Exact in
  match shr_m mrs with
  | Z0 => True
  | Zpos m => eb <= -53
  | Zneg _ => False
  end.
Proof.
  intros Hmr Hea Hd. unfold shr_fexp. rewrite fexp_64.
  set (n := fexp64 (Zdigits2 mr + ea) - ea).
  destruct (shr_spec mr loc_Exact ea n Hmr) as [Hpos Hneg].
  destruct (shr (shr_record_of_loc mr loc_Exact) ea n) as [mrs eb] eqn:E.
  destruct (Z_lt_le_dec 0 n) as [Hn|Hn].
  - destruct (Hpos Hn) as (He & Hm & _). cbn [fst snd] in He, Hm.
    assert (0 <= shr_m mrs) by (rewrite Hm; apply Z.div_pos; [lia | apply Z.pow_pos_nonneg; lia]).
    destruct (shr_m mrs); try lia. subst eb. unfold n, fexp64 in *. lia.
  - specialize (Hneg Hn). inversion Hneg; subst. cbn [shr_record_of_loc shr_m].
    destruct mr; try lia.
Qed.

(** A non-negative number that is zero or has an exponent of at most -53:
    its 53-bit mantissa keeps it below 1. *)
Definition below_one (x : spec_float) : Prop :=
  match x with
  | S754_zero false => True
  | S754_finite false _ e => e <= -53
  | _ => False
  end.

(** Rounding a quotient below 1 gives zero or a number of exponent at
    most -53, unless the mantissa is all ones and is rounded up. *)
Lemma binary_round_aux_small q e' loc :
  0 <= q -> e' <= -53 -> Zdigits2 q + e' <= 0 ->
  (forall n, 0 <= n -> e' + n <= -53 ->
     q / 2 ^ n = 2 ^ (- (e' + n)) - 1 ->
     (0 < n /\ 2 ^ (n - 1) <= q mod 2 ^ n)
     \/ (n = 0 /\ shr_r (shr_record_of_loc q loc) = true) -> False) ->
  below_one (binary_round_aux prec emax false q e' loc).
Proof.
  intros Hq He Hd Hno. unfold binary_round_aux.
  assert (Hqlt : q < 2 ^ (- e')).
  { destruct (Z.eq_dec q 0) as [->|N]; [apply Z.pow_pos_nonneg; lia|].
    pose proof (Zdigits2_bounds q ltac:(lia)) as [_ Hb].
    eapply Z.lt_le_trans; [exact Hb|]. apply Z.pow_le_mono_r; lia. }
  set (n1 := fexp64 (Zdigits2 q + e') - e').
  assert (Hs : shr_fexp prec emax q e' loc = shr (shr_record_of_loc q loc) e' n1)
    by (unfold shr_fexp; rewrite fexp_64; reflexivity).
  rewrite Hs. clear Hs.
  destruct (shr_spec q loc e' n1 Hq) as [Hpos Hneg].
  destruct (shr (shr_record_of_loc q loc) e' n1) as [mrs ea] eqn:E.
  (* the facts common to both cases *)
  assert (Hfacts : exists n, 0 <= n /\ ea = e' + n /\ ea <= -53
            /\ shr_m mrs = q / 2 ^ n
            /\ (shr_r mrs = true ->
                (0 < n /\ 2 ^ (n - 1) <= q mod 2 ^ n)
                \/ (n = 0 /\ shr_r (shr_record_of_loc q loc) = true))).
  { destruct (Z_lt_le_dec 0 n1) as [Hn|Hn].
    - destruct (Hpos Hn) as (H1 & H2 & H3). cbn [fst snd] in H1, H2, H3.
      exists n1. repeat split; try lia; trivial.
      + subst ea. unfold n1, fexp64. lia.
      + intros Hr. left. split; [lia | now apply H3].
    - specialize (Hneg Hn). inversion Hneg; subst.
      exists 0. repeat split; try lia.
      + destruct loc as [|[| |]]; cbn; now rewrite Z.div_1_r.
      + intros Hr. right. auto. }
  destruct Hfacts as (n & Hn & Hea & Hea53 & Hms & Hround).
  assert (Hms0 : 0 <= shr_m mrs)
    by (rewrite Hms; apply Z.div_pos; [lia | apply Z.pow_pos_nonneg; lia]).
  assert (Hmslt : shr_m mrs < 2 ^ (- ea)).
  { rewrite Hms. apply Z.div_lt_upper_bound; [apply Z.pow_pos_nonneg; lia|].
    rewrite <- Z.pow_add_r by lia. replace (n + - ea) with (- e') by lia. exact Hqlt. }
  set (mr := round_nearest_even (shr_m mrs) (loc_of_shr_record mrs)).
  assert (Hmr : 0 <= mr /\ Zdigits2 mr + ea <= 0).
  { destruct (round_nearest_even_cases mrs) as [Hsame | [Hup Hbit]]; fold mr in Hsame || fold mr in Hup.
    - rewrite Hsame. split; [exact Hms0|].
      assert (Zdigits2 (shr_m mrs) <= - ea) by (apply Zdigits2_le; lia). lia.
    - rewrite Hup. split; [lia|].
      destruct (Z.eq_dec (shr_m mrs + 1) (2 ^ (- ea))) as [Heq|Hne].
      + exfalso. apply (Hno n Hn); [lia | | now apply Hround].
        rewrite <- Hms. replace (- (e' + n)) with (- ea) by lia. lia.
      + assert (Zdigits2 (shr_m mrs + 1) <= - ea) by (apply Zdigits2_le; lia). lia. }
  destruct Hmr as [Hmr0 Hmrd].
  pose proof (renormalize_small mr ea Hmr0 Hea53 Hmrd) as Hfinal.
  destruct (shr_fexp prec emax mr ea loc_Exact) as [mrs2 eb].
  destruct (shr_m mrs2) as [|m|m]; [exact I | | contradiction].
  assert (Hle : (eb <=? emax - prec) = true) by (apply Z.leb_le; change (emax - prec) with 971; lia).
  rewrite Hle. exact Hfinal.
Qed.

(** The quotient of two positive binary64 numbers, the first one smaller
    than the second, is never rounded up to 1. *)
Lemma SFdiv_below_one m1 e1 m2 e2 :
  bounded prec emax m1 e1 = true -> bounded prec emax m2 e2 = true ->
  SFcompare (S754_finite false m1 e1) (S754_finite false m2 e2) = Some Lt ->
  below_one (SFdiv prec emax (S754_finite false m1 e1) (S754_finite false m2 e2)).
Proof.
  intros B1 B2 C.
  destruct (bounded_facts _ _ B1) as (D1 & E1 & N1).
  destruct (bounded_facts _ _ B2) as (D2 & E2 & N2).
  pose proof (Zdigits2_bounds (Zpos m1) ltac:(lia)) as [L1 U1].
  pose proof (Zdigits2_bounds (Zpos m2) ltac:(lia)) as [L2 U2].
  assert (U1' : Zpos m1 < 2 ^ 53)
    by (eapply Z.lt_le_trans; [exact U1 | apply Z.pow_le_mono_r; lia]).
  assert (U2' : Zpos m2 < 2 ^ 53)
    by (eapply Z.lt_le_trans; [exact U2 | apply Z.pow_le_mono_r; lia]).
  assert (Hlt : (e1 = e2 /\ Zpos m1 < Zpos m2) \/ (e1 < e2 /\ 2 ^ 52 <= Zpos m2)).
  { destruct (compare_Lt_facts _ _ _ _ C) as [L | [E L]]; [right | left; auto].
    split; [exact L|]. destruct N2 as [N2|N2]; [|lia]. rewrite N2 in L2. exact L2. }
  assert (HD : Zdigits2 (Zpos m1) + e1 - (Zdigits2 (Zpos m2) + e2) <= 0).
  { destruct Hlt as [[E L] | [L H52]].
    - pose proof (Zdigits2_mono (Zpos m1) (Zpos m2) ltac:(lia)). lia.
    - assert (Zdigits2 (Zpos m2) = 53) by (destruct N2; lia). lia. }
  cbn [SFdiv xorb]. unfold SFdiv_core_binary. rewrite fexp_64.
  set (e' := Z.min (fexp64 (Zdigits2 (Zpos m1) + e1 - (Zdigits2 (Zpos m2) + e2))) (e1 - e2)).
  set (s := e1 - e2 - e').
  assert (He' : e' <= -53) by (unfold e', fexp64; lia).
  assert (Hs : 0 <= s) by (unfold s, e'; lia).
  set (m' := match s with Z0 => Zpos m1 | Zpos _ => Z.shiftl (Zpos m1) s | Zneg _ => 0 end).
  assert (Hm' : m' = Zpos m1 * 2 ^ s).
  { unfold m'. destruct s eqn:Es; try lia. rewrite Z.shiftl_mul_pow2; lia. }
  clearbody m'.
  destruct (Z.div_eucl m' (Zpos m2)) as [q r] eqn:Ediv.
  assert (Hq : q = m' / Zpos m2) by (unfold Z.div; now rewrite Ediv).
  assert (Hr : r = m' mod Zpos m2) by (unfold Z.modulo; now rewrite Ediv).
  assert (Hqr : m' = Zpos m2 * q + r /\ 0 <= r < Zpos m2).
  { subst q r. split; [apply Z.div_mod; lia | apply Z.mod_pos_bound; lia]. }
  destruct Hqr as [Hqr Hrb].
  assert (Hs2 : 0 < 2 ^ s) by (apply Z.pow_pos_nonneg; lia).
  assert (Hm'lt : m' < Zpos m2 * 2 ^ (- e')).
  { rewrite Hm'. destruct Hlt as [[E L] | [L H52]].
    - replace (- e') with s by (unfold s; lia).
      apply Z.mul_lt_mono_pos_r; [exact Hs2 | exact L].
    - replace (- e') with (s + (e2 - e1)) by (unfold s; lia).
      rewrite Z.pow_add_r by lia.
      assert (2 <= 2 ^ (e2 - e1))
        by (change 2 with (2 ^ 1) at 1; apply Z.pow_le_mono_r; lia).
      set (D := 2 ^ (e2 - e1)) in *.
      assert (Z.pos m1 < Z.pos m2 * D).
      { apply Z.lt_le_trans with (2 ^ 52 * 2); [exact U1'|].
        apply Z.mul_le_mono_nonneg; lia. }
      rewrite Z.mul_assoc, (Z.mul_comm (Z.pos m2)), <- Z.mul_assoc, (Z.mul_comm (Z.pos m1)).
      apply Z.mul_lt_mono_pos_l; assumption. }
  assert (Hq0 : 0 <= q) by (rewrite Hq; apply Z.div_pos; nia).
  assert (Hqlt : q < 2 ^ (- e')) by (rewrite Hq; apply Z.div_lt_upper_bound; lia).
  apply binary_round_aux_small; trivial.
  - assert (Zdigits2 q <= - e') by (apply Zdigits2_le; lia). lia.
  - intros n Hn Hen Hms Hbit.
    apply (no_round_up_to_one (Zpos m1) (Zpos m2) e1 e2 (- (e' + n)) n s); try lia.
    rewrite <- Hm'.
    replace (2 ^ (- (e' + n) + 1)) with (2 * 2 ^ (- (e' + n)))
      by (rewrite Z.pow_add_r by lia; lia).
    set (B := 2 ^ (- (e' + n))) in *.
    destruct Hbit as [[Hn0 Hmod] | [Hn0 Hbit]].
    + assert (Hn2 : 2 ^ n = 2 * 2 ^ (n - 1)).
      { replace n with (1 + (n - 1)) at 1 by lia. rewrite Z.pow_add_r by lia. lia. }
      assert (Hp : 0 < 2 ^ (n - 1)) by (apply Z.pow_pos_nonneg; lia).
      pose proof (Z.div_mod q (2 ^ n) ltac:(lia)) as Hdm.
      rewrite Hms in Hdm.
      assert (H2q : 2 ^ n * (2 * B - 1) <= 2 * q) by nia.
      nia.
    + subst n. rewrite Z.pow_0_r, Z.div_1_r in *.
      apply new_location_round_bit in Hbit; [|lia]. nia.
Qed.



(** *** Rounding stays below a representable bound *)

(** A non-negative number that is at most [my * 2 ^ ey]. *)
Definition at_most (x : spec_float) (my : positive) (ey : Z) : Prop :=
  match x with
  | S754_zero false => True
  | S754_finite false m e => e <= ey /\ Zpos m <= Zpos my * 2 ^ (ey - e)
  | _ => False
  end.

Lemma fexp64_canonical my ey :
  bounded prec emax my ey = true -> fexp64 (Zdigits2 (Zpos my) + ey) = ey.
Proof.
  intros B. destruct (bounded_facts _ _ B) as (D & E & N). unfold fexp64. lia.
Qed.

Lemma fexp64_le M E my ey :
  bounded prec emax my ey = true ->
  0 <= M -> E <= ey -> M <= Zpos my * 2 ^ (ey - E) ->
  fexp64 (Zdigits2 M + E) <= ey.
Proof.
  intros B HM HE Hle. pose proof (fexp64_canonical my ey B) as Hc.
  assert (Hd : Zdigits2 M + E <= Zdigits2 (Zpos my) + ey).
  { assert (H : Zdigits2 M <= Zdigits2 (Zpos my * 2 ^ (ey - E)))
      by (apply Zdigits2_mono; lia).
    rewrite Zdigits2_mul_pow2 in H by lia. lia. }
  unfold fexp64 in *. lia.
Qed.

Lemma shift_le M E n my ey :
  0 <= M -> M <= Zpos my * 2 ^ (ey - E) -> 0 <= n <= ey - E ->
  M / 2 ^ n <= Zpos my * 2 ^ (ey - (E + n)).
Proof.
  intros HM Hle Hn.
  assert (Hp : 0 < 2 ^ n) by (apply Z.pow_pos_nonneg; lia).
  apply Z.div_le_upper_bound; [exact Hp|].
  rewrite Z.mul_comm, <- Z.mul_assoc, <- Z.pow_add_r by lia.
  replace (ey - (E + n) + n) with (ey - E) by lia. exact Hle.
Qed.

Lemma binary_round_aux_at_most M E my ey :
  bounded prec emax my ey = true ->
  0 <= M -> E <= ey -> M <= Zpos my * 2 ^ (ey - E) ->
  at_most (binary_round_aux prec emax false M E loc_Exact) my ey.
Proof.
  intros B HM HE Hle.
  destruct (bounded_facts _ _ B) as (_ & Ey & _).
  unfold binary_round_aux.
  set (n1 := fexp64 (Zdigits2 M + E) - E).
  assert (Hs : shr_fexp prec emax M E loc_Exact = shr (shr_record_of_loc M loc_Exact) E n1)
    by (unfold shr_fexp; rewrite fexp_64; reflexivity).
  rewrite Hs. clear Hs.
  pose proof (fexp64_le M E my ey B HM HE Hle) as Hn1.
  destruct (shr_spec M loc_Exact E n1 HM) as [Hpos Hneg].
  destruct (shr (shr_record_of_loc M loc_Exact) E n1) as [mrs ea] eqn:Es.
  set (mr := round_nearest_even (shr_m mrs) (loc_of_shr_record mrs)).
  assert (Hmr : ea <= ey /\ 0 <= mr <= Zpos my * 2 ^ (ey - ea)).
  { destruct (Z_lt_le_dec 0 n1) as [Hn|Hn].
    - destruct (Hpos Hn) as (H1 & H2 & H3). cbn [fst snd] in H1, H2, H3.
      assert (Hp : 0 < 2 ^ n1) by (apply Z.pow_pos_nonneg; lia).
      assert (Hms0 : 0 <= shr_m mrs) by (rewrite H2; apply Z.div_pos; lia).
      assert (Hmsle : shr_m mrs <= Zpos my * 2 ^ (ey - ea)).
      { rewrite H2, H1. apply shift_le; unfold n1 in *; lia. }
      split; [unfold n1 in *; lia|].
      destruct (round_nearest_even_cases mrs) as [Hsame | [Hup Hbit]];
        fold mr in Hsame || fold mr in Hup; [lia|].
      split; [lia|].
      destruct (Z.eq_dec (shr_m mrs) (Zpos my * 2 ^ (ey - ea))) as [Heq|Hne]; [|lia].
      exfalso. apply H3 in Hbit.
      assert (Hk : Zpos my * 2 ^ (ey - E) = 2 ^ n1 * (Zpos my * 2 ^ (ey - ea))).
      { rewrite H1. replace (ey - E) with (n1 + (ey - (E + n1))) by lia.
        rewrite Z.pow_add_r by (unfold n1 in *; lia). ring. }
      pose proof (Z.div_mod M (2 ^ n1) ltac:(lia)) as Hdm.
      rewrite <- H2, Heq, <- Hk in Hdm.
      assert (0 < 2 ^ (n1 - 1)) by (apply Z.pow_pos_nonneg; lia).
      lia.
    - specialize (Hneg Hn). inversion Hneg; subst mrs ea.
      subst mr. cbn [shr_record_of_loc shr_m loc_of_shr_record round_nearest_even].
      lia. }
  destruct Hmr as (Hea & Hmr0 & Hmrle).
  set (n2 := fexp64 (Zdigits2 mr + ea) - ea).
  assert (Hs : shr_fexp prec emax mr ea loc_Exact = shr (shr_record_of_loc mr loc_Exact) ea n2)
    by (unfold shr_fexp; rewrite fexp_64; reflexivity).
  rewrite Hs. clear Hs.
  pose proof (fexp64_le mr ea my ey B Hmr0 Hea Hmrle) as Hn2.
  destruct (shr_spec mr loc_Exact ea n2 Hmr0) as [Hpos2 Hneg2].
  destruct (shr (shr_record_of_loc mr loc_Exact) ea n2) as [mrs2 eb] eqn:Es2.
  assert (Hfin : eb <= ey /\ 0 <= shr_m mrs2 <= Zpos my * 2 ^ (ey - eb)).
  { destruct (Z_lt_le_dec 0 n2) as [Hn|Hn].
    - destruct (Hpos2 Hn) as (H1 & H2 & _). cbn [fst snd] in H1, H2.
      assert (Hp : 0 < 2 ^ n2) by (apply Z.pow_pos_nonneg; lia).
      split; [unfold n2 in *; lia|]. rewrite H2, H1.
      split; [apply Z.div_pos; lia | apply shift_le; unfold n2 in *; lia].
    - specialize (Hneg2 Hn). inversion Hneg2; subst mrs2 eb.
      cbn [shr_record_of_loc shr_m]. lia. }
  destruct Hfin as (Heb & Hm0 & Hmle).
  destruct (shr_m mrs2) as [|m|m]; [exact I | | lia].
  assert (Hle' : (eb <=? emax - prec) = true)
    by (apply Z.leb_le; change (emax - prec) with 971; lia).
  rewrite Hle'. split; assumption.
Qed.

Lemma Pos_iter_xO p d : Zpos (Pos.iter xO p d) = Zpos p * 2 ^ Zpos d.
Proof.
  rewrite (Pos.iter_swap_gen _ _ Zpos xO (Z.mul 2)) by reflexivity.
  change (Pos.iter (Z.mul 2) (Zpos p) d) with (Z.shiftl (Zpos p) (Zpos d)).
  apply Z.shiftl_mul_pow2. lia.
Qed.

Lemma shl_align_spec mx ex ex' :
  (ex' < ex ->
   snd (shl_align mx ex ex') = ex'
   /\ Zpos (fst (shl_align mx ex ex')) = Zpos mx * 2 ^ (ex - ex'))
  /\ (ex <= ex' -> shl_align mx ex ex' = (mx, ex)).
Proof.
  unfold shl_align. destruct (ex' - ex) as [|d|d] eqn:E; split; intros H;
    try lia; try reflexivity.
  cbn [fst snd]. split; [reflexivity|]. rewrite Pos_iter_xO. f_equal. f_equal. lia.
Qed.

Lemma binary_round_at_most S e my ey :
  bounded prec emax my ey = true ->
  e <= ey -> Zpos S <= Zpos my * 2 ^ (ey - e) ->
  at_most (binary_round prec emax false S e) my ey.
Proof.
  intros B He Hle. unfold binary_round.
  set (f := fexp prec emax (Zpos (digits2_pos S) + e)).
  destruct (shl_align_spec S e f) as [Hl Hr].
  destruct (shl_align S e f) as [mz ez]. cbn [fst snd] in Hl.
  destruct (Z_lt_le_dec f e) as [L|G].
  - destruct (Hl L) as [-> Hm]. apply binary_round_aux_at_most; try lia; trivial.
    rewrite Hm. replace (ey - f) with (ey - e + (e - f)) by lia.
    rewrite Z.pow_add_r, Z.mul_assoc by lia.
    apply Z.mul_le_mono_nonneg_r; [apply Z.pow_nonneg; lia | exact Hle].
  - specialize (Hr G). inversion Hr; subst mz ez.
    apply binary_round_aux_at_most; try lia; trivial.
Qed.


(** A number divided by itself is 1. *)
Lemma SFdiv_self m e :
  SFdiv prec emax (S754_finite false m e) (S754_finite false m e)
  = S754_finite false 4503599627370496 (-52).
Proof.
  cbn [SFdiv xorb]. unfold SFdiv_core_binary.
  replace (Zdigits2 (Zpos m) + e - (Zdigits2 (Zpos m) + e)) with 0 by lia.
  rewrite Z.sub_diag.
  change (Z.min (fexp prec emax 0) 0) with (-53).
  change (0 - -53) with 53.
  rewrite Z.shiftl_mul_pow2 by lia.
  assert (Hd : Z.div_eucl (Zpos m * 2 ^ 53) (Zpos m) = (2 ^ 53, 0)).
  { pose proof (Z.div_mul (2 ^ 53) (Zpos m) ltac:(lia)) as Hq.
    pose proof (Z.mod_mul (2 ^ 53) (Zpos m) ltac:(lia)) as Hr.
    rewrite (Z.mul_comm (2 ^ 53)) in Hq, Hr.
    unfold Z.div in Hq. unfold Z.modulo in Hr.
    destruct (Z.div_eucl (Zpos m * 2 ^ 53) (Zpos m)) as [q r].
    cbn [fst snd] in Hq, Hr. congruence. }
  rewrite Hd.
  assert (Hl : new_location (Zpos m) 0 = loc_Exact)
    by (unfold new_location, new_location_even, new_location_odd;
        destruct (Z.even (Zpos m)); reflexivity).
  rewrite Hl. reflexivity.
Qed.


End Binary64.
(** ** The folded phase *)

Module Phase.

Local Open Scope float_scope.














End Phase.

(** ** Arrays *)

Module NpFacts.

Lemma compress_ok {a : list float} {mask : list bool} :
  List.length a = List.length mask ->
  Np.compress a mask = Ok (map fst (filter snd (combine a mask))).
Proof.
  intros E. unfold Np.compress. now rewrite E, Nat.eqb_refl.
Qed.

Lemma compress_inv a mask r :
  Np.compress a mask = Ok r ->
  List.length a = List.length mask /\ r = map fst (filter snd (combine a mask)).
Proof.
  unfold Np.compress. destruct (Nat.eqb_spec (List.length a) (List.length mask));
    [|discriminate].
  intros H. inversion H. auto.
Qed.

(** Selecting by a mask computed from a companion array of the same
    length is filtering the paired arrays. *)
Lemma select_by_companion (f : float -> bool) (phase flux : list float) :
  List.length phase = List.length flux ->
  map fst (filter snd (combine flux (map f phase))) =
  map snd (filter (fun pf => f (fst pf)) (combine phase flux)).
Proof.
  revert flux. induction phase as [|p phase IH]; intros [|x flux] E;
    try discriminate; [reflexivity|].
  cbn. destruct (f p); cbn; rewrite IH by (cbn in E; lia); reflexivity.
Qed.

Lemma count_by_companion (f : float -> bool) (phase flux : list float) :
  List.length phase = List.length flux ->
  Np.count_nonzero (map f phase) =
  List.length (map snd (filter (fun pf => f (fst pf)) (combine phase flux))).
Proof.
  unfold Np.count_nonzero.
  revert flux. induction phase as [|p phase IH]; intros [|x flux] E;
    try discriminate; [reflexivity|].
  cbn. destruct (f p); cbn; rewrite IH with (flux := flux) by (cbn in E; lia);
    reflexivity.
Qed.

Lemma broadcast_same_length {A B C : Type} (op : A -> B -> C)
    (a : list A) (b : list B) :
  List.length a = List.length b ->
  Np.broadcast op a b = Ok (map (fun p => op (fst p) (snd p)) (combine a b)).
Proof. intros E. unfold Np.broadcast. now rewrite E, Nat.eqb_refl. Qed.

End NpFacts.

(** ** The BLS power of one grid point *)

Section BlsPower.

Local Open Scope float_scope.

(** The code and the specification's formula on five points whose two
    out-of-transit values are equal: the code's guard on a zero spread
    returns 0 where the formula divides by zero. *)
Lemma bls_power_zero_spread_counterexample :
  _calculate_bls_power [0; 0; 0; 0.5; 0.5] [0.9; 0.9; 0.9; 1; 1] 0 0.1 = Ok 0
  /\ Spec.bls_power [0; 0; 0; 0.5; 0.5] [0.9; 0.9; 0.9; 1; 1] 0 0.1 = infinity.
Proof. split; vm_compute; reflexivity. Qed.

(** What [_calculate_bls_power] returns on arrays of equal length. *)
Lemma bls_power_value (phase flux : list float) (t0_frac d : float) :
  List.length phase = List.length flux ->
  _calculate_bls_power phase flux t0_frac d
  = Ok (Spec.guarded_power phase flux t0_frac d).
Proof.
  intros E. unfold Spec.guarded_power.
  assert (Hin := NpFacts.select_by_companion (Spec.in_transit t0_frac d) phase flux E).
  assert (Hout := NpFacts.select_by_companion
                    (fun p => negb (Spec.in_transit t0_frac d p)) phase flux E).
  assert (Cin := NpFacts.count_by_companion (Spec.in_transit t0_frac d) phase flux E).
  assert (Cout := NpFacts.count_by_companion
                    (fun p => negb (Spec.in_transit t0_frac d p)) phase flux E).
  unfold _calculate_bls_power.
  change (map (fun p => abs (p - t0_frac) <? d / 2) phase)
    with (map (Spec.in_transit t0_frac d) phase).
  rewrite map_map.
  rewrite Cin, Cout.
  fold (Spec.flux_in phase flux t0_frac d).
  fold (Spec.flux_out phase flux t0_frac d).
  destruct (List.length (Spec.flux_in phase flux t0_frac d) <? 3)%nat eqn:N3;
    [reflexivity|].
  rewrite !NpFacts.compress_ok by (rewrite length_map; congruence).
  cbn [Py.bind]. rewrite Hin, Hout.
  fold (Spec.flux_in phase flux t0_frac d).
  fold (Spec.flux_out phase flux t0_frac d).
  apply Nat.ltb_ge in N3.
  destruct (List.length (Spec.flux_in phase flux t0_frac d) =? 0)%nat eqn:Z1.
  { apply Nat.eqb_eq in Z1. lia. }
  cbn [orb].
  destruct (List.length (Spec.flux_out phase flux t0_frac d) =? 0)%nat eqn:Z2.
  { (* no point out of transit: the statistic is NaN *)
    apply Nat.eqb_eq, length_zero_iff_nil in Z2.
    unfold Spec.bls_statistic. rewrite Z2.
    change (Np.std [] =? 0) with false. cbn [orb].
    f_equal. symmetry. apply Special.py_max_nan.
    apply Special.nan_div_l, Special.nan_mul_l.
    change (Np.mean []) with nan. apply Special.nan_sub. }
  destruct (Np.std (Spec.flux_out phase flux t0_frac d) =? 0); reflexivity.
Qed.

Lemma guarded_power_nonneg (phase flux : list float) (t0_frac d : float) :
  (0 <=? Spec.guarded_power phase flux t0_frac d) = true.
Proof.
  unfold Spec.guarded_power.
  destruct (_ || _); [reflexivity | apply F.py_max_zero_nonneg].
Qed.

(** C2 (amended).  On arrays of equal length the power of a grid point is
    0 when fewer than 3 points are in transit or when the standard
    deviation of the out-of-transit flux is 0, and otherwise
    [max(0, statistic)] with the specification's statistic; it is never
    negative (and never NaN). *)
Theorem bls_power_cases (phase flux : list float) (t0_frac d : float) :
  List.length phase = List.length flux ->
  exists p,
    _calculate_bls_power phase flux t0_frac d = Ok p
    /\ p = (if (List.length (Spec.flux_in phase flux t0_frac d) <? 3)%nat
               || (Np.std (Spec.flux_out phase flux t0_frac d) =? 0)
            then 0
            else py_max 0 (Spec.bls_statistic phase flux t0_frac d))
    /\ (0 <=? p) = true.
Proof.
  intros E. exists (Spec.guarded_power phase flux t0_frac d).
  split; [now apply bls_power_value|]. split; [reflexivity|].
  apply guarded_power_nonneg.
Qed.

(** The theorem on four in-transit and three out-of-transit points. *)
Lemma bls_power_cases_witness :
  let phase := [0; 0; 0; 0; 0.5; 0.5; 0.5] in
  let flux := [0.9; 0.9; 0.9; 0.9; 1; 1.5; 0.5] in
  List.length phase = List.length flux
  /\ exists p,
    _calculate_bls_power phase flux 0 0.1 = Ok p
    /\ p = (if (List.length (Spec.flux_in phase flux 0 0.1) <? 3)%nat
               || (Np.std (Spec.flux_out phase flux 0 0.1) =? 0)
            then 0
            else py_max 0 (Spec.bls_statistic phase flux 0 0.1))
    /\ (0 <=? p) = true.
Proof. split; [reflexivity | apply bls_power_cases; reflexivity]. Defined.

End BlsPower.

(** ** The preprocessor *)

Module Sorting.

Section ByKey.

Context {A : Type} (key : A -> float).

(** [y] may stand after [x]: its key is not smaller. *)
Definition not_after (x y : A) : Prop := (key y <? key x)%float = false.

Lemma insert_Forall (P : A -> Prop) (x : A) (l : list A) :
  P x -> Forall P l -> Forall P (Np.insert key x l).
Proof.
  intros Hx. induction 1 as [|y l Hy Hl IH]; cbn.
  - constructor; [assumption | constructor].
  - destruct (key x <? key y)%float; constructor; trivial.
    now constructor.
Qed.

Lemma insert_length (x : A) (l : list A) :
  List.length (Np.insert key x l) = S (List.length l).
Proof.
  induction l as [|y l IH]; cbn; [reflexivity|].
  destruct (key x <? key y)%float; cbn; [reflexivity | now rewrite IH].
Qed.

Lemma insert_sorted (x : A) (l : list A) :
  StronglySorted not_after l -> StronglySorted not_after (Np.insert key x l).
Proof.
  induction 1 as [|y l Hs IH Hall]; cbn.
  - constructor; constructor.
  - destruct (key x <? key y)%float eqn:Cmp.
    + constructor; [now constructor|].
      constructor; [now apply F.ltb_asym|].
      rewrite Forall_forall in Hall |- *. intros z Hz. specialize (Hall z Hz).
      unfold not_after in *.
      destruct (key z <? key x)%float eqn:Czx; [|reflexivity].
      rewrite (F.ltb_trans _ _ _ Czx Cmp) in Hall. discriminate.
    + constructor; [exact IH|].
      apply insert_Forall; assumption.
Qed.

Lemma sort_by_invariant (P : list A -> Prop) (l : list A) :
  (forall x acc, P acc -> P (Np.insert key x acc)) -> P [] -> P (Np.sort_by key l).
Proof.
  intros Hstep. unfold Np.sort_by. generalize (@nil A).
  induction l as [|x l IH]; intros acc Hacc; cbn; [assumption|].
  apply IH, Hstep, Hacc.
Qed.

Lemma sort_by_sorted (l : list A) : StronglySorted not_after (Np.sort_by key l).
Proof. apply sort_by_invariant; [apply insert_sorted | constructor]. Qed.

Lemma sort_by_Forall (P : A -> Prop) (l : list A) :
  Forall P l -> Forall P (Np.sort_by key l).
Proof.
  unfold Np.sort_by. assert (Hnil : Forall P (@nil A)) by constructor.
  revert Hnil. generalize (@nil A).
  induction l as [|x l IH]; intros acc Hacc Hl; cbn; [assumption|].
  inversion Hl; subst. apply IH; [|assumption]. now apply insert_Forall.
Qed.

Lemma sort_by_length (l : list A) : List.length (Np.sort_by key l) = List.length l.
Proof.
  unfold Np.sort_by.
  assert (H : forall acc, List.length (fold_left (fun acc x => Np.insert key x acc) l acc)
                          = (List.length l + List.length acc)%nat).
  { induction l as [|x l IH]; intros acc; cbn; [reflexivity|].
    rewrite IH, insert_length. lia. }
  rewrite H. cbn. lia.
Qed.


End ByKey.

Lemma sorted_map {A : Type} (key : A -> float) (l : list A) :
  StronglySorted (not_after key) l -> ascending (map key l).
Proof.
  unfold ascending. induction 1 as [|x l Hs IH Hall]; cbn; constructor; trivial.
  apply Forall_map. exact Hall.
Qed.




End Sorting.

Module Select.

(** The elements of [a] at the true positions of [mask]. *)
Definition select {A : Type} (a : list A) (mask : list bool) : list A :=
  map fst (filter snd (combine a mask)).

Lemma compress_select (a : list float) (mask : list bool) :
  List.length a = List.length mask -> Np.compress a mask = Ok (select a mask).
Proof. apply NpFacts.compress_ok. Qed.

Lemma select_Forall {A : Type} (P : A -> Prop) (a : list A) (mask : list bool) :
  Forall P a -> Forall P (select a mask).
Proof.
  unfold select. intros H. revert mask.
  induction H as [|x a Hx Ha IH]; intros [|[|] mask]; cbn; try constructor; auto.
Qed.

Lemma select_sorted {A : Type} (R : A -> A -> Prop) (a : list A) (mask : list bool) :
  StronglySorted R a -> StronglySorted R (select a mask).
Proof.
  intros H. revert mask.
  induction H as [|x a Hs IH Hall]; intros [|[|] mask]; try constructor.
  - apply IH.
  - now apply (select_Forall (R x) a mask).
  - apply IH.
Qed.

Lemma select_length_same {A B : Type} (a : list A) (b : list B) (mask : list bool) :
  List.length a = List.length b ->
  List.length (select a mask) = List.length (select b mask).
Proof.
  unfold select. revert b mask.
  induction a as [|x a IH]; intros [|y b] [|[|] mask] E; try discriminate;
    cbn; auto.
Qed.


(** The elements kept by a mask computed from the array pass its test. *)
Lemma select_own_test (f : float -> bool) (a : list float) :
  Forall (fun x => f x = true) (select a (map f a)).
Proof.
  unfold select. induction a as [|x a IH]; cbn; [constructor|].
  destruct (f x) eqn:E; cbn; [constructor|]; assumption.
Qed.

Lemma select_pair_test_l (f g : float -> bool) (a b : list float) :
  List.length a = List.length b ->
  Forall (fun x => f x = true)
    (select a (map (fun p => f (fst p) && g (snd p)) (combine a b))).
Proof.
  unfold select. revert b.
  induction a as [|x a IH]; intros [|y b] E; try discriminate; cbn;
    [constructor|].
  destruct (f x) eqn:Ef; cbn; [destruct (g y); cbn; [constructor|]|];
    try assumption; apply IH; cbn in E; lia.
Qed.

End Select.

Section Preprocess.

Import Select.

Local Open Scope float_scope.

(** The mask [np.isfinite(time) & np.isfinite(flux)] on arrays of equal
    length. *)
Definition finite_mask (time flux : list float) : list bool :=
  map (fun p => fst p && snd p)
      (combine (map Np.isfinite time) (map Np.isfinite flux)).

(** Normalization by the median, then the clip at three standard
    deviations. *)
Definition normalize_and_clip (time flux : list float) : list float * list float :=
  let flux := map (fun x => x / Np.median flux) flux in
  let keep := map (fun x => abs (x - Np.median flux) <? 3 * Np.std flux) flux in
  (select time keep, select flux keep).

(** The preprocessor on arrays of equal length, without the error monad. *)
Definition clean (time flux : list float) : list float * list float :=
  let mask := finite_mask time flux in
  let time := select time mask in
  let flux := select flux mask in
  let sort_idx := Np.argsort time in
  normalize_and_clip (Np.take time sort_idx) (Np.take flux sort_idx).

Lemma finite_mask_length (time flux : list float) :
  List.length time = List.length flux ->
  List.length (finite_mask time flux) = List.length time.
Proof.
  intros E. unfold finite_mask.
  rewrite length_map, length_combine, !length_map. lia.
Qed.

Lemma take_length (a : list float) (idx : list nat) :
  List.length (Np.take a idx) = List.length idx.
Proof. apply length_map. Qed.

Lemma preprocess_same_length (time flux : list float) (r : list float * list float) :
  preprocess_lightcurve time flux = Ok r -> List.length time = List.length flux.
Proof.
  unfold preprocess_lightcurve.
  destruct (Np.broadcast _ _ _) as [mask|e]; cbn [Py.bind]; [|discriminate].
  destruct (Np.compress time mask) as [time1|e] eqn:H1; cbn [Py.bind];
    [|discriminate].
  destruct (Np.compress flux mask) as [flux1|e] eqn:H2; cbn [Py.bind];
    [|discriminate].
  intros _. apply NpFacts.compress_inv in H1, H2. destruct H1, H2. congruence.
Qed.

Lemma preprocess_value (time flux : list float) :
  List.length time = List.length flux ->
  preprocess_lightcurve time flux = Ok (clean time flux).
Proof.
  intros E. unfold preprocess_lightcurve, clean, normalize_and_clip.
  rewrite NpFacts.broadcast_same_length by (rewrite !length_map; exact E).
  fold (finite_mask time flux). cbn [Py.bind].
  rewrite !compress_select by (rewrite finite_mask_length; congruence).
  cbn [Py.bind].
  rewrite !compress_select by (rewrite !length_map, !take_length; reflexivity).
  reflexivity.
Qed.

Lemma finite_mask_select_l (time flux : list float) :
  List.length time = List.length flux ->
  Forall (fun x => is_finite x = true) (select time (finite_mask time flux)).
Proof.
  unfold select, finite_mask, Np.isfinite. revert flux.
  induction time as [|x time IH]; intros [|y flux] E; try discriminate; cbn;
    [constructor|].
  destruct (is_finite x) eqn:Ef; cbn; [destruct (is_finite y); cbn; [constructor|]|];
    try assumption; apply IH; cbn in E; lia.
Qed.


(** What the preprocessor returns: ascending finite times and finite
    fluxes, as many of the one as of the other. *)
Lemma clean_invariant (time flux : list float) :
  List.length time = List.length flux ->
  ascending (fst (clean time flux))
  /\ Forall (fun x => is_finite x = true) (fst (clean time flux))
  /\ Forall (fun x => is_finite x = true) (snd (clean time flux))
  /\ List.length (fst (clean time flux)) = List.length (snd (clean time flux)).
Proof.
  intros E. unfold clean, normalize_and_clip. cbn [fst snd].
  set (mask := finite_mask time flux).
  set (time1 := select time mask). set (flux1 := select flux mask).
  set (flux3 := map _ (Np.take flux1 (Np.argsort time1))).
  set (keep := map _ flux3).
  split; [|split; [|split]].
  - apply select_sorted. unfold Np.take, Np.argsort.
    apply Sorting.sorted_map, Sorting.sort_by_sorted.
  - apply select_Forall. unfold Np.take, Np.argsort. apply Forall_map.
    apply Sorting.sort_by_Forall. apply Forall_forall. intros i Hi.
    apply in_seq in Hi.
    pose proof (finite_mask_select_l time flux E) as Hfin.
    rewrite Forall_forall in Hfin. apply Hfin. apply nth_In.
    subst time1 mask. cbn in Hi. lia.
  - subst keep. eapply Forall_impl; [|apply select_own_test].
    cbn beta. intros x. apply Special.within_bound_finite.
  - apply select_length_same. subst flux3.
    now rewrite length_map, !take_length.
Qed.


End Preprocess.

(** ** Phase folding of a cleaned series *)

Section FoldPhase.

Local Open Scope float_scope.


End FoldPhase.

(** ** The BLS search *)

Module FoldM.

Lemma app {A B : Type} (f : A -> B -> res A) (l1 l2 : list B) (a : A) :
  foldM f (l1 ++ l2) a = Py.bind (foldM f l1 a) (foldM f l2).
Proof.
  revert a. induction l1 as [|x l1 IH]; intros a; cbn; [reflexivity|].
  destruct (f a x); cbn; [apply IH | reflexivity].
Qed.

Lemma map {A B C : Type} (f : A -> C -> res A) (k : B -> C) (l : list B) (a : A) :
  foldM f (List.map k l) a = foldM (fun a x => f a (k x)) l a.
Proof.
  revert a. induction l as [|x l IH]; intros a; cbn; [reflexivity|].
  destruct (f a (k x)); cbn; [apply IH | reflexivity].
Qed.

Lemma flat_map {A B C : Type} (f : A -> C -> res A) (k : B -> list C)
    (l : list B) (a : A) :
  foldM f (List.flat_map k l) a = foldM (fun a x => foldM f (k x) a) l a.
Proof.
  revert a. induction l as [|x l IH]; intros a; cbn; [reflexivity|].
  rewrite app. destruct (foldM f (k x) a); cbn; [apply IH | reflexivity].
Qed.

Lemma ext {A B : Type} (f g : A -> B -> res A) (l : list B) (a : A) :
  (forall a x, In x l -> f a x = g a x) -> foldM f l a = foldM g l a.
Proof.
  revert a. induction l as [|x l IH]; intros a H; cbn; [reflexivity|].
  rewrite H by (left; reflexivity).
  destruct (g a x); cbn; [|reflexivity].
  apply IH. intros; apply H; right; assumption.
Qed.

Lemma pure {A B : Type} (f : A -> B -> res A) (g : A -> B -> A) (l : list B) (a : A) :
  (forall a x, In x l -> f a x = Ok (g a x)) -> foldM f l a = Ok (fold_left g l a).
Proof.
  revert a. induction l as [|x l IH]; intros a H; cbn; [reflexivity|].
  rewrite H by (left; reflexivity). cbn.
  apply IH. intros; apply H; right; assumption.
Qed.

Lemma fixed {A B : Type} (f : A -> B -> res A) (l : list B) (a : A) :
  (forall x, In x l -> f a x = Ok a) -> foldM f l a = Ok a.
Proof.
  induction l as [|x l IH]; intros H; cbn; [reflexivity|].
  rewrite H by (left; reflexivity). cbn.
  apply IH. intros; apply H; right; assumption.
Qed.

End FoldM.

Section BlsSearch.

Context {ext : External}.
Variable self : RealExoplanetDetector.

Local Open Scope float_scope.

(** One step of the scan, on a grid point. *)
Definition grid_step (time flux : list float) (best : BLSResult) (g : grid_point)
    : res BLSResult :=
  let '(period, duration_frac, t0_frac) := g in
  bls_step (fold_phase time period) flux period duration_frac best t0_frac.

(** The three nested loops are one loop over the grid in scan order. *)
Lemma bls_scan_flat (periods time flux : list float) (best : BLSResult) :
  bls_scan periods time flux best
  = foldM (grid_step time flux) (grid_of periods) best.
Proof.
  unfold bls_scan, grid_of.
  rewrite FoldM.flat_map. apply FoldM.ext. intros b period _.
  rewrite FoldM.flat_map. apply FoldM.ext. intros b' d _.
  rewrite FoldM.map. reflexivity.
Qed.

Lemma in_grid_of (periods : list float) (g : grid_point) :
  In g (grid_of periods) <->
  In (fst (fst g)) periods /\ In (snd (fst g)) duration_grid /\ In (snd g) t0_grid.
Proof.
  unfold grid_of. rewrite in_flat_map. split.
  - intros (P & HP & H). apply in_flat_map in H. destruct H as (d & Hd & H).
    apply in_map_iff in H. destruct H as (t & <- & Ht). cbn [fst snd]. auto.
  - destruct g as [[P d] t]. cbn [fst snd]. intros (HP & Hd & Ht).
    exists P. split; [assumption|]. apply in_flat_map.
    exists d. split; [assumption|]. apply in_map_iff. exists t. auto.
Qed.

(** When no grid point has a positive power, the search returns the value
    it started from. *)
Lemma bls_scan_fallback (periods time flux : list float) :
  (forall P d t0, In P periods -> In d duration_grid -> In t0 t0_grid ->
     _calculate_bls_power (fold_phase time P) flux t0 d = Ok 0) ->
  bls_scan periods time flux fallback = Ok fallback.
Proof.
  intros H. rewrite bls_scan_flat. apply FoldM.fixed.
  intros [[P d] t] Hg. apply in_grid_of in Hg. cbn [fst snd] in Hg.
  destruct Hg as (HP & Hd & Ht).
  unfold grid_step, bls_step. rewrite (H P d t HP Hd Ht). reflexivity.
Qed.

(** The scan step without the error monad. *)
Definition take_better (time flux : list float) (best : BLSResult) (g : grid_point)
    : BLSResult :=
  if bls_power best <? power_at time flux g then candidate time flux g else best.

Lemma fold_phase_length (time : list float) (period : float) :
  List.length (fold_phase time period) = List.length time.
Proof. unfold fold_phase. apply length_map. Qed.

Lemma grid_step_value (time flux : list float) (best : BLSResult) (g : grid_point) :
  List.length time = List.length flux ->
  grid_step time flux best g = Ok (take_better time flux best g).
Proof.
  intros E. destruct g as [[P d] t]. unfold grid_step, bls_step, take_better.
  rewrite bls_power_value by (rewrite fold_phase_length; exact E).
  reflexivity.
Qed.







Lemma foldM_invariant {A B : Type} (Inv : A -> Prop) (f : A -> B -> res A)
    (l : list B) (a r : A) :
  (forall a x a', Inv a -> f a x = Ok a' -> Inv a') ->
  Inv a -> foldM f l a = Ok r -> Inv r.
Proof.
  intros Hstep. revert a. induction l as [|x l IH]; intros a Ha; cbn.
  - intros H. inversion H. now subst.
  - destruct (f a x) as [a'|e] eqn:E; cbn; [|discriminate].
    apply IH. eapply Hstep; eassumption.
Qed.

(** The power the search returns is a number and is not negative,
    whatever the arrays. *)
Lemma box_least_squares_nonneg (time flux : list float) (r : BLSResult) :
  box_least_squares self time flux = Ok r -> (0 <=? bls_power r) = true.
Proof.
  unfold box_least_squares. rewrite bls_scan_flat.
  apply (foldM_invariant (fun b => (0 <=? bls_power b) = true));
    [|reflexivity].
  intros b [[P d] t] b' Hb. unfold grid_step, bls_step.
  destruct (_calculate_bls_power _ _ _ _) as [p|e]; cbn; [|discriminate].
  intros H. inversion H. subst b'.
  destruct (bls_power b <? p) eqn:Cmp; [|exact Hb].
  cbn. apply F.ltb_leb. eapply F.leb_ltb_trans; eassumption.
Qed.

Lemma box_least_squares_value (time flux : list float) :
  List.length time = List.length flux ->
  box_least_squares self time flux
  = Ok (fold_left (take_better time flux) (bls_grid self) fallback).
Proof.
  intros E. unfold box_least_squares. fold fallback. rewrite bls_scan_flat.
  apply FoldM.pure. intros b g _. now apply grid_step_value.
Qed.



End BlsSearch.

(** *** Constant flux *)

Section ConstantFlux.

Local Open Scope float_scope.

Lemma compress_repeat (c : float) (mask : list bool) :
  map fst (filter snd (combine (repeat c (List.length mask)) mask))
  = repeat c (Np.count_nonzero mask).
Proof.
  unfold Np.count_nonzero.
  induction mask as [|[|] mask IH]; cbn; [reflexivity | | exact IH].
  f_equal. exact IH.
Qed.

Lemma count_nonzero_le (mask : list bool) :
  (Np.count_nonzero mask <= List.length mask)%nat.
Proof. unfold Np.count_nonzero. apply filter_length_le. Qed.

(** A flux whose every sub-array has spread 0 gives every grid point the
    power 0. *)
Lemma constant_flux_power_zero (c : float) (n : nat) (phase : list float)
    (t0_frac d : float) :
  (forall k, (1 <= k <= n)%nat -> (Np.std (repeat c k) =? 0) = true) ->
  List.length phase = n ->
  _calculate_bls_power phase (repeat c n) t0_frac d = Ok 0.
Proof.
  intros Hstd E. unfold _calculate_bls_power.
  set (mask := map (fun p => abs (p - t0_frac) <? d / 2) phase).
  assert (Lm : List.length mask = n) by (subst mask; now rewrite length_map).
  destruct (Np.count_nonzero mask <? 3)%nat; [reflexivity|].
  rewrite !NpFacts.compress_ok
    by (rewrite repeat_length, ?length_map; congruence).
  cbn [Py.bind].
  destruct ((Np.count_nonzero mask =? 0)%nat
            || (Np.count_nonzero (map negb mask) =? 0)%nat) eqn:Z;
    [reflexivity|].
  apply orb_false_iff in Z. destruct Z as [_ Z]. apply Nat.eqb_neq in Z.
  assert (Lm' : List.length (map negb mask) = n) by now rewrite length_map.
  assert (Hout : map fst (filter snd (combine (repeat c n) (map negb mask)))
                 = repeat c (Np.count_nonzero (map negb mask)))
    by (rewrite <- Lm' at 1; apply compress_repeat).
  rewrite Hout, Hstd; [reflexivity|].
  pose proof (count_nonzero_le (map negb mask)). lia.
Qed.

End ConstantFlux.

(** ** The transit fit and the significance evaluator *)

Section FitAndSignificance.

Context {ext : External}.
Variable self : RealExoplanetDetector.

Local Open Scope float_scope.

Lemma fit_attempt_inv (time flux : list float) (x0 : params) (fit : TransitFit) :
  fit_attempt self time flux x0 = Ok fit ->
  exists p residuals,
    minimize (chi_squared self time flux) x0 = Ok p
    /\ Np.broadcast sub flux (transit_model time p) = Ok residuals
    /\ fit_model_flux fit = transit_model time p
    /\ (fit_depth fit, fit_period fit, fit_t0 fit, fit_duration fit) = p
    /\ fit_chi2 fit = sum_squares residuals
    /\ fit_reduced_chi2 fit
       = sum_squares residuals / float_of_Z (Z.of_nat (List.length flux) - 4).
Proof.
  unfold fit_attempt.
  destruct (minimize _ x0) as [[[[depth period] t0] duration]|e];
    cbn [Py.bind]; [|discriminate].
  destruct (Np.broadcast sub flux _) as [residuals|e] eqn:Hres;
    cbn [Py.bind]; [|discriminate].
  intros H. inversion H. subst. cbn.
  exists (depth, period, t0, duration), residuals. repeat split; trivial.
Qed.

Lemma transit_model_length (time : list float) (p : params) :
  List.length (transit_model time p) = List.length time.
Proof.
  destruct p as [[[depth period] t0] duration]. unfold transit_model.
  now rewrite !length_map, fold_phase_length, length_map.
Qed.

(** C3 (amended).  A successful fit returns [chi2], the sum of the
    squared residuals, and [reduced_chi2 = chi2 / (N - 4)] in floating
    point, for every number N of flux points: with N = 4 the quotient is
    an infinity or NaN, not an error.  On a series of any length N >= 1 the
    fit succeeds whenever the optimizer returns; no check on N makes it
    fail. *)
Theorem fit_reduced_chi2_division (time flux : list float)
    (period t0 duration : float) :
  (forall fit,
     fit_transit_model self time flux period t0 duration = Ok (Some fit) ->
     exists residuals,
       Np.broadcast sub flux (fit_model_flux fit) = Ok residuals
       /\ fit_chi2 fit = sum_squares residuals
       /\ fit_reduced_chi2 fit
          = fit_chi2 fit / float_of_Z (Z.of_nat (List.length flux) - 4)
       /\ (List.length flux = 4%nat -> is_finite (fit_reduced_chi2 fit) = false))
  /\ (forall lowest p,
        List.length time = List.length flux ->
        Np.amin flux = Ok lowest ->
        minimize (chi_squared self time flux)
          (py_max 0.001 (1 - lowest), period, t0, duration) = Ok p ->
        exists fit,
          fit_transit_model self time flux period t0 duration = Ok (Some fit)
          /\ (fit_depth fit, fit_period fit, fit_t0 fit, fit_duration fit) = p).
Proof.
  split.
  - intros fit. unfold fit_transit_model.
    destruct (Np.amin flux) as [lowest|e]; cbn [Py.bind]; [|discriminate].
    destruct (fit_attempt _ _ _ _) as [fit'|e] eqn:Hfit; [|discriminate].
    intros H. inversion H. subst fit'.
    apply fit_attempt_inv in Hfit.
    destruct Hfit as (p & residuals & _ & Hres & Hmodel & _ & Hchi & Hred).
    exists residuals. rewrite Hmodel, Hchi, Hred. repeat split; trivial.
    intros HN. rewrite HN. apply Special.div_by_zero_not_finite. reflexivity.
  - intros lowest p E Hlow Hmin. unfold fit_transit_model, fit_attempt.
    rewrite Hlow. cbn [Py.bind]. rewrite Hmin. cbn [Py.bind].
    destruct p as [[[depth period'] t0'] duration'].
    rewrite NpFacts.broadcast_same_length by (rewrite transit_model_length; congruence).
    cbn [Py.bind]. eexists. split; reflexivity.
Qed.

(** C4 (amended).  For a flux series and a model series of the same
    positive length the evaluator returns a result whose [snr] is
    [(max(model) - min(model)) / std(flux - model)] rounded to two
    decimals; when [std(flux - model)] is 0 it still returns a result,
    whose [snr] is an infinity or NaN. *)
Theorem significance_snr (time flux model_flux : list float) :
  List.length flux = List.length model_flux ->
  model_flux <> [] ->
  exists highest lowest significance,
    Np.amax model_flux = Ok highest
    /\ Np.amin model_flux = Ok lowest
    /\ calculate_detection_significance time flux model_flux = Ok significance
    /\ snr significance
       = Np.round
           ((highest - lowest)
            / Np.std (map (fun p => fst p - snd p) (combine flux model_flux)))
           2
    /\ ((Np.std (map (fun p => fst p - snd p) (combine flux model_flux)) =? 0)
        = true ->
        is_finite (snr significance) = false).
Proof.
  intros E Hne. unfold calculate_detection_significance.
  rewrite NpFacts.broadcast_same_length by exact E. cbn [Py.bind].
  destruct model_flux as [|m rest]; [contradiction|].
  cbn [Np.amax Np.amin Py.bind].
  do 3 eexists. split; [reflexivity|]. split; [reflexivity|].
  split; [reflexivity|]. cbn [snr]. split; [reflexivity|].
  intros Hz. apply Special.round_by_zero_not_finite; [lia | exact Hz].
Qed.

End FitAndSignificance.

(** ** The pipeline *)

(** Example inputs: a header line and one hundred rows at times 0 .. 99. *)
Module Examples.

Local Open Scope float_scope.

Definition header : string := "time,flux".

Definition rows (flux_at : nat -> float) : list (float * float) :=
  map (fun i => (float_of_nat i, flux_at i)) (seq 0 100).

(** The same brightness in every row. *)
Definition constant_rows : list (float * float) := rows (fun _ => 1).

(** The same brightness in every row but one, which is twice as bright. *)
Definition outlier_rows : list (float * float) :=
  rows (fun i => if (i =? 50)%nat then 2 else 1).

Definition outlier_times : list float :=
  map float_of_nat (seq 0 50 ++ seq 51 49).



End Examples.

Section Pipeline.

Context {ext : External}.

Local Open Scope string_scope.
Local Open Scope float_scope.

Definition header_ok (header : string) : Prop :=
  contains "time" (lower header) = true /\ contains "flux" (lower header) = true.

(** The input reaches the BLS search with the cleaned series [(time, flux)]. *)
Definition cleaned_to (header : string) (data : list (float * float))
    (time flux : list float) : Prop :=
  header_ok header
  /\ (100 <= List.length data)%nat
  /\ preprocess_lightcurve (map fst data) (map snd data) = Ok (time, flux)
  /\ (50 <= List.length time)%nat.

(** Every grid point has the power 0 on [(time, flux)]. *)
Definition all_powers_zero (self : RealExoplanetDetector) (time flux : list float)
    : Prop :=
  forall P d t0,
    In P (period_grid self) -> In d duration_grid -> In t0 t0_grid ->
    _calculate_bls_power (fold_phase time P) flux t0 d = Ok 0.

Variable self : RealExoplanetDetector.

(** The three shapes of a result that is not an error. *)
Definition no_signal_result (bls_result : BLSResult) : value :=
  PyDict
    [("planet_detected", PyBool false);
     ("confidence", PyFloat 15.0);
     ("analysis", PyDict
        [("bls_power", PyFloat (Np.round (bls_power bls_result) 2));
         ("best_period", PyFloat (Np.round (bls_period bls_result) 3));
         ("message", PyStr "No significant periodic signal detected")])].

Definition fit_failed_result : value :=
  PyDict
    [("planet_detected", PyBool false);
     ("confidence", PyFloat 25.0);
     ("analysis", PyDict [("message", PyStr "Transit model fitting failed")])].

Definition accepted (significance : Significance) : bool :=
  ((5.0 <? snr significance) && (70 <? confidence_percent significance))%float.

Definition fitted_result (bls_result : BLSResult) (transit_fit : TransitFit)
    (significance : Significance) : value :=
  PyDict
    [("planet_detected", PyBool (accepted significance));
     ("confidence", PyFloat (confidence_percent significance));
     ("analysis", PyDict
        [("bls_power", PyFloat (Np.round (bls_power bls_result) 2));
         ("signal_to_noise", PyFloat (snr significance));
         ("detection_significance",
          PyFloat (detection_significance_sigma significance));
         ("false_alarm_probability",
          PyFloat (false_alarm_probability significance))]);
     ("planet_properties",
      if accepted significance
      then calculate_planet_properties
             (fit_depth transit_fit) (fit_period transit_fit) 1.0
      else PyNone);
     ("transit_parameters",
      if accepted significance
      then PyDict
        [("depth_ppm", PyFloat (Np.round (fit_depth transit_fit * 1e6) 1));
         ("period_days", PyFloat (Np.round (fit_period transit_fit) 3));
         ("duration_hours", PyFloat (Np.round (fit_duration transit_fit * 24) 2));
         ("reduced_chi_squared",
          PyFloat (Np.round (fit_reduced_chi2 transit_fit) 3))]
      else PyNone)].

Definition failed_result (e : exn) : value :=
  error_result ("Analysis failed: " ++ str e).

(** The run from the BLS search on, for a cleaned series that passed the
    50-point floor. *)
Definition run_from_search (time flux : list float) : list call * value :=
  match box_least_squares self time flux with
  | Raise e =>
      ([call_preprocess_lightcurve; call_box_least_squares], failed_result e)
  | Ok bls =>
      if (bls_power bls <? detection_threshold self)%float
      then ([call_preprocess_lightcurve; call_box_least_squares],
            no_signal_result bls)
      else
        match fit_transit_model self time flux
                (bls_period bls) (bls_t0 bls) (bls_duration bls) with
        | Raise e =>
            ([call_preprocess_lightcurve; call_box_least_squares;
              call_fit_transit_model], failed_result e)
        | Ok None =>
            ([call_preprocess_lightcurve; call_box_least_squares;
              call_fit_transit_model], fit_failed_result)
        | Ok (Some fit) =>
            match calculate_detection_significance time flux
                    (fit_model_flux fit) with
            | Raise e =>
                ([call_preprocess_lightcurve; call_box_least_squares;
                  call_fit_transit_model; call_calculate_planet_properties;
                  call_calculate_detection_significance], failed_result e)
            | Ok significance =>
                ([call_preprocess_lightcurve; call_box_least_squares;
                  call_fit_transit_model; call_calculate_planet_properties;
                  call_calculate_detection_significance],
                 fitted_result bls fit significance)
            end
        end
  end.

(** The run up to the search: the header, the 100-row floor, the
    preprocessor and the 50-point floor. *)
Definition run_to_search (header : string) (data : list (float * float))
    : list call * value :=
  if contains "time" (lower header) && contains "flux" (lower header) then
    if (List.length data <? 100)%nat
    then ([], error_result "Insufficient data points. Need at least 100 measurements.")
    else
      match preprocess_lightcurve (map fst data) (map snd data) with
      | Raise e => ([call_preprocess_lightcurve], failed_result e)
      | Ok (time, flux) =>
          if (List.length time <? 50)%nat
          then ([call_preprocess_lightcurve],
                error_result "Too few valid data points after preprocessing")
          else run_from_search time flux
      end
  else
    ([], error_result
           ("CSV must contain " ++ dquote ++ "time" ++ dquote
            ++ " and " ++ dquote ++ "flux" ++ dquote ++ " columns")).

(** [analyze_lightcurve], stage by stage. *)
Lemma analyze_lightcurve_stages (header : string) (data : list (float * float)) :
  analyze_lightcurve self header data = run_to_search header data.
Proof.
  unfold analyze_lightcurve, analyze_body, run_to_search, run_from_search,
    tbind, invoke, tret.
  destruct (contains "time" (lower header) && contains "flux" (lower header));
    [|reflexivity].
  destruct (List.length data <? 100)%nat; [reflexivity|].
  destruct (preprocess_lightcurve _ _) as [[time flux]|e]; [|reflexivity].
  destruct (List.length time <? 50)%nat; [reflexivity|].
  destruct (box_least_squares self time flux) as [bls|e]; [|reflexivity].
  destruct (bls_power bls <? detection_threshold self)%float; [reflexivity|].
  destruct (fit_transit_model _ _ _ _ _ _) as [[fit|]|e]; try reflexivity.
  destruct (calculate_detection_significance _ _ _); reflexivity.
Qed.

Lemma analyze_cleaned (header : string) (data : list (float * float))
    (time flux : list float) :
  cleaned_to header data time flux ->
  analyze_lightcurve self header data = run_from_search time flux.
Proof.
  intros ((Hh1 & Hh2) & Hn & Hpre & Hm).
  rewrite analyze_lightcurve_stages. unfold run_to_search.
  rewrite Hh1, Hh2. cbn [andb].
  rewrite (proj2 (Nat.ltb_ge _ _) Hn), Hpre, (proj2 (Nat.ltb_ge _ _) Hm).
  reflexivity.
Qed.

(** C6 (amended).  When the cleaned series has fewer than 50 points the
    pipeline returns an error result and never calls the BLS search.  The
    message is "Too few valid data points after preprocessing" when at
    least 100 rows were parsed under a header naming time and flux;
    "Insufficient data points. Need at least 100 measurements." is the
    message for fewer than 100 parsed rows. *)
Theorem too_few_points_error (header : string) (data : list (float * float))
    (time flux : list float) :
  preprocess_lightcurve (map fst data) (map snd data) = Ok (time, flux) ->
  (List.length time < 50)%nat ->
  ~ In call_box_least_squares (fst (analyze_lightcurve self header data))
  /\ snd (analyze_lightcurve self header data)
     = error_result
         (if negb (contains "time" (lower header) && contains "flux" (lower header))
          then "CSV must contain " ++ dquote ++ "time" ++ dquote
               ++ " and " ++ dquote ++ "flux" ++ dquote ++ " columns"
          else if (List.length data <? 100)%nat
          then "Insufficient data points. Need at least 100 measurements."
          else "Too few valid data points after preprocessing").
Proof.
  intros Hpre Hlen. rewrite analyze_lightcurve_stages. unfold run_to_search.
  destruct (contains "time" (lower header) && contains "flux" (lower header));
    cbn [negb]; [|split; [intros []|reflexivity]].
  destruct (List.length data <? 100)%nat; [split; [intros []|reflexivity]|].
  rewrite Hpre, (proj2 (Nat.ltb_lt _ _) Hlen).
  split; [|reflexivity].
  cbn. intros [H|[]]. discriminate H.
Qed.



Lemma fitted_result_properties (bls : BLSResult) (fit : TransitFit)
    (significance : Significance) :
  get "planet_detected" (fitted_result bls fit significance)
  = Some (PyBool (accepted significance))
  /\ get "planet_properties" (fitted_result bls fit significance)
     = Some (if accepted significance
             then calculate_planet_properties (fit_depth fit) (fit_period fit) 1.0
             else PyNone).
Proof. split; reflexivity. Qed.



End Pipeline.

Section DefaultPipeline.

Context {ext : External}.

Local Open Scope string_scope.
Local Open Scope float_scope.

(** C10.  If every grid combination yields the power 0, the search
    returns the fallback candidate with period, power, t0 and duration 0,
    whose period lies below [min_period]; and the pipeline, when the
    cleaned series it searches is such a series, rejects with confidence
    15.0 and reports [best_period] 0. *)
Theorem all_zero_power_fallback (header : string) (data : list (float * float))
    (time flux : list float) :
  all_powers_zero init time flux ->
  box_least_squares init time flux
  = Ok {| bls_period := 0; bls_power := 0; bls_t0 := 0; bls_duration := 0 |}
  /\ (0 <? min_period init)%float = true
  /\ (cleaned_to header data time flux ->
      analyze_lightcurve init header data
      = ([call_preprocess_lightcurve; call_box_least_squares],
         PyDict
           [("planet_detected", PyBool false);
            ("confidence", PyFloat 15.0);
            ("analysis", PyDict
               [("bls_power", PyFloat 0);
                ("best_period", PyFloat 0);
                ("message", PyStr "No significant periodic signal detected")])])).
Proof.
  intros Hzero.
  assert (Hbls : box_least_squares init time flux = Ok fallback)
    by (apply bls_scan_fallback; exact Hzero).
  split; [exact Hbls|]. split; [reflexivity|].
  intros Hc. rewrite (analyze_cleaned init _ _ _ _ Hc).
  unfold run_from_search. rewrite Hbls. reflexivity.
Qed.

(** The first gate: a power that fails [power < threshold] reaches it. *)
Lemma bls_gate (time flux : list float) (bls : BLSResult) :
  box_least_squares init time flux = Ok bls ->
  (bls_power bls <? detection_threshold init)
  = negb (detection_threshold init <=? bls_power bls).
Proof.
  intros Hbls. apply box_least_squares_nonneg in Hbls.
  apply F.leb_is_nan_r in Hbls.
  destruct (detection_threshold init <=? bls_power bls) eqn:Hle; cbn [negb].
  - now apply F.leb_not_ltb.
  - destruct (bls_power bls <? detection_threshold init) eqn:Hlt; [reflexivity|].
    apply F.not_ltb_leb in Hlt; [congruence | exact Hbls | reflexivity].
Qed.

(** C1.  For an input that passes preprocessing, [planet_detected] is
    true exactly when the BLS power reaches the detection threshold 7.0,
    the transit fit succeeds, and the significance stage yields
    [snr > 5.0] and [confidence_percent > 70].  When the BLS gate fails
    the result has [planet_detected] false, confidence 15.0 and the
    message that no significant periodic signal was detected; when the
    fit fails it has [planet_detected] false and confidence 25.0. *)
Theorem detection_gates (header : string) (data : list (float * float))
    (time flux : list float) :
  cleaned_to header data time flux ->
  (get "planet_detected" (snd (analyze_lightcurve init header data))
   = Some (PyBool true)
   <->
   exists bls fit significance,
     box_least_squares init time flux = Ok bls
     /\ (detection_threshold init <=? bls_power bls) = true
     /\ fit_transit_model init time flux
          (bls_period bls) (bls_t0 bls) (bls_duration bls) = Ok (Some fit)
     /\ calculate_detection_significance time flux (fit_model_flux fit)
        = Ok significance
     /\ (5.0 <? snr significance) = true
     /\ (70 <? confidence_percent significance) = true)
  /\ (forall bls,
        box_least_squares init time flux = Ok bls ->
        (detection_threshold init <=? bls_power bls) = false ->
        snd (analyze_lightcurve init header data)
        = PyDict
            [("planet_detected", PyBool false);
             ("confidence", PyFloat 15.0);
             ("analysis", PyDict
                [("bls_power", PyFloat (Np.round (bls_power bls) 2));
                 ("best_period", PyFloat (Np.round (bls_period bls) 3));
                 ("message", PyStr "No significant periodic signal detected")])])
  /\ (forall bls,
        box_least_squares init time flux = Ok bls ->
        (detection_threshold init <=? bls_power bls) = true ->
        fit_transit_model init time flux
          (bls_period bls) (bls_t0 bls) (bls_duration bls) = Ok None ->
        snd (analyze_lightcurve init header data)
        = PyDict
            [("planet_detected", PyBool false);
             ("confidence", PyFloat 25.0);
             ("analysis", PyDict
                [("message", PyStr "Transit model fitting failed")])]).
Proof.
  intros Hc. rewrite (analyze_cleaned init _ _ _ _ Hc).
  unfold run_from_search. split; [|split].
  - destruct (box_least_squares init time flux) as [bls|e] eqn:Hbls.
    2:{ cbn. split; [discriminate | intros (? & ? & ? & ? & _); discriminate]. }
    rewrite (bls_gate _ _ _ Hbls).
    destruct (detection_threshold init <=? bls_power bls) eqn:Hgate; cbn [negb].
    2:{ split; [cbn; discriminate|].
        intros (b & ? & ? & Hb & Hg & _). inversion Hb; subst. congruence. }
    destruct (fit_transit_model _ _ _ _ _ _) as [[fit|]|e] eqn:Hfit.
    2,3: (split; [cbn; discriminate|];
          intros (b & ? & ? & Hb & _ & Hf & _); inversion Hb; subst; congruence).
    destruct (calculate_detection_significance _ _ _) as [sig|e] eqn:Hsig.
    2:{ split; [cbn; discriminate|].
        intros (b & f & ? & Hb & _ & Hf & Hs & _). inversion Hb; subst.
        rewrite Hfit in Hf. inversion Hf; subst. congruence. }
    cbn [snd]. destruct (fitted_result_properties bls fit sig) as [-> _].
    unfold accepted. split.
    + intros H. inversion H as [H']. apply andb_prop in H'.
      destruct H' as [H5 H70]. rewrite H5, H70.
      exists bls, fit, sig. repeat split; trivial.
    + intros (b & f & s & Hb & _ & Hf & Hs & H5 & H70).
      inversion Hb; subst. rewrite Hfit in Hf. inversion Hf; subst.
      rewrite Hsig in Hs. inversion Hs; subst. now rewrite H5, H70.
  - intros bls Hbls Hgate. rewrite Hbls, (bls_gate _ _ _ Hbls), Hgate.
    reflexivity.
  - intros bls Hbls Hgate Hfit.
    rewrite Hbls, (bls_gate _ _ _ Hbls), Hgate. cbn [negb].
    rewrite Hfit. reflexivity.
Qed.

End DefaultPipeline.


(** ** Concrete runs *)

Section Runs.

Local Open Scope string_scope.
Local Open Scope float_scope.

#[local] Existing Instance Standin.external.

(** A constant array of up to one hundred ones has spread 0. *)
Lemma std_ones (k : nat) :
  (1 <= k <= 100)%nat -> (Np.std (repeat 1%float k) =? 0)%float = true.
Proof.
  intros Hk.
  assert (H : forallb (fun k => (Np.std (repeat 1%float k) =? 0)%float)
                      (seq 1 100) = true) by (vm_compute; reflexivity).
  rewrite forallb_forall in H. apply H. apply in_seq. lia.
Qed.

Lemma outlier_rows_cleaned :
  preprocess_lightcurve (map fst Examples.outlier_rows) (map snd Examples.outlier_rows)
  = Ok (Examples.outlier_times, repeat 1%float 99).
Proof. vm_compute. reflexivity. Qed.

Lemma outlier_rows_all_zero :
  all_powers_zero (ext := Standin.external) init
    Examples.outlier_times (repeat 1%float 99).
Proof.
  intros P d t0 _ _ _. apply constant_flux_power_zero.
  - intros k Hk. apply std_ones. lia.
  - rewrite fold_phase_length. reflexivity.
Qed.

(** The theorem on one hundred rows of brightness 1 with one outlier: the
    cleaned series is constant. *)
Lemma all_zero_power_fallback_witness :
  all_powers_zero (ext := Standin.external) init
    Examples.outlier_times (repeat 1%float 99)
  /\ cleaned_to Examples.header Examples.outlier_rows
       Examples.outlier_times (repeat 1%float 99)
  /\ box_least_squares (ext := Standin.external) init
       Examples.outlier_times (repeat 1%float 99)
     = Ok {| bls_period := 0; bls_power := 0; bls_t0 := 0; bls_duration := 0 |}
  /\ analyze_lightcurve (ext := Standin.external) init
       Examples.header Examples.outlier_rows
     = ([call_preprocess_lightcurve; call_box_least_squares],
        PyDict
          [("planet_detected", PyBool false);
           ("confidence", PyFloat 15.0);
           ("analysis", PyDict
              [("bls_power", PyFloat 0);
               ("best_period", PyFloat 0);
               ("message", PyStr "No significant periodic signal detected")])])%string.
Proof.
  assert (Hc : cleaned_to Examples.header Examples.outlier_rows
                 Examples.outlier_times (repeat 1%float 99)).
  { split; [split; reflexivity|]. split; [cbn; lia|].
    split; [exact outlier_rows_cleaned | cbn; lia]. }
  destruct (all_zero_power_fallback (ext := Standin.external)
              Examples.header Examples.outlier_rows
              Examples.outlier_times (repeat 1%float 99) outlier_rows_all_zero)
    as (Hbls & _ & Hrun).
  split; [exact outlier_rows_all_zero|]. split; [exact Hc|].
  split; [exact Hbls | exact (Hrun Hc)].
Defined.



Lemma outlier_rows_reach_search :
  cleaned_to Examples.header Examples.outlier_rows
    Examples.outlier_times (repeat 1 99).
Proof.
  split; [split; reflexivity|]. split; [cbn; lia|].
  split; [exact outlier_rows_cleaned | cbn; lia].
Qed.

(** The theorem on the rows with one outlier. *)
Lemma detection_gates_witness :
  cleaned_to Examples.header Examples.outlier_rows
    Examples.outlier_times (repeat 1 99)
  /\ (get "planet_detected"
        (snd (analyze_lightcurve init Examples.header Examples.outlier_rows))
      = Some (PyBool true)
      <->
      exists bls fit significance,
        box_least_squares init Examples.outlier_times (repeat 1 99) = Ok bls
        /\ (detection_threshold init <=? bls_power bls) = true
        /\ fit_transit_model init Examples.outlier_times (repeat 1 99)
             (bls_period bls) (bls_t0 bls) (bls_duration bls) = Ok (Some fit)
        /\ calculate_detection_significance Examples.outlier_times (repeat 1 99)
             (fit_model_flux fit)
           = Ok significance
        /\ (5.0 <? snr significance) = true
        /\ (70 <? confidence_percent significance) = true)
  /\ (forall bls,
        box_least_squares init Examples.outlier_times (repeat 1 99) = Ok bls ->
        (detection_threshold init <=? bls_power bls) = false ->
        snd (analyze_lightcurve init Examples.header Examples.outlier_rows)
        = PyDict
            [("planet_detected", PyBool false);
             ("confidence", PyFloat 15.0);
             ("analysis", PyDict
                [("bls_power", PyFloat (Np.round (bls_power bls) 2));
                 ("best_period", PyFloat (Np.round (bls_period bls) 3));
                 ("message", PyStr "No significant periodic signal detected")])])
  /\ (forall bls,
        box_least_squares init Examples.outlier_times (repeat 1 99) = Ok bls ->
        (detection_threshold init <=? bls_power bls) = true ->
        fit_transit_model init Examples.outlier_times (repeat 1 99)
          (bls_period bls) (bls_t0 bls) (bls_duration bls) = Ok None ->
        snd (analyze_lightcurve init Examples.header Examples.outlier_rows)
        = PyDict
            [("planet_detected", PyBool false);
             ("confidence", PyFloat 25.0);
             ("analysis", PyDict
                [("message", PyStr "Transit model fitting failed")])]).
Proof.
  split; [exact outlier_rows_reach_search|].
  exact (detection_gates Examples.header Examples.outlier_rows
           Examples.outlier_times (repeat 1 99) outlier_rows_reach_search).
Defined.

(** One hundred rows of the same brightness: the clip at three standard
    deviations, which is 0, removes every point, and the message is not
    the one for too few rows. *)
Lemma too_few_points_message_counterexample :
  preprocess_lightcurve (map fst Examples.constant_rows)
    (map snd Examples.constant_rows) = Ok ([], [])
  /\ analyze_lightcurve init Examples.header Examples.constant_rows
     = ([call_preprocess_lightcurve],
        error_result "Too few valid data points after preprocessing")
  /\ String.prefix "Insufficient data points"
       "Too few valid data points after preprocessing" = false.
Proof. repeat split; vm_compute; reflexivity. Qed.

(** The theorem on the one hundred rows of the same brightness. *)
Lemma too_few_points_error_witness :
  preprocess_lightcurve (map fst Examples.constant_rows)
    (map snd Examples.constant_rows) = Ok ([], [])
  /\ (List.length (@nil float) < 50)%nat
  /\ ~ In call_box_least_squares
       (fst (analyze_lightcurve init Examples.header Examples.constant_rows))
  /\ snd (analyze_lightcurve init Examples.header Examples.constant_rows)
     = error_result
         (if negb (contains "time" (lower Examples.header)
                   && contains "flux" (lower Examples.header))
          then "CSV must contain " ++ dquote ++ "time" ++ dquote
               ++ " and " ++ dquote ++ "flux" ++ dquote ++ " columns"
          else if (List.length Examples.constant_rows <? 100)%nat
          then "Insufficient data points. Need at least 100 measurements."
          else "Too few valid data points after preprocessing").
Proof.
  assert (Hpre : preprocess_lightcurve (map fst Examples.constant_rows)
                   (map snd Examples.constant_rows) = Ok ([], []))
    by (vm_compute; reflexivity).
  assert (Hlen : (List.length (@nil float) < 50)%nat) by (cbn; lia).
  split; [exact Hpre|]. split; [exact Hlen|].
  exact (too_few_points_error init Examples.header Examples.constant_rows
           [] [] Hpre Hlen).
Defined.

(** *** The preprocessor applied twice *)



(** *** The fit and the significance evaluator on short series *)

(** Four flux points: the fit returns, and its [reduced_chi2] is the
    quotient of a positive [chi2] by 0. *)
Lemma fit_four_points_counterexample :
  exists fit,
    fit_transit_model init [0; 1; 2; 3] [1; 1; 1; 0.9] 1 0 0.1 = Ok (Some fit)
    /\ fit_chi2 fit = 0.009999999999999995
    /\ fit_reduced_chi2 fit = infinity.
Proof. eexists. repeat split; vm_compute; reflexivity. Qed.

(** A model equal to the flux: the residuals have spread 0 and the
    evaluator returns an infinite [snr] with confidence 100. *)
Lemma significance_zero_noise_counterexample :
  exists significance,
    calculate_detection_significance [0; 1] [1; 0.9] [1; 0.9] = Ok significance
    /\ snr significance = infinity
    /\ confidence_percent significance = 100.
Proof. eexists. repeat split; vm_compute; reflexivity. Qed.

(** The theorem on three points. *)
Lemma significance_snr_witness :
  let time := [0; 1; 2] in
  let flux := [1; 0.9; 1] in
  let model_flux := [1; 0.95; 1] in
  List.length flux = List.length model_flux
  /\ model_flux <> []
  /\ exists highest lowest significance,
    Np.amax model_flux = Ok highest
    /\ Np.amin model_flux = Ok lowest
    /\ calculate_detection_significance time flux model_flux = Ok significance
    /\ snr significance
       = Np.round
           ((highest - lowest)
            / Np.std (map (fun p => fst p - snd p) (combine flux model_flux)))
           2
    /\ ((Np.std (map (fun p => fst p - snd p) (combine flux model_flux)) =? 0)
        = true ->
        is_finite (snr significance) = false).
Proof.
  intros time flux model_flux.
  assert (E : List.length flux = List.length model_flux) by reflexivity.
  assert (N : model_flux <> []) by discriminate.
  split; [exact E|]. split; [exact N|].
  exact (significance_snr time flux model_flux E N).
Defined.

(** *** A run that computes the planet properties and rejects *)










(** *** A phase of 1 *)



End Runs.

(** ** What [analyze_lightcurve] can return *)

Section Outcomes.

Context {ext : External}.
Variable self : RealExoplanetDetector.

Local Open Scope string_scope.
Local Open Scope float_scope.

Definition columns_message : string :=
  "CSV must contain " ++ dquote ++ "time" ++ dquote
  ++ " and " ++ dquote ++ "flux" ++ dquote ++ " columns".

(** The parsed columns have one length, so the preprocessor returns. *)
Lemma preprocess_rows (data : list (float * float)) :
  preprocess_lightcurve (map fst data) (map snd data)
  = Ok (clean (map fst data) (map snd data))
  /\ List.length (fst (clean (map fst data) (map snd data)))
     = List.length (snd (clean (map fst data) (map snd data))).
Proof.
  assert (E : List.length (map fst data) = List.length (map snd data))
    by (now rewrite !length_map).
  split; [now apply preprocess_value|].
  now destruct (clean_invariant _ _ E) as (_ & _ & _ & H).
Qed.

(** On a flux that is not empty the fit returns, a fit or [None]. *)
Lemma fit_transit_model_returns (time flux : list float)
    (period t0 duration : float) :
  flux <> [] ->
  exists fitted, fit_transit_model self time flux period t0 duration = Ok fitted.
Proof.
  intros Hne. unfold fit_transit_model.
  destruct flux as [|x rest]; [contradiction|]. cbn [Np.amin Py.bind].
  destruct (fit_attempt _ _ _ _); eexists; reflexivity.
Qed.

(** The model of a fit has the length of the series. *)
Lemma fit_model_length (time flux : list float) (period t0 duration : float)
    (fit : TransitFit) :
  fit_transit_model self time flux period t0 duration = Ok (Some fit) ->
  List.length (fit_model_flux fit) = List.length time.
Proof.
  unfold fit_transit_model.
  destruct (Np.amin flux) as [lowest|e]; cbn [Py.bind]; [|discriminate].
  destruct (fit_attempt _ _ _ _) as [fit'|e] eqn:Hfit; [|discriminate].
  intros H. inversion H. subst fit'.
  destruct (fit_attempt_inv _ _ _ _ _ Hfit) as (p & _ & _ & _ & Hm & _).
  rewrite Hm. apply transit_model_length.
Qed.

Lemma significance_returns (time flux model_flux : list float) :
  List.length flux = List.length model_flux -> model_flux <> [] ->
  exists significance,
    calculate_detection_significance time flux model_flux = Ok significance.
Proof.
  intros E Hne. unfold calculate_detection_significance.
  rewrite NpFacts.broadcast_same_length by exact E. cbn [Py.bind].
  destruct model_flux as [|m rest]; [contradiction|].
  cbn [Np.amax Np.amin Py.bind]. eexists. reflexivity.
Qed.

Lemma long_not_empty {A : Type} (l : list A) :
  (List.length l <? 50)%nat = false -> l <> [].
Proof. intros H ->. discriminate H. Qed.

(** X1.  On parsed rows the [try] block of [analyze_lightcurve] never
    raises, whatever the rows hold and whatever the optimizer does: the
    columns have one length, the arrays that reach the fit and the
    significance evaluator are not empty, and a failure of the optimizer
    is caught inside the fit.  So the result is never the "Analysis
    failed" error; it is one of three validation errors, the no-signal
    result, the fit-failed result, or the result of a completed run. *)
Theorem analysis_outcomes (header : string) (data : list (float * float)) :
  (exists log result, analyze_body self header data [] = (log, Ok result))
  /\ ((exists msg,
         In msg [columns_message;
                 "Insufficient data points. Need at least 100 measurements.";
                 "Too few valid data points after preprocessing"]
         /\ snd (analyze_lightcurve self header data) = error_result msg)
      \/ (exists bls,
            snd (analyze_lightcurve self header data) = no_signal_result bls)
      \/ snd (analyze_lightcurve self header data) = fit_failed_result
      \/ (exists bls fit significance,
            snd (analyze_lightcurve self header data)
            = fitted_result bls fit significance)).
Proof.
  assert (Hbody : exists log result,
             analyze_body self header data [] = (log, Ok result)
             /\ ((exists msg,
                    In msg [columns_message;
                            "Insufficient data points. Need at least 100 measurements.";
                            "Too few valid data points after preprocessing"]
                    /\ result = error_result msg)
                 \/ (exists bls, result = no_signal_result bls)
                 \/ result = fit_failed_result
                 \/ (exists bls fit significance,
                       result = fitted_result bls fit significance))).
  { unfold analyze_body, tbind, invoke, tret.
    destruct (contains "time" (lower header) && contains "flux" (lower header)).
    2:{ do 2 eexists. split; [reflexivity|]. left. eexists. split; [|reflexivity].
        cbn. auto. }
    destruct (List.length data <? 100)%nat.
    { do 2 eexists. split; [reflexivity|]. left. eexists. split; [|reflexivity].
      cbn. auto. }
    destruct (preprocess_rows data) as [-> Hlen].
    destruct (clean (map fst data) (map snd data)) as [time flux].
    cbn [fst snd] in Hlen.
    destruct (List.length time <? 50)%nat eqn:Hfloor.
    { do 2 eexists. split; [reflexivity|]. left. eexists. split; [|reflexivity].
      cbn. auto. }
    rewrite (box_least_squares_value self time flux Hlen).
    set (bls := fold_left _ _ _).
    destruct (bls_power bls <? detection_threshold self).
    { do 2 eexists. split; [reflexivity|]. right. left. now exists bls. }
    assert (Hne : flux <> []) by (apply long_not_empty; congruence).
    destruct (fit_transit_model_returns time flux (bls_period bls) (bls_t0 bls)
                (bls_duration bls) Hne) as ([fit|] & Hfit); rewrite Hfit.
    2:{ do 2 eexists. split; [reflexivity|]. right. right. now left. }
    pose proof (fit_model_length _ _ _ _ _ _ Hfit) as Hm.
    assert (Hmne : fit_model_flux fit <> [])
      by (apply long_not_empty; congruence).
    destruct (significance_returns time flux (fit_model_flux fit)
                ltac:(congruence) Hmne) as (sig & Hsig).
    rewrite Hsig. do 2 eexists. split; [reflexivity|].
    right. right. right. now exists bls, fit, sig. }
  destruct Hbody as (log & result & Hrun & Hshape).
  split; [now exists log, result|].
  unfold analyze_lightcurve. rewrite Hrun. exact Hshape.
Qed.

(** X2.  The preprocessor is called exactly when the first line names
    both columns, in any letter case, and at least 100 rows parsed.  A
    first line that lacks a name is answered with the error about the
    columns, whatever the rows; fewer than 100 rows under a good first
    line with the error about insufficient data points; in both cases no
    method of the detector is called. *)
Theorem rejected_before_preprocessing (header : string)
    (data : list (float * float)) :
  (In call_preprocess_lightcurve (fst (analyze_lightcurve self header data))
   <-> header_ok header /\ (100 <= List.length data)%nat)
  /\ (~ header_ok header ->
      analyze_lightcurve self header data = ([], error_result columns_message))
  /\ (header_ok header -> (List.length data < 100)%nat ->
      analyze_lightcurve self header data
      = ([], error_result
               "Insufficient data points. Need at least 100 measurements.")).
Proof.
  rewrite analyze_lightcurve_stages. unfold run_to_search, header_ok.
  destruct (contains "time" (lower header)) eqn:Ht;
    destruct (contains "flux" (lower header)) eqn:Hf; cbn [andb];
    try (split; [split; [intros [] | intros [[? ?] _]; discriminate]|];
         split; [reflexivity | intros [? ?]; discriminate]).
  destruct (List.length data <? 100)%nat eqn:Hn.
  - apply Nat.ltb_lt in Hn.
    split; [split; [intros [] | intros [_ ?]; lia]|].
    split; [intros H; exfalso; apply H; now split | reflexivity].
  - apply Nat.ltb_ge in Hn.
    split; [|split; [intros H; exfalso; apply H; now split | intros _ ?; lia]].
    split; [intros _; auto|]. intros _.
    destruct (preprocess_lightcurve _ _) as [[time flux]|e]; [|now left].
    destruct (List.length time <? 50)%nat; [now left|].
    unfold run_from_search.
    destruct (box_least_squares self time flux) as [bls|e]; [|now left].
    destruct (bls_power bls <? detection_threshold self); [now left|].
    destruct (fit_transit_model _ _ _ _ _ _) as [[fit|]|e]; try now left.
    destruct (calculate_detection_significance _ _ _); now left.
Qed.

End Outcomes.

(** ** The stages on their own *)

Section Stages.

Context {ext : External}.
Variable self : RealExoplanetDetector.

Local Open Scope string_scope.
Local Open Scope float_scope.

Lemma select_length_le {A : Type} (a : list A) (mask : list bool) :
  (List.length (Select.select a mask) <= List.length a)%nat.
Proof.
  unfold Select.select. rewrite length_map.
  etransitivity; [apply filter_length_le|].
  rewrite length_combine. apply Nat.le_min_l.
Qed.

Lemma Forall_incl {A : Type} (a b : list A) :
  Forall (fun x => In x b) a -> incl a b.
Proof. intros H x Hx. rewrite Forall_forall in H. auto. Qed.

(** X3.  The preprocessor raises exactly when its two arrays differ in
    length.  What it returns are two arrays of one length, no longer than
    the input; the times are finite, in ascending order, and each is a
    time of the input; the flux values are finite. *)
Theorem preprocess_output (time flux : list float) :
  ((exists cleaned, preprocess_lightcurve time flux = Ok cleaned)
   <-> List.length time = List.length flux)
  /\ (forall t1 f1,
        preprocess_lightcurve time flux = Ok (t1, f1) ->
        List.length t1 = List.length f1
        /\ (List.length t1 <= List.length time)%nat
        /\ ascending t1
        /\ Forall (fun t => is_finite t = true) t1
        /\ Forall (fun f => is_finite f = true) f1
        /\ incl t1 time).
Proof.
  split.
  - split.
    + intros (cleaned & H). now apply preprocess_same_length in H.
    + intros E. eexists. now apply preprocess_value.
  - intros t1 f1 Hpre.
    pose proof (preprocess_same_length _ _ _ Hpre) as E.
    rewrite (preprocess_value _ _ E) in Hpre.
    assert (Hclean : clean time flux = (t1, f1)) by congruence.
    destruct (clean_invariant time flux E) as (Hasc & Hft & Hff & Hlen).
    rewrite Hclean in Hasc, Hft, Hff, Hlen. cbn [fst snd] in *.
    repeat split; trivial.
    + assert (Ht1 : t1 = fst (clean time flux)) by now rewrite Hclean.
      rewrite Ht1. unfold clean, normalize_and_clip. cbn [fst].
      etransitivity; [apply select_length_le|].
      rewrite take_length. unfold Np.argsort.
      rewrite Sorting.sort_by_length, length_seq. apply select_length_le.
    + assert (Ht1 : t1 = fst (clean time flux)) by now rewrite Hclean.
      rewrite Ht1. unfold clean, normalize_and_clip. cbn [fst].
      apply Forall_incl. apply Select.select_Forall.
      unfold Np.take, Np.argsort. apply Forall_map.
      apply Sorting.sort_by_Forall. apply Forall_forall. intros i Hi.
      apply in_seq in Hi.
      assert (Hin : In (nth i (Select.select time (finite_mask time flux)) nan)
                       (Select.select time (finite_mask time flux)))
        by (apply nth_In; lia).
      revert Hin. apply (Forall_incl _ time).
      apply Select.select_Forall. apply Forall_forall. auto.
Qed.

(** X4.  The fit signals failure by [None] exactly when the optimizer
    raises: on arrays of one length that are not empty nothing else in
    the [try] block can fail.  The depth the optimizer is started from is
    at least 0.001, also when the lowest flux is NaN.  The minimum of the
    flux is taken before the [try] block: on an empty flux array the fit
    raises the [ValueError] of [np.min] instead of returning [None]. *)
Theorem fit_failure_signal (time flux : list float) (period t0 duration : float) :
  fit_transit_model self time [] period t0 duration
  = Raise (ValueError
             "zero-size array to reduction operation minimum which has no identity")
  /\ (forall lowest,
        List.length time = List.length flux ->
        Np.amin flux = Ok lowest ->
        (0.001 <=? py_max 0.001 (1 - lowest)) = true
        /\ (fit_transit_model self time flux period t0 duration = Ok None
            <-> exists e,
                  minimize (chi_squared self time flux)
                    (py_max 0.001 (1 - lowest), period, t0, duration)
                  = Raise e)).
Proof.
  split; [reflexivity|].
  intros lowest E Hmin. split.
  - unfold py_max. destruct (0.001 <? 1 - lowest) eqn:Hlt.
    + now apply F.ltb_leb.
    + apply F.leb_refl. reflexivity.
  - unfold fit_transit_model. rewrite Hmin. cbn [Py.bind].
    unfold fit_attempt.
    destruct (minimize _ _) as [[[[depth period'] t0'] duration']|e];
      cbn [Py.bind].
    + rewrite NpFacts.broadcast_same_length
        by (now rewrite transit_model_length).
      cbn [Py.bind]. split; [discriminate | intros (e & He); discriminate].
    + split; [intros _; now exists e | reflexivity].
Qed.

End Stages.

(** ** Numbers that are not negative *)

Module Sign.

Local Open Scope float_scope.

(** Not below 0: a zero, a positive number, +infinity or NaN. *)
Definition not_negative (x : float) : Prop := (x <? 0) = false.

Definition SFnot_negative (x : spec_float) : Prop :=
  match x with
  | S754_infinity true | S754_finite true _ _ => False
  | _ => True
  end.

Lemma not_negative_spec x : not_negative x <-> SFnot_negative (Prim2SF x).
Proof.
  unfold not_negative. rewrite ltb_spec.
  change (Prim2SF 0) with (S754_zero false).
  destruct (Prim2SF x) as [s|[|]| |[|] m e]; cbn; intuition discriminate.
Qed.

(** Rounding keeps the sign it is given. *)
Lemma binary_round_aux_sign m e l :
  SFnot_negative (binary_round_aux prec emax false m e l).
Proof.
  unfold binary_round_aux.
  destruct (shr_fexp prec emax m e l) as [mrs e1].
  destruct (shr_fexp prec emax _ e1 loc_Exact) as [mrs2 e2].
  destruct (shr_m mrs2); [exact I | | exact I].
  destruct (e2 <=? emax - prec)%Z; exact I.
Qed.

Lemma binary_round_sign m e : SFnot_negative (binary_round prec emax false m e).
Proof.
  unfold binary_round. destruct (shl_align _ _ _). apply binary_round_aux_sign.
Qed.

Lemma SFadd_sign x y :
  SFnot_negative x -> SFnot_negative y -> SFnot_negative (SFadd prec emax x y).
Proof.
  destruct x as [sx|[|]| |[|] mx ex]; destruct y as [sy|[|]| |[|] my ey];
    cbn [SFnot_negative]; try contradiction; intros _ _;
    try exact I; try (destruct sx; try destruct sy; exact I).
  cbn [SFadd cond_Zopp]. apply binary_round_sign.
Qed.

Lemma SFmul_sign x y :
  SFnot_negative x -> SFnot_negative y -> SFnot_negative (SFmul prec emax x y).
Proof.
  destruct x as [sx|[|]| |[|] mx ex]; destruct y as [sy|[|]| |[|] my ey];
    cbn [SFnot_negative]; try contradiction; intros _ _; try exact I.
  cbn [SFmul xorb]. apply binary_round_aux_sign.
Qed.

Lemma SFmul_self_sign x : SFnot_negative (SFmul prec emax x x).
Proof.
  destruct x as [sx|sx| |sx mx ex]; cbn [SFmul]; try exact I;
    try (destruct sx; exact I).
  replace (xorb sx sx) with false by (now destruct sx).
  apply binary_round_aux_sign.
Qed.

(** The divisor is above 0: a quotient by -0 would be negative. *)
Lemma SFdiv_sign x y :
  SFnot_negative x -> SFltb (S754_zero false) y = true ->
  SFnot_negative (SFdiv prec emax x y).
Proof.
  destruct x as [sx|[|]| |[|] mx ex]; destruct y as [sy|[|]| |[|] my ey];
    cbn [SFnot_negative]; try contradiction; intros _ Hy;
    try discriminate Hy; try exact I.
  cbn [SFdiv xorb].
  destruct (SFdiv_core_binary _ _ _ _ _ _) as [[mz ez] lz].
  apply binary_round_aux_sign.
Qed.

Lemma SFsqrt_sign x : SFnot_negative (SFsqrt prec emax x).
Proof.
  destruct x as [sx|[|]| |[|] mx ex]; cbn [SFsqrt]; try exact I.
  destruct (SFsqrt_core_binary _ _ _ _) as [[mz ez] lz].
  apply binary_round_aux_sign.
Qed.

Lemma add x y : not_negative x -> not_negative y -> not_negative (x + y).
Proof. rewrite !not_negative_spec, add_spec. apply SFadd_sign. Qed.

Lemma mul x y : not_negative x -> not_negative y -> not_negative (x * y).
Proof. rewrite !not_negative_spec, mul_spec. apply SFmul_sign. Qed.

Lemma square x : not_negative (x * x).
Proof. rewrite not_negative_spec, mul_spec. apply SFmul_self_sign. Qed.

Lemma div x y : not_negative x -> (0 <? y) = true -> not_negative (x / y).
Proof.
  rewrite !not_negative_spec, div_spec, ltb_spec.
  change (Prim2SF 0) with (S754_zero false). apply SFdiv_sign.
Qed.

Lemma sqrt_not_negative x : not_negative (sqrt x).
Proof. rewrite not_negative_spec, sqrt_spec. apply SFsqrt_sign. Qed.

Lemma abs_not_negative x : not_negative (abs x).
Proof.
  rewrite not_negative_spec, abs_spec. destruct (Prim2SF x); exact I.
Qed.

(** [np.sum] of numbers that are not negative. *)
Lemma sum (a : list float) : Forall not_negative a -> not_negative (Np.sum a).
Proof.
  unfold Np.sum. intros H.
  assert (H0 : not_negative 0) by reflexivity.
  revert H0. generalize 0. induction H as [|x a Hx Ha IH]; intros acc Hacc.
  - exact Hacc.
  - cbn [fold_left]. apply IH. now apply add.
Qed.

Lemma sum_squares (residuals : list float) : not_negative (sum_squares residuals).
Proof.
  unfold sum_squares. apply sum. apply Forall_map.
  apply Forall_forall. intros r _. apply square.
Qed.

(** Nothing that is not negative is below a number that is not above 0. *)
Lemma not_below x y : not_negative x -> (0 <? y) = false -> (x <? y) = false.
Proof.
  unfold not_negative. rewrite !ltb_spec.
  change (Prim2SF 0) with (S754_zero false).
  destruct (Prim2SF x) as [sx|[|]| |[|] mx ex];
    destruct (Prim2SF y) as [sy|[|]| |[|] my ey]; cbn; congruence.
Qed.

(** Half of a number that is not above 0 is not above 0. *)
Lemma half_not_positive d : (0 <? d) = false -> (0 <? d / 2) = false.
Proof.
  rewrite !ltb_spec, div_spec.
  change (Prim2SF 0) with (S754_zero false).
  replace (Prim2SF 2) with (S754_finite false 4503599627370496 (-51)) by reflexivity.
  destruct (Prim2SF d) as [sd|[|]| |[|] md ed]; cbn [SFltb SFcompare SF64div SFdiv xorb];
    try congruence; try reflexivity.
  intros _. unfold SF64div, SFdiv. cbn [xorb].
  destruct (SFdiv_core_binary _ _ _ _ _ _) as [[mz ez] lz].
  unfold binary_round_aux.
  destruct (shr_fexp prec emax mz ez lz) as [mrs e1].
  destruct (shr_fexp prec emax _ e1 loc_Exact) as [mrs2 e2].
  destruct (shr_m mrs2); [reflexivity | | reflexivity].
  destruct (e2 <=? emax - prec)%Z; reflexivity.
Qed.

End Sign.

(** ** The box model and the objective of the fit *)

Section FitModel.

Context {ext : External}.
Variable self : RealExoplanetDetector.

Local Open Scope float_scope.

(** X5.  The box model has one value per time, and every value is one of
    two levels: 1 out of transit and [1 - depth] in transit.  With a
    duration that is not above 0, or NaN, no point is in transit and the
    model is the flat line 1. *)
Theorem transit_model_levels (time : list float)
    (depth period t0 duration : float) :
  List.length (transit_model time (depth, period, t0, duration))
  = List.length time
  /\ Forall (fun v => v = 1 \/ v = 1 - depth)
       (transit_model time (depth, period, t0, duration))
  /\ ((0 <? duration) = false ->
      transit_model time (depth, period, t0, duration)
      = repeat 1 (List.length time)).
Proof.
  split; [apply transit_model_length|]. unfold transit_model. split.
  - apply Forall_map. apply Forall_forall. intros ph _.
    destruct (abs (ph * period) <? duration / 2); auto.
  - intros Hd. unfold fold_phase. rewrite !map_map.
    induction time as [|t time IH]; [reflexivity|].
    cbn [map List.length repeat]. rewrite IH. f_equal.
    rewrite Sign.not_below;
      [reflexivity | apply Sign.abs_not_negative | now apply Sign.half_not_positive].
Qed.

(** The parameters [chi_squared] answers with its penalty. *)
Definition out_of_bounds (p : params) : bool :=
  let '(depth, period_fit, t0_fit, duration_fit) := p in
  (depth <? 0) || (0.1 <? depth)
  || (period_fit <? min_period self) || (max_period self <? period_fit)
  || (duration_fit <? min_transit_duration self)
  || (period_fit / 2 <? duration_fit).

(** X6.  On arrays of one length the objective [chi_squared] never
    raises and never returns a number below 0: it returns the penalty
    1e10 for parameters outside their bounds and the sum of the squared
    residuals otherwise.  A parameter that is NaN fails every bound test
    and is not penalised.  The [chi2] of a fit is not below 0 either. *)
Theorem chi_squared_not_negative (time flux : list float) (p : params) :
  List.length time = List.length flux ->
  (exists c,
     chi_squared self time flux p = Ok c
     /\ (c <? 0) = false
     /\ c = (if out_of_bounds p then 1e10
             else sum_squares
                    (map (fun q => fst q - snd q)
                         (combine flux (transit_model time p)))))
  /\ (forall period t0 duration fit,
        fit_transit_model self time flux period t0 duration = Ok (Some fit) ->
        (fit_chi2 fit <? 0) = false).
Proof.
  intros E. split.
  - destruct p as [[[depth period] t0] duration].
    unfold chi_squared, out_of_bounds.
    destruct ((depth <? 0) || (0.1 <? depth)); cbn [orb];
      [eexists; repeat split; reflexivity|].
    destruct ((period <? min_period self) || (max_period self <? period));
      cbn [orb]; [eexists; repeat split; reflexivity|].
    destruct ((duration <? min_transit_duration self) || (period / 2 <? duration));
      cbn [orb]; [eexists; repeat split; reflexivity|].
    rewrite NpFacts.broadcast_same_length by (now rewrite transit_model_length).
    cbn [Py.bind]. eexists. split; [reflexivity|].
    split; [apply Sign.sum_squares | reflexivity].
  - intros period t0 duration fit. unfold fit_transit_model.
    destruct (Np.amin flux) as [lowest|e]; cbn [Py.bind]; [|discriminate].
    destruct (fit_attempt _ _ _ _) as [fit'|e] eqn:Hfit; [|discriminate].
    intros H. inversion H. subst fit'.
    destruct (fit_attempt_inv _ _ _ _ _ Hfit) as (q & res & _ & _ & _ & _ & Hc & _).
    rewrite Hc. apply Sign.sum_squares.
Qed.

End FitModel.

(** ** From the text to the rows

    Lines 233-247 of the script and [main].  A text is a [string] whose
    characters are the code points below 256; [float(s)] is a parameter,
    [None] standing for its [ValueError]. *)

Module Text.

Local Open Scope nat_scope.

(** [c.isspace()] *)
Definition isspace (c : ascii) : bool :=
  let n := nat_of_ascii c in
  ((9 <=? n) && (n <=? 13)) || ((28 <=? n) && (n <=? 32))
  || (n =? 133) || (n =? 160).

(** [s.lstrip()] *)
Fixpoint lstrip (s : string) : string :=
  match s with
  | EmptyString => EmptyString
  | String c rest => if isspace c then lstrip rest else s
  end.

(** [s.rstrip()] *)
Fixpoint rstrip (s : string) : string :=
  match s with
  | EmptyString => EmptyString
  | String c rest =>
      match rstrip rest with
      | EmptyString => if isspace c then EmptyString else String c EmptyString
      | kept => String c kept
      end
  end.

(** [s.strip()] *)
Definition strip (s : string) : string := rstrip (lstrip s).

(** [s.split(sep)] for a separator of one character. *)
Fixpoint split (sep : ascii) (s : string) : list string :=
  match s with
  | EmptyString => [EmptyString]
  | String c rest =>
      if Ascii.eqb c sep then EmptyString :: split sep rest
      else
        match split sep rest with
        | field :: fields => String c field :: fields
        | [] => [String c EmptyString]
        end
  end.

(** [s.count(sep)] *)
Fixpoint count (sep : ascii) (s : string) : nat :=
  match s with
  | EmptyString => 0
  | String c rest => (if Ascii.eqb c sep then 1 else 0) + count sep rest
  end.

(** Every character is a space. *)
Fixpoint blank (s : string) : bool :=
  match s with
  | EmptyString => true
  | String c rest => isspace c && blank rest
  end.

Definition newline : ascii := ascii_of_nat 10.

Definition comma : ascii := ascii_of_nat 44.

End Text.

Section Csv.

Context {ext : External}.

(** [float(s)] *)
Variable py_float : string -> option float.

Variable self : RealExoplanetDetector.

Local Open Scope string_scope.

(** The body of the loop over the lines: the row a line gives, if any. *)
Definition parse_line (line : string) : list (float * float) :=
  match Text.split Text.comma line with
  | p0 :: p1 :: _ =>
      match py_float p0 with
      | Some time_val =>
          match py_float p1 with
          | Some flux_val => [(time_val, flux_val)]
          | None => []
          end
      | None => []
      end
  | _ => []
  end.

Definition parse_rows (lines : list string) : list (float * float) :=
  flat_map parse_line lines.

(** [analyze_lightcurve(csv_data)], from the text. *)
Definition analyze_lightcurve_csv (csv_data : string) : list call * value :=
  let lines := Text.split Text.newline (Text.strip csv_data) in
  analyze_lightcurve self (hd EmptyString lines) (parse_rows (tl lines)).

(** [main]: the methods called and the dictionary handed to [json.dumps]. *)
Definition main (csv_data : string) : list call * value :=
  if (String.length csv_data =? 0)%nat
     || (String.length (Text.strip csv_data) =? 0)%nat
  then ([], error_result "No CSV data provided")
  else analyze_lightcurve_csv csv_data.

End Csv.

Module TextFacts.

Import Text.

Local Open Scope string_scope.

Lemma split_length (sep : ascii) (s : string) :
  List.length (split sep s) = S (count sep s).
Proof.
  induction s as [|c rest IH]; [reflexivity|]. cbn [split count].
  destruct (Ascii.eqb c sep); cbn [List.length]; [now rewrite IH|].
  destruct (split sep rest) as [|field fields]; [discriminate IH | exact IH].
Qed.

(** A text without the separator is its own single field. *)
Lemma split_no_sep (sep : ascii) (s : string) :
  count sep s = 0%nat -> split sep s = [s].
Proof.
  induction s as [|c rest IH]; [reflexivity|]. cbn [split count].
  destruct (Ascii.eqb c sep); [discriminate|]. intros H.
  now rewrite (IH H).
Qed.

(** The first field ends at the first separator. *)
Lemma split_first (sep : ascii) (a s : string) :
  count sep a = 0%nat -> split sep (a ++ String sep s) = a :: split sep s.
Proof.
  induction a as [|c rest IH]; cbn [append split count].
  - now rewrite Ascii.eqb_refl.
  - destruct (Ascii.eqb c sep); [discriminate|]. intros H.
    now rewrite (IH H).
Qed.

Lemma count_lstrip (sep : ascii) (s : string) :
  (count sep (lstrip s) <= count sep s)%nat.
Proof.
  induction s as [|c rest IH]; [reflexivity|]. cbn [lstrip].
  destruct (isspace c); [cbn [count]; lia | reflexivity].
Qed.

Lemma count_rstrip (sep : ascii) (s : string) :
  (count sep (rstrip s) <= count sep s)%nat.
Proof.
  induction s as [|c rest IH]; [reflexivity|]. cbn [rstrip].
  destruct (rstrip rest) as [|c' kept].
  - destruct (isspace c); cbn [count] in *; lia.
  - cbn [count] in *. lia.
Qed.

Lemma count_strip (sep : ascii) (s : string) :
  (count sep (strip s) <= count sep s)%nat.
Proof.
  unfold strip. etransitivity; [apply count_rstrip | apply count_lstrip].
Qed.

Lemma rstrip_blank (s : string) : rstrip s = "" <-> blank s = true.
Proof.
  induction s as [|c rest IH]; [now split|]. cbn [rstrip blank].
  destruct (rstrip rest) as [|c' kept].
  - rewrite (proj1 IH eq_refl), andb_true_r.
    destruct (isspace c); split; trivial; discriminate.
  - destruct (blank rest).
    + discriminate (proj2 IH eq_refl).
    + rewrite andb_false_r. split; discriminate.
Qed.

Lemma blank_lstrip (s : string) : blank (lstrip s) = blank s.
Proof.
  induction s as [|c rest IH]; [reflexivity|]. cbn [lstrip].
  destruct (isspace c) eqn:E; [cbn [blank]; now rewrite E | reflexivity].
Qed.

(** Stripping leaves nothing exactly of a text of spaces. *)
Lemma strip_blank (s : string) : strip s = "" <-> blank s = true.
Proof. unfold strip. now rewrite rstrip_blank, blank_lstrip. Qed.

Lemma length_zero (s : string) : (String.length s =? 0)%nat = true <-> s = "".
Proof. destruct s; cbn; split; trivial; discriminate. Qed.

End TextFacts.

Section CsvFacts.

Context {ext : External}.
Variable py_float : string -> option float.
Variable self : RealExoplanetDetector.

Local Open Scope string_scope.

Lemma parse_line_length (line : string) :
  (List.length (parse_line py_float line) <= 1)%nat.
Proof.
  unfold parse_line.
  destruct (Text.split Text.comma line) as [|p0 [|p1 rest]]; cbn; try lia.
  destruct (py_float p0); [destruct (py_float p1)|]; cbn; lia.
Qed.

Lemma parse_rows_length (lines : list string) :
  (List.length (parse_rows py_float lines) <= List.length lines)%nat.
Proof.
  unfold parse_rows. induction lines as [|line lines IH]; [reflexivity|].
  cbn [flat_map List.length]. rewrite length_app.
  pose proof (parse_line_length line). lia.
Qed.

(** X7.  [main] answers a text that is empty or holds nothing but white
    space with the error "No CSV data provided", without calling the
    detector, and hands every other text to [analyze_lightcurve]. *)
Theorem main_guard (csv_data : string) :
  main py_float self csv_data
  = if Text.blank csv_data
    then ([], error_result "No CSV data provided")
    else analyze_lightcurve_csv py_float self csv_data.
Proof.
  unfold main.
  destruct (Text.blank csv_data) eqn:Hb.
  - apply TextFacts.strip_blank in Hb. rewrite Hb. cbn [String.length Nat.eqb].
    now rewrite orb_true_r.
  - assert (H1 : (String.length csv_data =? 0)%nat = false).
    { destruct csv_data; [discriminate Hb | reflexivity]. }
    assert (H2 : (String.length (Text.strip csv_data) =? 0)%nat = false).
    { destruct (String.length (Text.strip csv_data) =? 0)%nat eqn:H; [|reflexivity].
      apply TextFacts.length_zero, TextFacts.strip_blank in H. congruence. }
    now rewrite H1, H2.
Qed.

(** X8.  A text with fewer than 100 line breaks is never analysed: at
    most one row comes from each line after the first, so fewer than 100
    rows are parsed and the answer is an error, about the columns or
    about insufficient data points, from [analyze_lightcurve] as from
    [main], with no method of the detector called. *)
Theorem few_lines_rejected (csv_data : string) :
  (Text.count Text.newline csv_data < 100)%nat ->
  (exists msg,
     In msg [columns_message;
             "Insufficient data points. Need at least 100 measurements."]
     /\ analyze_lightcurve_csv py_float self csv_data = ([], error_result msg))
  /\ (exists msg,
        In msg ["No CSV data provided"; columns_message;
                "Insufficient data points. Need at least 100 measurements."]
        /\ main py_float self csv_data = ([], error_result msg)).
Proof.
  intros Hn.
  assert (Hcsv : exists msg,
     In msg [columns_message;
             "Insufficient data points. Need at least 100 measurements."]
     /\ analyze_lightcurve_csv py_float self csv_data = ([], error_result msg)).
  { unfold analyze_lightcurve_csv.
    set (lines := Text.split Text.newline (Text.strip csv_data)).
    assert (Hrows : (List.length (parse_rows py_float (tl lines)) < 100)%nat).
    { eapply Nat.le_lt_trans; [apply parse_rows_length|].
      pose proof (TextFacts.split_length Text.newline (Text.strip csv_data)) as Hl.
      fold lines in Hl.
      pose proof (TextFacts.count_strip Text.newline csv_data).
      destruct lines as [|h t]; cbn [tl List.length] in *; lia. }
    rewrite analyze_lightcurve_stages. unfold run_to_search.
    destruct (contains "time" (lower (hd "" lines))
              && contains "flux" (lower (hd "" lines))).
    - rewrite (proj2 (Nat.ltb_lt _ _) Hrows).
      eexists. split; [|reflexivity]. cbn. auto.
    - eexists. split; [|reflexivity]. cbn. auto. }
  split; [exact Hcsv|].
  rewrite main_guard. destruct (Text.blank csv_data).
  - eexists. split; [|reflexivity]. cbn. auto.
  - destruct Hcsv as (msg & Hin & Hrun). exists msg. split; [|exact Hrun].
    now right.
Qed.

(** X9.  Of a line only the first two fields are read.  A line without
    a comma gives no row; so does a line of which a field among the first
    two is refused by [float]; what follows a second comma is ignored.
    No line is an error. *)
Theorem first_two_fields (a b : string) :
  Text.count Text.comma a = 0%nat -> Text.count Text.comma b = 0%nat ->
  parse_line py_float a = []
  /\ parse_line py_float (a ++ "," ++ b)
     = match py_float a, py_float b with
       | Some time_val, Some flux_val => [(time_val, flux_val)]
       | _, _ => []
       end
  /\ forall rest,
       parse_line py_float (a ++ "," ++ b ++ "," ++ rest)
       = parse_line py_float (a ++ "," ++ b).
Proof.
  intros Ha Hb. change "," with (String Text.comma "").
  unfold parse_line. cbn [append].
  rewrite (TextFacts.split_no_sep _ a Ha).
  rewrite (TextFacts.split_first _ a b Ha), (TextFacts.split_no_sep _ b Hb).
  split; [reflexivity|]. split.
  - destruct (py_float a); [destruct (py_float b)|]; reflexivity.
  - intros rest. rewrite (TextFacts.split_first _ a _ Ha).
    rewrite (TextFacts.split_first _ b rest Hb). reflexivity.
Qed.

End CsvFacts.

(** ** Rounding between representable bounds *)

Module Bounds.

Import Binary64.

Local Open Scope Z_scope.

(** A number that is at least [my * 2 ^ ey], a binary64 number. *)
Definition at_least (x : spec_float) (my : positive) (ey : Z) : Prop :=
  match x with
  | S754_infinity false => True
  | S754_finite false m e => ey < e \/ (e = ey /\ Zpos my <= Zpos m)
  | _ => False
  end.

(** Rounding does not go below a binary64 number the exact value is not
    below. *)
Lemma binary_round_aux_at_least M E loc my ey :
  bounded prec emax my ey = true ->
  E <= ey -> Zpos my * 2 ^ (ey - E) <= M ->
  at_least (binary_round_aux prec emax false M E loc) my ey.
Proof.
  intros B HE Hle.
  destruct (bounded_facts _ _ B) as (Dy & Ey & Ny).
  assert (HK : 0 < Zpos my * 2 ^ (ey - E))
    by (apply Z.mul_pos_pos; [lia | apply Z.pow_pos_nonneg; lia]).
  assert (HM : 0 < M) by lia.
  pose proof (fexp64_canonical my ey B) as Hc.
  assert (Hd : Zdigits2 (Zpos my) + ey <= Zdigits2 M + E).
  { assert (H : Zdigits2 (Zpos my * 2 ^ (ey - E)) <= Zdigits2 M)
      by (apply Zdigits2_mono; lia).
    rewrite Zdigits2_mul_pow2 in H by lia. lia. }
  pose proof (Zdigits2_bounds M HM) as [HMl HMu].
  unfold binary_round_aux.
  set (n1 := fexp64 (Zdigits2 M + E) - E).
  assert (Hs : shr_fexp prec emax M E loc = shr (shr_record_of_loc M loc) E n1)
    by (unfold shr_fexp; rewrite fexp_64; reflexivity).
  rewrite Hs. clear Hs.
  destruct (shr_spec M loc E n1 (Z.lt_le_incl _ _ HM)) as [Hpos Hneg].
  destruct (shr (shr_record_of_loc M loc) E n1) as [mrs ea] eqn:Es.
  assert (Hfacts : ey <= ea
                   /\ shr_m mrs < 2 ^ 53
                   /\ (ea = ey -> Zpos my <= shr_m mrs)
                   /\ (ey < ea -> 2 ^ 52 <= shr_m mrs)).
  { destruct (Z_lt_le_dec 0 n1) as [Hn|Hn].
    - destruct (Hpos Hn) as (H1 & H2 & _). cbn [fst snd] in H1, H2.
      assert (Hp : 0 < 2 ^ n1) by (apply Z.pow_pos_nonneg; lia).
      split; [unfold n1, fexp64 in *; lia|]. split; [|split].
      + rewrite H2. apply Z.div_lt_upper_bound; [exact Hp|].
        eapply Z.lt_le_trans; [exact HMu|].
        rewrite <- Z.pow_add_r by lia.
        apply Z.pow_le_mono_r; unfold n1, fexp64 in *; lia.
      + intros Heq. rewrite H2. apply Z.div_le_lower_bound; [exact Hp|].
        replace n1 with (ey - E) by lia. lia.
      + intros Hlt. rewrite H2. apply Z.div_le_lower_bound; [exact Hp|].
        assert (Hn1 : n1 = Zdigits2 M - 53) by (unfold n1, fexp64 in *; lia).
        rewrite <- Z.pow_add_r by lia.
        replace (n1 + 52) with (Zdigits2 M - 1) by lia. exact HMl.
    - specialize (Hneg Hn). inversion Hneg; subst mrs ea.
      assert (HE' : E = ey) by (unfold n1, fexp64 in *; lia).
      assert (Hm : shr_m (shr_record_of_loc M loc) = M)
        by (destruct loc as [|[| |]]; reflexivity).
      rewrite Hm. split; [lia|]. split; [|split].
      + eapply Z.lt_le_trans; [exact HMu|].
        apply Z.pow_le_mono_r; unfold n1, fexp64 in *; lia.
      + intros _. rewrite HE', Z.sub_diag, Z.mul_1_r in Hle. exact Hle.
      + lia. }
  destruct Hfacts as (Hea & Hms53 & Hsame & Hhigher).
  assert (Hms0 : 0 < shr_m mrs).
  { destruct (Z.eq_dec ea ey) as [Heq|Hne]; [specialize (Hsame Heq); lia|].
    assert (H : 2 ^ 52 <= shr_m mrs) by (apply Hhigher; lia).
    assert (0 < 2 ^ 52) by (apply Z.pow_pos_nonneg; lia). lia. }
  set (mr := round_nearest_even (shr_m mrs) (loc_of_shr_record mrs)).
  assert (Hmr : shr_m mrs <= mr <= 2 ^ 53).
  { destruct (round_nearest_even_cases mrs) as [Hsame' | [Hup _]];
      fold mr in Hsame' || fold mr in Hup; lia. }
  assert (Hdmr : Zdigits2 mr <= 54).
  { apply Zdigits2_le; [|lia]. split; [lia|].
    change (2 ^ 54) with (2 ^ 53 * 2). lia. }
  set (n2 := fexp64 (Zdigits2 mr + ea) - ea).
  assert (Hs : shr_fexp prec emax mr ea loc_Exact
               = shr (shr_record_of_loc mr loc_Exact) ea n2)
    by (unfold shr_fexp; rewrite fexp_64; reflexivity).
  rewrite Hs. clear Hs.
  destruct (shr_spec mr loc_Exact ea n2 ltac:(lia)) as [Hpos2 Hneg2].
  destruct (shr (shr_record_of_loc mr loc_Exact) ea n2) as [mrs2 eb] eqn:Es2.
  assert (Hfin : 0 < shr_m mrs2
                 /\ (ey < eb \/ (eb = ey /\ Zpos my <= shr_m mrs2))).
  { destruct (Z_lt_le_dec 0 n2) as [Hn|Hn].
    - destruct (Hpos2 Hn) as (H1 & H2 & _). cbn [fst snd] in H1, H2.
      assert (Hn2 : n2 = 1 /\ Zdigits2 mr = 54) by (unfold n2, fexp64 in *; lia).
      destruct Hn2 as [Hn2 Hd54].
      pose proof (Zdigits2_bounds mr ltac:(lia)) as [Hl _].
      rewrite Hd54 in Hl. change (54 - 1) with 53 in Hl.
      rewrite H2, Hn2. change (2 ^ 1) with 2.
      assert (Hh : 2 ^ 52 <= mr / 2).
      { apply Z.div_le_lower_bound; [lia|]. change (2 * 2 ^ 52) with (2 ^ 53). exact Hl. }
      assert (0 < 2 ^ 52) by (apply Z.pow_pos_nonneg; lia).
      split; [lia | left; lia].
    - specialize (Hneg2 Hn). inversion Hneg2; subst mrs2 eb.
      cbn [shr_record_of_loc shr_m]. split; [lia|].
      destruct (Z.eq_dec ea ey) as [Heq|Hne]; [right | left; lia].
      split; [exact Heq|]. specialize (Hsame Heq). lia. }
  destruct Hfin as (Hm0 & Hge).
  destruct (shr_m mrs2) as [|m|m]; try lia.
  destruct (eb <=? emax - prec); [exact Hge | exact I].
Qed.

Lemma binary_round_at_least S e my ey :
  bounded prec emax my ey = true ->
  e <= ey -> Zpos my * 2 ^ (ey - e) <= Zpos S ->
  at_least (binary_round prec emax false S e) my ey.
Proof.
  intros B He Hle. unfold binary_round.
  set (f := fexp prec emax (Zpos (digits2_pos S) + e)).
  destruct (shl_align_spec S e f) as [Hl Hr].
  destruct (shl_align S e f) as [mz ez]. cbn [fst snd] in Hl.
  destruct (Z_lt_le_dec f e) as [L|G].
  - destruct (Hl L) as [-> Hm]. apply binary_round_aux_at_least; try lia; trivial.
    rewrite Hm. replace (ey - f) with (ey - e + (e - f)) by lia.
    rewrite Z.pow_add_r, Z.mul_assoc by lia.
    apply Z.mul_le_mono_nonneg_r; [apply Z.pow_nonneg; lia | exact Hle].
  - specialize (Hr G). inversion Hr; subst mz ez.
    apply binary_round_aux_at_least; try lia; trivial.
Qed.

(** The upper bound of [binary_round_aux_at_most], for a mantissa with
    a remainder behind it: the exact value is then above the mantissa. *)
Lemma binary_round_aux_at_most_loc M E loc my ey :
  bounded prec emax my ey = true ->
  0 <= M -> E <= ey -> M <= Zpos my * 2 ^ (ey - E) ->
  (loc <> loc_Exact -> M < Zpos my * 2 ^ (ey - E)) ->
  at_most (binary_round_aux prec emax false M E loc) my ey.
Proof.
  intros B HM HE Hle Hstrict.
  destruct (bounded_facts _ _ B) as (_ & Ey & _).
  unfold binary_round_aux.
  set (n1 := fexp64 (Zdigits2 M + E) - E).
  assert (Hs : shr_fexp prec emax M E loc = shr (shr_record_of_loc M loc) E n1)
    by (unfold shr_fexp; rewrite fexp_64; reflexivity).
  rewrite Hs. clear Hs.
  pose proof (fexp64_le M E my ey B HM HE Hle) as Hn1.
  destruct (shr_spec M loc E n1 HM) as [Hpos Hneg].
  destruct (shr (shr_record_of_loc M loc) E n1) as [mrs ea] eqn:Es.
  set (mr := round_nearest_even (shr_m mrs) (loc_of_shr_record mrs)).
  assert (Hmr : ea <= ey /\ 0 <= mr <= Zpos my * 2 ^ (ey - ea)).
  { destruct (Z_lt_le_dec 0 n1) as [Hn|Hn].
    - destruct (Hpos Hn) as (H1 & H2 & H3). cbn [fst snd] in H1, H2, H3.
      assert (Hp : 0 < 2 ^ n1) by (apply Z.pow_pos_nonneg; lia).
      assert (Hms0 : 0 <= shr_m mrs) by (rewrite H2; apply Z.div_pos; lia).
      assert (Hmsle : shr_m mrs <= Zpos my * 2 ^ (ey - ea)).
      { rewrite H2, H1. apply shift_le; unfold n1 in *; lia. }
      split; [unfold n1 in *; lia|].
      destruct (round_nearest_even_cases mrs) as [Hsame | [Hup Hbit]];
        fold mr in Hsame || fold mr in Hup; [lia|].
      split; [lia|].
      destruct (Z.eq_dec (shr_m mrs) (Zpos my * 2 ^ (ey - ea))) as [Heq|Hne]; [|lia].
      exfalso. apply H3 in Hbit.
      assert (Hk : Zpos my * 2 ^ (ey - E) = 2 ^ n1 * (Zpos my * 2 ^ (ey - ea))).
      { rewrite H1. replace (ey - E) with (n1 + (ey - (E + n1))) by lia.
        rewrite Z.pow_add_r by (unfold n1 in *; lia). ring. }
      pose proof (Z.div_mod M (2 ^ n1) ltac:(lia)) as Hdm.
      rewrite <- H2, Heq, <- Hk in Hdm.
      assert (0 < 2 ^ (n1 - 1)) by (apply Z.pow_pos_nonneg; lia).
      lia.
    - specialize (Hneg Hn). inversion Hneg; subst mrs ea.
      assert (Hm : shr_m (shr_record_of_loc M loc) = M)
        by (destruct loc as [|[| |]]; reflexivity).
      split; [lia|].
      destruct (round_nearest_even_cases (shr_record_of_loc M loc))
        as [Hsame | [Hup Hbit]]; fold mr in Hsame || fold mr in Hup;
        rewrite Hm in *; [lia|].
      assert (Hloc : loc <> loc_Exact) by (intros ->; discriminate Hbit).
      specialize (Hstrict Hloc). lia. }
  destruct Hmr as (Hea & Hmr0 & Hmrle).
  set (n2 := fexp64 (Zdigits2 mr + ea) - ea).
  assert (Hs : shr_fexp prec emax mr ea loc_Exact = shr (shr_record_of_loc mr loc_Exact) ea n2)
    by (unfold shr_fexp; rewrite fexp_64; reflexivity).
  rewrite Hs. clear Hs.
  pose proof (fexp64_le mr ea my ey B Hmr0 Hea Hmrle) as Hn2.
  destruct (shr_spec mr loc_Exact ea n2 Hmr0) as [Hpos2 Hneg2].
  destruct (shr (shr_record_of_loc mr loc_Exact) ea n2) as [mrs2 eb] eqn:Es2.
  assert (Hfin : eb <= ey /\ 0 <= shr_m mrs2 <= Zpos my * 2 ^ (ey - eb)).
  { destruct (Z_lt_le_dec 0 n2) as [Hn|Hn].
    - destruct (Hpos2 Hn) as (H1 & H2 & _). cbn [fst snd] in H1, H2.
      assert (Hp : 0 < 2 ^ n2) by (apply Z.pow_pos_nonneg; lia).
      split; [unfold n2 in *; lia|]. rewrite H2, H1.
      split; [apply Z.div_pos; lia | apply shift_le; unfold n2 in *; lia].
    - specialize (Hneg2 Hn). inversion Hneg2; subst mrs2 eb.
      cbn [shr_record_of_loc shr_m]. lia. }
  destruct Hfin as (Heb & Hm0 & Hmle).
  destruct (shr_m mrs2) as [|m|m]; [exact I | | lia].
  assert (Hle' : (eb <=? emax - prec) = true)
    by (apply Z.leb_le; change (emax - prec) with 971; lia).
  rewrite Hle'. split; assumption.
Qed.

(** [binary_round] from an exponent above the bound's. *)
Lemma binary_round_at_most_high S e my ey :
  bounded prec emax my ey = true ->
  ey <= e -> Zpos S * 2 ^ (e - ey) <= Zpos my ->
  at_most (binary_round prec emax false S e) my ey.
Proof.
  intros B He Hle. unfold binary_round.
  pose proof (fexp64_canonical my ey B) as Hc.
  assert (Hd : Zdigits2 (Zpos S) + e <= Zdigits2 (Zpos my) + ey).
  { assert (H : Zdigits2 (Zpos S * 2 ^ (e - ey)) <= Zdigits2 (Zpos my)).
    { apply Zdigits2_mono. split; [|exact Hle].
      apply Z.mul_nonneg_nonneg; [lia | apply Z.pow_nonneg; lia]. }
    rewrite Zdigits2_mul_pow2 in H by lia. lia. }
  set (f := fexp prec emax (Zpos (digits2_pos S) + e)).
  assert (Hf : f <= ey).
  { unfold f. rewrite fexp_64.
    change (Zpos (digits2_pos S)) with (Zdigits2 (Zpos S)).
    unfold fexp64 in *. lia. }
  destruct (shl_align_spec S e f) as [Hl Hr].
  destruct (shl_align S e f) as [mz ez]. cbn [fst snd] in Hl.
  destruct (Z_lt_le_dec f e) as [L|G].
  - destruct (Hl L) as [-> Hm]. apply binary_round_aux_at_most; try lia; trivial.
    rewrite Hm. replace (e - f) with (e - ey + (ey - f)) by lia.
    rewrite Z.pow_add_r, Z.mul_assoc by lia.
    apply Z.mul_le_mono_nonneg_r; [apply Z.pow_nonneg; lia | exact Hle].
  - specialize (Hr G). inversion Hr; subst mz ez.
    assert (Heq : e = ey) by lia. subst e.
    rewrite Z.sub_diag, Z.mul_1_r in Hle.
    apply binary_round_aux_at_most; try lia; trivial.
    now rewrite Z.sub_diag, Z.mul_1_r.
Qed.

Lemma at_most_digits mx ex mb eb :
  ex <= eb -> Zpos mx <= Zpos mb * 2 ^ (eb - ex) ->
  Zdigits2 (Zpos mx) + ex <= Zdigits2 (Zpos mb) + eb.
Proof.
  intros He Hle.
  assert (H : Zdigits2 (Zpos mx) <= Zdigits2 (Zpos mb * 2 ^ (eb - ex)))
    by (apply Zdigits2_mono; lia).
  rewrite Zdigits2_mul_pow2 in H by lia. lia.
Qed.

(** The product with a positive number, below the exact product of the
    bound. *)
Lemma SFmul_at_most x mc ec mb eb mX eX :
  at_most x mb eb -> bounded prec emax mX eX = true ->
  eb + ec <= eX -> Zpos mb * Zpos mc = Zpos mX * 2 ^ (eX - eb - ec) ->
  at_most (SFmul prec emax x (S754_finite false mc ec)) mX eX.
Proof.
  intros Hx B He Hprod.
  destruct x as [[|]|sx| |[|] mx ex]; cbn [at_most] in Hx; try contradiction.
  - exact I.
  - destruct Hx as [Hex Hm]. cbn [SFmul xorb].
    apply binary_round_aux_at_most; trivial; try lia.
    rewrite Pos2Z.inj_mul.
    replace (eX - (ex + ec)) with (eX - eb - ec + (eb - ex)) by lia.
    rewrite Z.pow_add_r, Z.mul_assoc, <- Hprod by lia.
    assert (0 < 2 ^ (eb - ex)) by (apply Z.pow_pos_nonneg; lia). nia.
Qed.

(** The quotient by a positive number, below a bound whose exact
    product with the divisor the dividend is not above. *)
Lemma SFdiv_at_most x mc ec mb eb mX eX :
  at_most x mX eX -> bounded prec emax mb eb = true ->
  eb + ec <= eX -> Zpos mb * Zpos mc = Zpos mX * 2 ^ (eX - eb - ec) ->
  fexp64 (Zdigits2 (Zpos mX) + eX - (Zdigits2 (Zpos mc) + ec)) <= eb ->
  at_most (SFdiv prec emax x (S754_finite false mc ec)) mb eb.
Proof.
  intros Hx B He Hprod Hf.
  destruct x as [[|]|sx| |[|] mx ex]; cbn [at_most] in Hx; try contradiction.
  - exact I.
  - destruct Hx as [Hex Hm]. cbn [SFdiv xorb]. unfold SFdiv_core_binary.
    rewrite fexp_64.
    pose proof (at_most_digits mx ex mX eX Hex Hm) as Hd.
    set (e' := Z.min (fexp64 (Zdigits2 (Zpos mx) + ex - (Zdigits2 (Zpos mc) + ec)))
                     (ex - ec)).
    set (s := ex - ec - e').
    assert (He' : e' <= eb) by (unfold e', fexp64 in *; lia).
    assert (Hs : 0 <= s) by (unfold s, e'; lia).
    set (m' := match s with
               | Z0 => Zpos mx | Zpos _ => Z.shiftl (Zpos mx) s | Zneg _ => 0
               end).
    assert (Hm' : m' = Zpos mx * 2 ^ s).
    { unfold m'. destruct s eqn:Es; try lia. rewrite Z.shiftl_mul_pow2; lia. }
    clearbody m'.
    destruct (Z.div_eucl m' (Zpos mc)) as [q r] eqn:Ediv.
    assert (Hq : q = m' / Zpos mc) by (unfold Z.div; now rewrite Ediv).
    assert (Hr : r = m' mod Zpos mc) by (unfold Z.modulo; now rewrite Ediv).
    assert (Hqr : m' = Zpos mc * q + r /\ 0 <= r < Zpos mc).
    { subst q r. split; [apply Z.div_mod; lia | apply Z.mod_pos_bound; lia]. }
    destruct Hqr as [Hqr Hrb].
    assert (Hs2 : 0 < 2 ^ s) by (apply Z.pow_pos_nonneg; lia).
    set (K := Zpos mb * 2 ^ (eb - e')).
    assert (HK : m' <= K * Zpos mc).
    { unfold K. rewrite Hm'.
      replace (Zpos mb * 2 ^ (eb - e') * Zpos mc)
        with (Zpos mb * Zpos mc * 2 ^ (eb - e')) by ring.
      rewrite Hprod, <- Z.mul_assoc, <- Z.pow_add_r by lia.
      replace (eX - eb - ec + (eb - e')) with (eX - ex + s) by (unfold s; lia).
      rewrite Z.pow_add_r, Z.mul_assoc by lia.
      apply Z.mul_le_mono_nonneg_r; [lia | exact Hm]. }
    assert (Hq0 : 0 <= q) by (rewrite Hq; apply Z.div_pos; nia).
    apply binary_round_aux_at_most_loc; trivial.
    + fold K. rewrite Hq. apply Z.div_le_upper_bound; [lia|]. lia.
    + fold K. intros Hloc.
      assert (Hr0 : r <> 0).
      { intros ->. apply Hloc. unfold new_location, new_location_even, new_location_odd.
        destruct (Z.even (Zpos mc)); reflexivity. }
      nia.
Qed.

(** The sum with a positive number whose exponent is not below the
    bound's of the first. *)
Lemma SFadd_at_most x mc ec mX eX mB eB :
  at_most x mX eX -> bounded prec emax mB eB = true ->
  eX <= ec -> ec <= eB ->
  Zpos mX + Zpos mc * 2 ^ (ec - eX) <= Zpos mB * 2 ^ (eB - eX) ->
  at_most (SFadd prec emax x (S754_finite false mc ec)) mB eB.
Proof.
  intros Hx B He1 He2 Hsum.
  assert (Hp : 0 < 2 ^ (ec - eX)) by (apply Z.pow_pos_nonneg; lia).
  destruct x as [[|]|sx| |[|] mx ex]; cbn [at_most] in Hx; try contradiction.
  - cbn [SFadd at_most]. split; [exact He2|].
    assert (H : Zpos mc * 2 ^ (ec - eX) <= Zpos mB * 2 ^ (eB - ec) * 2 ^ (ec - eX)).
    { rewrite <- Z.mul_assoc, <- Z.pow_add_r by lia.
      replace (eB - ec + (ec - eX)) with (eB - eX) by lia. lia. }
    apply Z.mul_le_mono_pos_r in H; [exact H | exact Hp].
  - destruct Hx as [Hex Hm]. cbn [SFadd cond_Zopp].
    rewrite (Z.min_l ex ec) by lia.
    destruct (shl_align_spec mx ex ex) as [_ Hx]. rewrite (Hx (Z.le_refl ex)).
    clear Hx. cbn [fst].
    assert (Hc : Zpos (fst (shl_align mc ec ex)) = Zpos mc * 2 ^ (ec - ex)).
    { destruct (shl_align_spec mc ec ex) as [Hl Hr].
      destruct (Z_lt_le_dec ex ec) as [L|G].
      - now destruct (Hl L).
      - rewrite (Hr G). cbn [fst]. replace (ec - ex) with 0 by lia. lia. }
    assert (Hpos : Zpos mx + Zpos (fst (shl_align mc ec ex))
                   = Zpos (mx + fst (shl_align mc ec ex))) by reflexivity.
    rewrite Hpos. cbn [binary_normalize].
    apply binary_round_at_most; trivial; [lia|].
    rewrite Pos2Z.inj_add, Hc.
    assert (Hq : 0 < 2 ^ (eX - ex)) by (apply Z.pow_pos_nonneg; lia).
    replace (ec - ex) with (ec - eX + (eX - ex)) by lia.
    replace (eB - ex) with (eB - eX + (eX - ex)) by lia.
    rewrite !Z.pow_add_r, !Z.mul_assoc by lia. nia.
Qed.

(** The sum of two positive numbers is not below the second. *)
Lemma SFadd_at_least mx ex mc ec :
  bounded prec emax mc ec = true ->
  at_least (SFadd prec emax (S754_finite false mx ex) (S754_finite false mc ec))
    mc ec.
Proof.
  intros B. cbn [SFadd cond_Zopp].
  set (ez := Z.min ex ec).
  assert (Hc : Zpos (fst (shl_align mc ec ez)) = Zpos mc * 2 ^ (ec - ez)).
  { destruct (shl_align_spec mc ec ez) as [Hl Hr].
    destruct (Z_lt_le_dec ez ec) as [L|G].
    - now destruct (Hl L).
    - rewrite (Hr G). cbn [fst]. replace (ec - ez) with 0 by (unfold ez in *; lia). lia. }
  assert (Hpos : Zpos (fst (shl_align mx ex ez)) + Zpos (fst (shl_align mc ec ez))
                 = Zpos (fst (shl_align mx ex ez) + fst (shl_align mc ec ez)))
    by reflexivity.
  rewrite Hpos. cbn [binary_normalize].
  apply binary_round_at_least; trivial; [unfold ez; lia|].
  rewrite Pos2Z.inj_add, Hc. lia.
Qed.

(** The sum of two positive numbers is not below the first either. *)
Lemma SFadd_at_least_l mc ec mx ex :
  bounded prec emax mc ec = true ->
  at_least (SFadd prec emax (S754_finite false mc ec) (S754_finite false mx ex))
    mc ec.
Proof.
  intros B. cbn [SFadd cond_Zopp].
  set (ez := Z.min ec ex).
  assert (Hc : Zpos (fst (shl_align mc ec ez)) = Zpos mc * 2 ^ (ec - ez)).
  { destruct (shl_align_spec mc ec ez) as [Hl Hr].
    destruct (Z_lt_le_dec ez ec) as [L|G].
    - now destruct (Hl L).
    - rewrite (Hr G). cbn [fst]. replace (ec - ez) with 0 by (unfold ez in *; lia). lia. }
  assert (Hpos : Zpos (fst (shl_align mc ec ez)) + Zpos (fst (shl_align mx ex ez))
                 = Zpos (fst (shl_align mc ec ez) + fst (shl_align mx ex ez)))
    by reflexivity.
  rewrite Hpos. cbn [binary_normalize].
  apply binary_round_at_least; trivial; [unfold ez; lia|].
  rewrite Pos2Z.inj_add, Hc. lia.
Qed.

Definition two52 : positive := 4503599627370496.

(** A number that is not below 2^52, less 2^52, is not negative. *)
Lemma SFsub_two52_sign ma ea :
  bounded prec emax ma ea = true ->
  at_least (S754_finite false ma ea) two52 0 ->
  Sign.SFnot_negative
    (SFsub prec emax (S754_finite false ma ea) (S754_finite false two52 0)).
Proof.
  intros B Hge. cbn [at_least] in Hge.
  destruct (bounded_facts _ _ B) as (D & E & N).
  pose proof (Zdigits2_bounds (Zpos ma) ltac:(lia)) as [L _].
  cbn [SFsub cond_Zopp]. rewrite (Z.min_r ea 0) by lia.
  destruct (shl_align_spec two52 0 0) as [_ Hc]. rewrite (Hc (Z.le_refl 0)).
  clear Hc. cbn [fst].
  assert (Ha : Zpos (fst (shl_align ma ea 0)) = Zpos ma * 2 ^ ea).
  { destruct (shl_align_spec ma ea 0) as [Hl Hr].
    destruct (Z_lt_le_dec 0 ea) as [L0|G0].
    - destruct (Hl L0) as [_ H]. now rewrite H, Z.sub_0_r.
    - rewrite (Hr G0). cbn [fst]. replace ea with 0 by lia. lia. }
  rewrite Ha.
  assert (Hd : 0 <= Zpos ma * 2 ^ ea - Zpos two52).
  { destruct Hge as [Hlt | [-> Hm]]; [|lia].
    assert (Zdigits2 (Zpos ma) = 53) by lia.
    assert (H52 : 2 ^ 52 <= Zpos ma) by (replace 52 with (Zdigits2 (Zpos ma) - 1) by lia; exact L).
    assert (0 < 2 ^ ea) by (apply Z.pow_pos_nonneg; lia).
    change (Zpos two52) with (2 ^ 52). nia. }
  destruct (Zpos ma * 2 ^ ea - Zpos two52) as [|d|d]; try lia; [exact I|].
  cbn [binary_normalize]. apply Sign.binary_round_sign.
Qed.

(** A number between 2^52 and 2^52 + N, less 2^52, is at most N. *)
Lemma SFsub_two52_at_most ma N mX eX :
  Zpos two52 <= Zpos ma <= Zpos two52 + N ->
  bounded prec emax mX eX = true -> eX <= 0 -> Zpos mX = N * 2 ^ (- eX) ->
  at_most (SFsub prec emax (S754_finite false ma 0) (S754_finite false two52 0))
    mX eX.
Proof.
  intros Hma B He HX. cbn [SFsub cond_Zopp]. rewrite Z.min_id.
  destruct (shl_align_spec two52 0 0) as [_ Hc]. rewrite (Hc (Z.le_refl 0)).
  destruct (shl_align_spec ma 0 0) as [_ Ha]. rewrite (Ha (Z.le_refl 0)).
  clear Hc Ha. cbn [fst].
  destruct (Zpos ma - Zpos two52) as [|d|d] eqn:Ed; try lia; [exact I|].
  cbn [binary_normalize]. apply binary_round_at_most_high; trivial.
  rewrite Z.sub_0_l, HX.
  apply Z.mul_le_mono_nonneg_r; [apply Z.pow_nonneg; lia | lia].
Qed.

End Bounds.

(** ** [np.rint] and [round] between bounds *)

Module Rounding.

Local Open Scope float_scope.

Lemma two52_spec : Prim2SF 4503599627370496 = S754_finite false Bounds.two52 0.
Proof. reflexivity. Qed.

(** The last branch of [np.rint] is taken by the positive numbers below
    2^52. *)
Lemma small_positive y :
  is_nan y = false -> (4503599627370496 <=? abs y) = false ->
  (y =? 0) = false -> (y <? 0) = false ->
  exists m e, Prim2SF y = S754_finite false m e.
Proof.
  unfold is_nan. rewrite leb_spec, abs_spec, !eqb_spec, ltb_spec, two52_spec.
  change (Prim2SF 0) with (S754_zero false).
  destruct (Prim2SF y) as [s|[|]| |[|] m e]; cbn; try discriminate.
  intros _ _ _ _. now exists m, e.
Qed.

Lemma rint_not_negative y : Sign.not_negative y -> Sign.not_negative (Np.rint y).
Proof.
  intros Hy. unfold Np.rint.
  destruct (is_nan y) eqn:Hn; [exact Hy|].
  destruct (4503599627370496 <=? abs y) eqn:Hbig; [exact Hy|].
  destruct (y =? 0) eqn:Hz; [exact Hy|].
  unfold Sign.not_negative in Hy. rewrite Hy.
  destruct (small_positive y Hn Hbig Hz Hy) as (m & e & Hs).
  apply Sign.not_negative_spec.
  pose proof (Prim2SF_valid (y + 4503599627370496)) as V.
  rewrite sub_spec, two52_spec.
  rewrite add_spec, Hs, two52_spec in V |- *.
  unfold SF64sub, SF64add in V |- *.
  pose proof (Bounds.SFadd_at_least m e Bounds.two52 0 eq_refl) as Hge.
  destruct (SFadd prec emax (S754_finite false m e) (S754_finite false Bounds.two52 0))
    as [s|[|]| |[|] ma ea]; cbn [Bounds.at_least] in Hge; try contradiction.
  - exact I.
  - apply Bounds.SFsub_two52_sign; [exact V | exact Hge].
Qed.

(** The powers of ten [round] scales by are above 0. *)
Lemma scale_positive (ndigits : nat) :
  (ndigits <= 18)%nat -> (0 <? float_of_Z (10 ^ Z.of_nat ndigits)) = true.
Proof.
  intros Hn.
  assert (H : forallb (fun n => 0 <? float_of_Z (10 ^ Z.of_nat n)) (seq 0 19) = true)
    by (vm_compute; reflexivity).
  rewrite forallb_forall in H. apply H. apply in_seq. lia.
Qed.

(** [round] keeps a number that is not negative not negative. *)
Lemma round_not_negative x (ndigits : nat) :
  (ndigits <= 18)%nat ->
  Sign.not_negative x -> Sign.not_negative (Np.round x ndigits).
Proof.
  intros Hn Hx. unfold Np.round.
  pose proof (scale_positive ndigits Hn) as Hf.
  set (f := float_of_Z (10 ^ Z.of_nat ndigits)) in *. clearbody f.
  apply Sign.div; [|exact Hf]. apply rint_not_negative.
  apply Sign.mul; [exact Hx|]. unfold Sign.not_negative.
  now apply F.ltb_asym.
Qed.

(** [np.rint] does not go above an integer below 2^52 that the number is
    not above. *)
Lemma rint_at_most y (N : Z) mX eX mB :
  Binary64.at_most (Prim2SF y) mX eX ->
  bounded prec emax mX eX = true -> (eX <= 0)%Z ->
  Zpos mX = (N * 2 ^ (- eX))%Z ->
  bounded prec emax mB 0 = true -> Zpos mB = (Zpos Bounds.two52 + N)%Z ->
  Binary64.at_most (Prim2SF (Np.rint y)) mX eX.
Proof.
  intros Hy BX HeX HX BB HB. unfold Np.rint.
  destruct (is_nan y) eqn:Hn; [exact Hy|].
  destruct (4503599627370496 <=? abs y) eqn:Hbig; [exact Hy|].
  destruct (y =? 0) eqn:Hz; [exact Hy|].
  assert (Hneg : (y <? 0) = false).
  { rewrite ltb_spec. change (Prim2SF 0) with (S754_zero false).
    destruct (Prim2SF y) as [[|]|s| |[|] m e]; cbn [Binary64.at_most] in Hy;
      try contradiction; reflexivity. }
  rewrite Hneg.
  destruct (small_positive y Hn Hbig Hz Hneg) as (m & e & Hs).
  pose proof (Prim2SF_valid (y + 4503599627370496)) as V.
  rewrite sub_spec, two52_spec.
  rewrite add_spec, two52_spec in V |- *.
  unfold SF64sub, SF64add in V |- *.
  assert (Hle : Binary64.at_most
                  (SFadd prec emax (Prim2SF y) (S754_finite false Bounds.two52 0))
                  mB 0).
  { apply (Bounds.SFadd_at_most _ Bounds.two52 0 mX eX mB 0); trivial; try lia.
    replace (0 - eX)%Z with (- eX)%Z by lia.
    rewrite HB, Z.mul_add_distr_r, <- HX. lia. }
  rewrite Hs in V, Hle |- *.
  pose proof (Bounds.SFadd_at_least m e Bounds.two52 0 eq_refl) as Hge.
  destruct (SFadd prec emax (S754_finite false m e) (S754_finite false Bounds.two52 0))
    as [s|[|]| |[|] ma ea]; cbn [Bounds.at_least Binary64.at_most] in Hge, Hle;
    try contradiction.
  destruct Hle as [Hea Hma].
  assert (Ea : ea = 0%Z) by lia. subst ea.
  rewrite Z.sub_diag, Z.mul_1_r in Hma.
  apply (Bounds.SFsub_two52_at_most ma N mX eX); trivial. lia.
Qed.

(** A number that is above 0 and not above a positive binary64 number. *)
Lemma positive_at_most x b mb eb :
  Prim2SF b = S754_finite false mb eb ->
  (0 <? x) = true -> (x <=? b) = true ->
  Binary64.at_most (Prim2SF x) mb eb.
Proof.
  intros Hb H0 Hle. rewrite ltb_spec in H0. rewrite leb_spec, Hb in Hle.
  change (Prim2SF 0) with (S754_zero false) in H0.
  pose proof (Prim2SF_valid x) as Vx. pose proof (Prim2SF_valid b) as Vb.
  rewrite Hb in Vb. cbn [valid_binary] in Vb.
  destruct (Prim2SF x) as [s|[|]| |[|] m e]; try discriminate H0;
    try discriminate Hle.
  cbn [valid_binary] in Vx. cbn [Binary64.at_most].
  destruct (Binary64.bounded_facts _ _ Vx) as (Dx & Ex & Nx).
  destruct (Binary64.bounded_facts _ _ Vb) as (Db & Eb & Nb).
  pose proof (Binary64.Zdigits2_bounds (Zpos m) ltac:(lia)) as [_ Ux].
  pose proof (Binary64.Zdigits2_bounds (Zpos mb) ltac:(lia)) as [Lb _].
  unfold SFleb, SFcompare in Hle.
  destruct (Z.compare_spec e eb) as [E|L|G]; try discriminate Hle.
  - subst e. split; [lia|]. rewrite Z.sub_diag, Z.mul_1_r.
    change (Pos.compare_cont Eq m mb) with (Pos.compare m mb) in Hle.
    destruct (Pos.compare_spec m mb); try discriminate Hle; lia.
  - split; [lia|].
    assert (Hdb : Zdigits2 (Zpos mb) = 53%Z) by lia.
    rewrite Hdb in Lb. change (53 - 1)%Z with 52%Z in Lb.
    assert (Hx53 : (Zpos m < 2 ^ 53)%Z).
    { eapply Z.lt_le_trans; [exact Ux|]. apply Z.pow_le_mono_r; lia. }
    assert (H2 : (2 <= 2 ^ (eb - e))%Z)
      by (change 2%Z with (2 ^ 1)%Z at 1; apply Z.pow_le_mono_r; lia).
    apply Z.lt_le_incl. apply Z.lt_le_trans with (2 ^ 52 * 2)%Z; [exact Hx53|].
    apply Z.mul_le_mono_nonneg; lia.
Qed.

(** What is at most a binary64 number is between 0 and that number. *)
Lemma at_most_leb x b mb eb :
  Prim2SF b = S754_finite false mb eb ->
  Binary64.at_most (Prim2SF x) mb eb ->
  (0 <=? x) = true /\ (x <=? b) = true.
Proof.
  intros Hb Hx. rewrite !leb_spec, Hb.
  change (Prim2SF 0) with (S754_zero false).
  pose proof (Prim2SF_valid x) as Vx. pose proof (Prim2SF_valid b) as Vb.
  rewrite Hb in Vb. cbn [valid_binary] in Vb.
  destruct (Prim2SF x) as [[|]|s| |[|] m e]; cbn [Binary64.at_most] in Hx;
    try contradiction.
  - split; reflexivity.
  - destruct Hx as [He Hm]. split; [reflexivity|].
    unfold SFleb, SFcompare.
    destruct (Z.compare_spec e eb) as [E|L|G]; [|reflexivity|lia].
    subst e. rewrite Z.sub_diag, Z.mul_1_r in Hm.
    change (Pos.compare_cont Eq m mb) with (Pos.compare m mb).
    destruct (Pos.compare_spec m mb); try reflexivity. lia.
Qed.

Definition hundred : positive := 7036874417766400.
Definition ten : positive := 5629499534213120.
Definition thousand : positive := 8796093022208000.

Lemma hundred_spec : Prim2SF 100 = S754_finite false hundred (-46).
Proof. reflexivity. Qed.

(** [round(x, 1)] of a number between 0 and 100 is at most 100. *)
Lemma round1_at_most_100 x :
  Binary64.at_most (Prim2SF x) hundred (-46) ->
  Binary64.at_most (Prim2SF (Np.round x 1)) hundred (-46).
Proof.
  intros Hx. unfold Np.round.
  change (float_of_Z (10 ^ Z.of_nat 1)) with 10.
  assert (H10 : Prim2SF 10 = S754_finite false ten (-49)) by reflexivity.
  rewrite div_spec, H10. unfold SF64div.
  apply (Bounds.SFdiv_at_most _ ten (-49) hundred (-46) thousand (-43));
    try reflexivity; [|discriminate|discriminate].
  apply (rint_at_most _ 1000 thousand (-43) 4503599627371496);
    try reflexivity; [|discriminate].
  rewrite mul_spec, H10. unfold SF64mul.
  apply (Bounds.SFmul_at_most _ ten (-49) hundred (-46) thousand (-43));
    try reflexivity; [exact Hx | discriminate].
Qed.

(** The clamp [max(0, min(100, v))] is +0 or a positive number that is
    at most 100, whatever [v] is; it is 100 when [v] is NaN. *)
Lemma clamp_at_most v :
  Binary64.at_most (Prim2SF (py_max 0 (py_min 100 v))) hundred (-46).
Proof.
  unfold py_max. destruct (0 <? py_min 100 v) eqn:H0; [|exact I].
  unfold py_min in *. destruct (v <? 100) eqn:Hv.
  - apply (positive_at_most v 100); [reflexivity | exact H0 | now apply F.ltb_leb].
  - cbn. split; [lia|]. reflexivity.
Qed.

Lemma clamp_nan v : is_nan v = true -> py_max 0 (py_min 100 v) = 100.
Proof.
  intros Hn. unfold py_max, py_min.
  assert (Hv : (v <? 100) = false).
  { destruct (v <? 100) eqn:H; [|reflexivity].
    assert (Hf : is_nan v = false).
    { apply F.is_nan_key. rewrite F.ltb_iff in H.
      destruct H as (a & b & Ha & _). now exists a. }
    congruence. }
  rewrite Hv. reflexivity.
Qed.

End Rounding.

(** ** The reported confidence and radius *)

Section Confidence.

Context {ext : External}.
Variable self : RealExoplanetDetector.

Local Open Scope string_scope.
Local Open Scope float_scope.

Lemma is_nan_spec x : is_nan x = true <-> Prim2SF x = S754_nan.
Proof.
  unfold is_nan. rewrite negb_true_iff, eqb_spec.
  destruct (Prim2SF x) as [s|[|]| |[|] m e]; cbn;
    rewrite ?Z.compare_refl, ?Pos.compare_cont_refl; cbn;
    split; try discriminate; reflexivity.
Qed.

(** NaN goes through the arithmetic, [np.rint] and [round]. *)
Lemma is_nan_sub x y : is_nan x = true -> is_nan (x - y) = true.
Proof.
  rewrite !is_nan_spec, sub_spec. intros ->. reflexivity.
Qed.

Lemma is_nan_div x y : is_nan x = true -> is_nan (x / y) = true.
Proof.
  rewrite !is_nan_spec. apply Special.nan_div_l.
Qed.

Lemma is_nan_mul x y : is_nan x = true -> is_nan (x * y) = true.
Proof.
  rewrite !is_nan_spec. apply Special.nan_mul_l.
Qed.

Lemma is_nan_round x (ndigits : nat) :
  is_nan x = true -> is_nan (Np.round x ndigits) = true.
Proof.
  intros H. unfold Np.round. apply is_nan_div. unfold Np.rint.
  now rewrite (is_nan_mul x _ H), (is_nan_mul x _ H).
Qed.

(** The confidence of a significance, by its definition. *)
Lemma confidence_percent_value (time flux model_flux : list float)
    (significance : Significance) :
  calculate_detection_significance time flux model_flux = Ok significance ->
  exists raw,
    snr significance = Np.round raw 2
    /\ detection_significance_sigma significance = Np.round raw 1
    /\ confidence_percent significance
       = Np.round (py_max 0 (py_min 100 ((raw - 3) / 7 * 100))) 1.
Proof.
  unfold calculate_detection_significance.
  destruct (Np.broadcast sub flux model_flux) as [residuals|e];
    cbn [Py.bind]; [|discriminate].
  destruct (Np.amax model_flux) as [highest|e]; cbn [Py.bind]; [|discriminate].
  destruct (Np.amin model_flux) as [lowest|e]; cbn [Py.bind]; [|discriminate].
  intros H. inversion H. cbn [snr detection_significance_sigma confidence_percent].
  eexists. repeat split; reflexivity.
Qed.

Lemma confidence_percent_bounds (time flux model_flux : list float)
    (significance : Significance) :
  calculate_detection_significance time flux model_flux = Ok significance ->
  (0 <=? confidence_percent significance) = true
  /\ (confidence_percent significance <=? 100) = true.
Proof.
  intros H.
  destruct (confidence_percent_value _ _ _ _ H) as (raw & _ & _ & ->).
  apply (Rounding.at_most_leb _ 100 Rounding.hundred (-46) Rounding.hundred_spec).
  apply Rounding.round1_at_most_100, Rounding.clamp_at_most.
Qed.

(** X10.  The confidence the significance evaluator returns lies between
    0 and 100 and is never NaN, whatever the flux and the model hold: the
    clamp [max(0, min(100, v))] answers a NaN with 100, and rounding to
    one decimal stays within the bounds.  So a signal-to-noise ratio that
    is NaN, as from a flat model without noise, is reported with the
    confidence 100. *)
Theorem confidence_range (time flux model_flux : list float)
    (significance : Significance) :
  calculate_detection_significance time flux model_flux = Ok significance ->
  (0 <=? confidence_percent significance) = true
  /\ (confidence_percent significance <=? 100) = true
  /\ exists raw,
       snr significance = Np.round raw 2
       /\ (is_nan raw = true ->
           is_nan (snr significance) = true
           /\ confidence_percent significance = 100).
Proof.
  intros H.
  destruct (confidence_percent_bounds _ _ _ _ H) as [H0 H100].
  split; [exact H0|]. split; [exact H100|].
  destruct (confidence_percent_value _ _ _ _ H) as (raw & Hsnr & _ & Hc).
  exists raw. split; [exact Hsnr|]. intros Hn.
  split; [rewrite Hsnr; now apply is_nan_round|].
  rewrite Hc, Rounding.clamp_nan; [reflexivity|].
  apply is_nan_mul, is_nan_div, is_nan_sub, Hn.
Qed.

(** X11.  Every result of [analyze_lightcurve] that is not an error
    carries a confidence between 0 and 100: 15.0 without a signal, 25.0
    after a failed fit, and the confidence of the significance evaluator
    after a completed run.  Only an error result has no confidence. *)
Theorem reported_confidence_range (header : string)
    (data : list (float * float)) :
  match get "confidence" (snd (analyze_lightcurve self header data)) with
  | Some (PyFloat c) => (0 <=? c) = true /\ (c <=? 100) = true
  | Some _ => False
  | None =>
      exists msg, snd (analyze_lightcurve self header data) = error_result msg
  end.
Proof.
  assert (Herr : forall msg,
            match get "confidence" (error_result msg) with
            | Some (PyFloat c) => (0 <=? c) = true /\ (c <=? 100) = true
            | Some _ => False
            | None => exists msg', error_result msg = error_result msg'
            end).
  { intros msg. cbn. now exists msg. }
  rewrite analyze_lightcurve_stages.
  unfold run_to_search, run_from_search, failed_result.
  destruct (contains "time" (lower header) && contains "flux" (lower header));
    [|apply Herr].
  destruct (List.length data <? 100)%nat; [apply Herr|].
  destruct (preprocess_lightcurve _ _) as [[time flux]|e]; [|apply Herr].
  destruct (List.length time <? 50)%nat; [apply Herr|].
  destruct (box_least_squares self time flux) as [bls|e]; [|apply Herr].
  destruct (bls_power bls <? detection_threshold self).
  { cbn. split; reflexivity. }
  destruct (fit_transit_model _ _ _ _ _ _) as [[fit|]|e]; [| |apply Herr].
  - destruct (calculate_detection_significance _ _ _) as [sig|e] eqn:Hsig;
      [|apply Herr].
    cbn [snd]. unfold fitted_result.
    change (get "confidence" (PyDict ?l))
      with (lookup "confidence" l).
    cbn [lookup String.eqb Ascii.eqb Bool.eqb].
    now apply (confidence_percent_bounds time flux (fit_model_flux fit)).
  - cbn. split; reflexivity.
Qed.

(** X12.  The radius the property calculator reports is never negative
    when the stellar radius is not: for a negative depth the square root
    is NaN and so is the radius, and nothing is raised. *)
Theorem planet_radius_not_negative (depth period stellar_radius : float) :
  (stellar_radius <? 0) = false ->
  exists radius,
    get "radius_earth" (calculate_planet_properties depth period stellar_radius)
    = Some (PyFloat radius)
    /\ (radius <? 0) = false
    /\ ((depth <? 0) = true -> is_nan radius = true).
Proof.
  intros Hs. unfold calculate_planet_properties.
  eexists. split; [reflexivity|]. split.
  - apply Rounding.round_not_negative; [lia|].
    apply Sign.mul; [|reflexivity].
    apply Sign.mul; [apply Sign.sqrt_not_negative | exact Hs].
  - intros Hd. apply is_nan_round, is_nan_mul, is_nan_mul.
    apply is_nan_spec. rewrite sqrt_spec. rewrite ltb_spec in Hd.
    change (Prim2SF 0) with (S754_zero false) in Hd.
    destruct (Prim2SF depth) as [s|[|]| |[|] m e]; try discriminate Hd;
      reflexivity.
Qed.

End Confidence.

(** ** The sign of the signal-to-noise ratio *)

Module SignClear.

Local Open Scope float_scope.

(** The sign bit is clear: +0, a positive number, +infinity, or NaN. *)
Definition SFsign_clear (x : spec_float) : Prop :=
  match x with
  | S754_zero true | S754_infinity true | S754_finite true _ _ => False
  | _ => True
  end.

Definition sign_clear (x : float) : Prop := SFsign_clear (Prim2SF x).

Lemma binary_round_aux_clear m e l :
  SFsign_clear (binary_round_aux prec emax false m e l).
Proof.
  unfold binary_round_aux.
  destruct (shr_fexp prec emax m e l) as [mrs e1].
  destruct (shr_fexp prec emax _ e1 loc_Exact) as [mrs2 e2].
  destruct (shr_m mrs2); [exact I | | exact I].
  destruct (e2 <=? emax - prec)%Z; exact I.
Qed.

Lemma binary_round_clear m e : SFsign_clear (binary_round prec emax false m e).
Proof.
  unfold binary_round. destruct (shl_align _ _ _). apply binary_round_aux_clear.
Qed.

Lemma clear_add x y : sign_clear x -> sign_clear y -> sign_clear (x + y).
Proof.
  unfold sign_clear. rewrite add_spec. unfold SF64add.
  destruct (Prim2SF x) as [[|]|[|]| |[|] mx ex];
    destruct (Prim2SF y) as [[|]|[|]| |[|] my ey];
    cbn [SFsign_clear]; try contradiction; intros _ _; try exact I.
  cbn [SFadd cond_Zopp]. apply binary_round_clear.
Qed.

Lemma clear_square x : sign_clear (x * x).
Proof.
  unfold sign_clear. rewrite mul_spec. unfold SF64mul.
  destruct (Prim2SF x) as [[|]|[|]| |sx mx ex]; cbn [SFmul xorb]; try exact I.
  replace (xorb sx sx) with false by (now destruct sx).
  apply binary_round_aux_clear.
Qed.

Lemma clear_div x y : sign_clear x -> sign_clear y -> sign_clear (x / y).
Proof.
  unfold sign_clear. rewrite div_spec. unfold SF64div.
  destruct (Prim2SF x) as [[|]|[|]| |[|] mx ex];
    destruct (Prim2SF y) as [[|]|[|]| |[|] my ey];
    cbn [SFsign_clear]; try contradiction; intros _ _; try exact I.
  cbn [SFdiv xorb].
  destruct (SFdiv_core_binary _ _ _ _ _ _) as [[mz ez] lz].
  apply binary_round_aux_clear.
Qed.

Lemma sqrt_clear x : sign_clear x -> sign_clear (sqrt x).
Proof.
  unfold sign_clear. rewrite sqrt_spec. unfold SF64sqrt.
  destruct (Prim2SF x) as [[|]|[|]| |[|] mx ex]; cbn [SFsign_clear];
    try contradiction; intros _; try exact I.
  cbn [SFsqrt].
  destruct (SFsqrt_core_binary _ _ _ _) as [[mz ez] lz].
  apply binary_round_aux_clear.
Qed.

(** The length of an array, as a float. *)
Lemma clear_size (a : list float) : sign_clear (Np.size a).
Proof.
  unfold Np.size, float_of_nat, float_of_Z, sign_clear.
  destruct (Z.of_nat (List.length a)) as [|p|p] eqn:E; [exact I | | lia].
  rewrite of_uint63_spec.
  pose proof (Uint63.to_Z_bounded (Uint63.of_Z (Zpos p))) as [H0 _].
  destruct (Uint63.to_Z (Uint63.of_Z (Zpos p))) as [|q|q]; [exact I | | lia].
  cbn [binary_normalize]. apply binary_round_clear.
Qed.

Lemma clear_sum (a : list float) : Forall sign_clear a -> sign_clear (Np.sum a).
Proof.
  unfold Np.sum. intros H.
  assert (H0 : sign_clear 0) by exact I.
  revert H0. generalize 0. induction H as [|x a Hx Ha IH]; intros acc Hacc.
  - exact Hacc.
  - cbn [fold_left]. apply IH. now apply clear_add.
Qed.

(** [np.std] is never -0 and never negative. *)
Lemma clear_std (a : list float) : sign_clear (Np.std a).
Proof.
  unfold Np.std. apply sqrt_clear. apply clear_div; [|apply clear_size].
  apply clear_sum. apply Forall_map. apply Forall_forall. intros x _. apply clear_square.
Qed.

(** A quotient by a number whose sign bit is clear. *)
Lemma quotient_not_negative x y :
  Sign.not_negative x -> sign_clear y -> Sign.not_negative (x / y).
Proof.
  rewrite !Sign.not_negative_spec. unfold sign_clear.
  rewrite div_spec. unfold SF64div.
  destruct (Prim2SF x) as [[|]|[|]| |[|] mx ex];
    destruct (Prim2SF y) as [[|]|[|]| |[|] my ey];
    cbn [SFsign_clear Sign.SFnot_negative]; try contradiction; intros _ _;
    try exact I.
  cbn [SFdiv xorb].
  destruct (SFdiv_core_binary _ _ _ _ _ _) as [[mz ez] lz].
  apply Sign.binary_round_aux_sign.
Qed.

End SignClear.

Module Difference.

Import Binary64.

Local Open Scope Z_scope.

Lemma shl_align_value m e ez :
  ez <= e -> Zpos (fst (shl_align m e ez)) = Zpos m * 2 ^ (e - ez).
Proof.
  intros He. destruct (shl_align_spec m e ez) as [Hl Hr].
  destruct (Z_lt_le_dec ez e) as [L|G].
  - now destruct (Hl L).
  - rewrite (Hr G). cbn [fst]. replace (e - ez) with 0 by lia. lia.
Qed.

(** Two positive binary64 numbers in order, brought to one exponent. *)
Lemma aligned_le m1 e1 m2 e2 ez :
  bounded prec emax m1 e1 = true -> bounded prec emax m2 e2 = true ->
  SFleb (S754_finite false m1 e1) (S754_finite false m2 e2) = true ->
  ez = Z.min e1 e2 ->
  Zpos (fst (shl_align m1 e1 ez)) <= Zpos (fst (shl_align m2 e2 ez)).
Proof.
  intros B1 B2 Hle ->.
  destruct (bounded_facts _ _ B1) as (D1 & E1 & N1).
  destruct (bounded_facts _ _ B2) as (D2 & E2 & N2).
  pose proof (Zdigits2_bounds (Zpos m1) ltac:(lia)) as [_ U1].
  pose proof (Zdigits2_bounds (Zpos m2) ltac:(lia)) as [L2 _].
  rewrite !shl_align_value by lia.
  unfold SFleb, SFcompare in Hle.
  destruct (Z.compare_spec e1 e2) as [E|L|G]; try discriminate Hle.
  - subst e2. rewrite Z.min_id, Z.sub_diag, !Z.mul_1_r.
    change (Pos.compare_cont Eq m1 m2) with (Pos.compare m1 m2) in Hle.
    destruct (Pos.compare_spec m1 m2); try discriminate Hle; lia.
  - rewrite Z.min_l, Z.sub_diag, Z.mul_1_r by lia.
    assert (Hd2 : Zdigits2 (Zpos m2) = 53) by lia.
    rewrite Hd2 in L2. change (53 - 1) with 52 in L2.
    assert (H1 : Zpos m1 < 2 ^ 53)
      by (eapply Z.lt_le_trans; [exact U1 | apply Z.pow_le_mono_r; lia]).
    assert (H2 : 2 <= 2 ^ (e2 - e1))
      by (change 2 with (2 ^ 1) at 1; apply Z.pow_le_mono_r; lia).
    apply Z.lt_le_incl. apply Z.lt_le_trans with (2 ^ 52 * 2); [exact H1|].
    apply Z.mul_le_mono_nonneg; lia.
Qed.

(** The order of two negative numbers is the opposite of the order of
    their magnitudes. *)
Lemma leb_negative m1 e1 m2 e2 :
  SFleb (S754_finite true m1 e1) (S754_finite true m2 e2)
  = SFleb (S754_finite false m2 e2) (S754_finite false m1 e1).
Proof.
  unfold SFleb, SFcompare.
  change (Pos.compare_cont Eq m1 m2) with (Pos.compare m1 m2).
  change (Pos.compare_cont Eq m2 m1) with (Pos.compare m2 m1).
  rewrite (Z.compare_antisym e1 e2), (Pos.compare_antisym m1 m2).
  destruct (e1 ?= e2); cbn [CompOpp]; try reflexivity;
    destruct (m1 ?= m2)%positive; reflexivity.
Qed.

Lemma normalize_not_negative d e :
  0 <= d -> Sign.SFnot_negative (binary_normalize prec emax d e false).
Proof.
  intros Hd. destruct d as [|p|p]; [exact I | | lia].
  cbn [binary_normalize]. apply Sign.binary_round_sign.
Qed.

(** The difference of two numbers in order is not negative. *)
Lemma SFsub_not_negative hi lo :
  valid_binary hi = true -> valid_binary lo = true ->
  SFleb lo hi = true -> Sign.SFnot_negative (SFsub prec emax hi lo).
Proof.
  intros Vh Vl Hle.
  destruct lo as [sl|[|]| |[|] ml el]; destruct hi as [sh|[|]| |[|] mh eh];
    try discriminate Hle; try exact I;
    try (destruct sl; exact I); try (destruct sh; exact I);
    try (destruct sl, sh; exact I).
  - (* both negative *)
    cbn [valid_binary] in Vh, Vl. rewrite leb_negative in Hle.
    cbn [SFsub cond_Zopp]. apply normalize_not_negative.
    pose proof (aligned_le mh eh ml el (Z.min eh el) Vh Vl Hle eq_refl). lia.
  - (* a positive number less a negative one *)
    cbn [SFsub cond_Zopp]. apply normalize_not_negative. lia.
  - (* both positive *)
    cbn [valid_binary] in Vh, Vl.
    cbn [SFsub cond_Zopp]. apply normalize_not_negative.
    pose proof (aligned_le ml el mh eh (Z.min eh el) Vl Vh Hle (Z.min_comm _ _)).
    lia.
Qed.

End Difference.

Section SignalToNoise.

Context {ext : External}.

Local Open Scope float_scope.

(** The greatest and the least of an array: both NaN, or in order. *)
Definition in_order (hi lo : float) : Prop :=
  (is_nan hi = true /\ is_nan lo = true) \/ (lo <=? hi) = true.

Lemma in_order_refl x : in_order x x.
Proof.
  destruct (is_nan x) eqn:Hn; [left; now split | right; now apply F.leb_refl].
Qed.

Lemma extremes_step hi lo x :
  in_order hi lo -> in_order (Np.maximum hi x) (Np.minimum lo x).
Proof.
  unfold Np.maximum, Np.minimum. intros [[Hh Hl] | Hle].
  - rewrite Hh, Hl, !orb_true_r. left. now split.
  - rewrite (F.leb_is_nan_r _ _ Hle), (F.leb_is_nan_l _ _ Hle), !orb_false_r.
    destruct (x <=? hi) eqn:A; destruct (lo <=? x) eqn:B.
    + now right.
    + now right.
    + now right.
    + apply in_order_refl.
Qed.

Lemma extremes_fold (rest : list float) hi lo :
  in_order hi lo ->
  in_order (fold_left Np.maximum rest hi) (fold_left Np.minimum rest lo).
Proof.
  revert hi lo. induction rest as [|x rest IH]; intros hi lo H; [exact H|].
  cbn [fold_left]. apply IH. now apply extremes_step.
Qed.

Lemma extremes (a : list float) highest lowest :
  Np.amax a = Ok highest -> Np.amin a = Ok lowest -> in_order highest lowest.
Proof.
  destruct a as [|x rest]; [discriminate|]. cbn [Np.amax Np.amin].
  intros H1 H2. inversion H1. inversion H2.
  apply extremes_fold, in_order_refl.
Qed.

Lemma difference_not_negative hi lo :
  in_order hi lo -> Sign.not_negative (hi - lo).
Proof.
  intros [[Hh _] | Hle]; apply Sign.not_negative_spec; rewrite sub_spec.
  - apply is_nan_spec in Hh. rewrite Hh. exact I.
  - rewrite leb_spec in Hle.
    apply Difference.SFsub_not_negative; [apply Prim2SF_valid .. | exact Hle].
Qed.

(** X13.  The signal-to-noise ratio the significance evaluator returns
    is never negative, in either of its two roundings: the depth of the
    model, greatest less least value, is not negative, and the standard
    deviation it is divided by is not negative and never -0.  It may be
    NaN or infinite. *)
Theorem snr_not_negative (time flux model_flux : list float)
    (significance : Significance) :
  calculate_detection_significance time flux model_flux = Ok significance ->
  (snr significance <? 0) = false
  /\ (detection_significance_sigma significance <? 0) = false.
Proof.
  unfold calculate_detection_significance.
  destruct (Np.broadcast sub flux model_flux) as [residuals|e];
    cbn [Py.bind]; [|discriminate].
  destruct (Np.amax model_flux) as [highest|e] eqn:Hmax;
    cbn [Py.bind]; [|discriminate].
  destruct (Np.amin model_flux) as [lowest|e] eqn:Hmin;
    cbn [Py.bind]; [|discriminate].
  intros H. inversion H. cbn [snr detection_significance_sigma].
  assert (Hraw : Sign.not_negative ((highest - lowest) / Np.std residuals)).
  { apply SignClear.quotient_not_negative; [|apply SignClear.clear_std].
    apply difference_not_negative. now apply (extremes model_flux). }
  split; apply Rounding.round_not_negative; trivial; lia.
Qed.

End SignalToNoise.

(** ** When the stages raise, and the order they run in *)

Section Errors.

Context {ext : External}.
Variable self : RealExoplanetDetector.

Local Open Scope string_scope.
Local Open Scope float_scope.

(** X14.  [_calculate_bls_power] raises exactly when at least three
    points are in transit and the flux array has another length than the
    phase array; with fewer than three points in transit it returns 0
    before it touches the flux. *)
Theorem bls_power_raises (phase flux : list float) (t0_frac duration_frac : float) :
  ((exists power,
      _calculate_bls_power phase flux t0_frac duration_frac = Ok power)
   <-> (Np.count_nonzero
          (map (fun p => (abs (p - t0_frac) <? duration_frac / 2)%float) phase) < 3)%nat
       \/ List.length phase = List.length flux)
  /\ ((Np.count_nonzero
         (map (fun p => (abs (p - t0_frac) <? duration_frac / 2)%float) phase) < 3)%nat ->
      _calculate_bls_power phase flux t0_frac duration_frac = Ok 0).
Proof.
  unfold _calculate_bls_power.
  set (mask := map (fun p => abs (p - t0_frac) <? duration_frac / 2) phase).
  assert (Hmask : List.length mask = List.length phase) by apply length_map.
  destruct (Np.count_nonzero mask <? 3)%nat eqn:Hc.
  - apply Nat.ltb_lt in Hc. split; [|reflexivity].
    split; [now left | intros _; now exists 0].
  - apply Nat.ltb_ge in Hc. split; [|lia].
    unfold Np.compress. rewrite !length_map, Hmask.
    destruct (List.length flux =? List.length phase)%nat eqn:E.
    + apply Nat.eqb_eq in E. cbn [Py.bind].
      split; [intros _; right; congruence|]. intros _.
      destruct ((_ =? 0)%nat || (_ =? 0)%nat); [now exists 0|].
      destruct (_ =? 0); eexists; reflexivity.
    + apply Nat.eqb_neq in E. cbn [Py.bind].
      split; [intros (p & H); discriminate H | intros [H|H]; [lia | congruence]].
Qed.

(** X15.  The significance evaluator raises exactly when the model is
    empty or the flux and the model cannot be combined: they differ in
    length and neither has length one. *)
Theorem significance_raises (time flux model_flux : list float) :
  (exists significance,
     calculate_detection_significance time flux model_flux = Ok significance)
  <-> model_flux <> []
      /\ (List.length flux = List.length model_flux
          \/ List.length flux = 1%nat \/ List.length model_flux = 1%nat).
Proof.
  unfold calculate_detection_significance, Np.broadcast.
  destruct (List.length flux =? List.length model_flux)%nat eqn:E.
  - apply Nat.eqb_eq in E. cbn [Py.bind].
    destruct model_flux as [|m rest].
    + cbn. split; [intros (s & H); discriminate H | intros [H _]; now contradiction H].
    + cbn [Np.amax Np.amin Py.bind]. split; [|intros _; eexists; reflexivity].
      intros _. split; [discriminate | now left].
  - apply Nat.eqb_neq in E.
    destruct flux as [|x [|x' flux]].
    + (* no flux *)
      destruct model_flux as [|y [|y' model]]; cbn [Py.bind].
      * now contradiction E.
      * cbn. split; [|intros _; eexists; reflexivity].
        intros _. split; [discriminate | auto].
      * cbn. split; [intros (s & H); discriminate H|].
        intros [_ [H|[H|H]]]; cbn in H; discriminate H.
    + (* one flux value *)
      cbn [Py.bind]. destruct model_flux as [|m rest].
      * cbn. split; [intros (s & H); discriminate H | intros [H _]; now contradiction H].
      * cbn [Np.amax Np.amin Py.bind]. split; [|intros _; eexists; reflexivity].
        intros _. split; [discriminate | auto].
    + (* two or more *)
      destruct model_flux as [|y [|y' model]]; cbn [Py.bind].
      * cbn. split; [intros (s & H); discriminate H | intros [H _]; now contradiction H].
      * cbn. split; [|intros _; eexists; reflexivity].
        intros _. split; [discriminate | auto].
      * cbn. split; [intros (s & H); discriminate H|].
        intros [_ [H|[H|H]]]; cbn in H; try discriminate H.
        cbn in E. congruence.
Qed.

Definition stages : list call :=
  [call_preprocess_lightcurve; call_box_least_squares; call_fit_transit_model;
   call_calculate_planet_properties; call_calculate_detection_significance].

(** X16.  [analyze_lightcurve] calls the methods of the detector in one
    order, each at most once: the preprocessor, the BLS search, the fit,
    the property calculator, the significance evaluator.  A run stops
    after none, one, two, three or all five of them: the property
    calculator is never called without the significance evaluator after
    it. *)
Theorem stages_in_order (header : string) (data : list (float * float)) :
  exists n,
    fst (analyze_lightcurve self header data) = firstn n stages /\ n <> 4%nat.
Proof.
  rewrite analyze_lightcurve_stages. unfold run_to_search, run_from_search.
  destruct (contains "time" (lower header) && contains "flux" (lower header));
    [|exists 0%nat; split; [reflexivity | lia]].
  destruct (List.length data <? 100)%nat;
    [exists 0%nat; split; [reflexivity | lia]|].
  destruct (preprocess_lightcurve _ _) as [[time flux]|e];
    [|exists 1%nat; split; [reflexivity | lia]].
  destruct (List.length time <? 50)%nat;
    [exists 1%nat; split; [reflexivity | lia]|].
  destruct (box_least_squares self time flux) as [bls|e];
    [|exists 2%nat; split; [reflexivity | lia]].
  destruct (bls_power bls <? detection_threshold self);
    [exists 2%nat; split; [reflexivity | lia]|].
  destruct (fit_transit_model _ _ _ _ _ _) as [[fit|]|e];
    try (exists 3%nat; split; [reflexivity | lia]).
  destruct (calculate_detection_significance _ _ _);
    exists 5%nat; split; try reflexivity; lia.
Qed.

End Errors.

(** ** The false alarm probability *)

Section FalseAlarm.

Context {ext : External}.

Local Open Scope float_scope.

Definition million : positive := 8589934592000000.

Lemma one_spec : Prim2SF 1 = S754_finite false Bounds.two52 (-52).
Proof. reflexivity. Qed.

(** [round(x, 6)] of a number between 0 and 1 is at most 1. *)
Lemma round6_at_most_1 x :
  Binary64.at_most (Prim2SF x) Bounds.two52 (-52) ->
  Binary64.at_most (Prim2SF (Np.round x 6)) Bounds.two52 (-52).
Proof.
  intros Hx. unfold Np.round.
  change (float_of_Z (10 ^ Z.of_nat 6)) with 1000000.
  assert (Hf : Prim2SF 1000000 = S754_finite false million (-33)) by reflexivity.
  rewrite div_spec, Hf. unfold SF64div.
  apply (Bounds.SFdiv_at_most _ million (-33) Bounds.two52 (-52) million (-33));
    try reflexivity; [|discriminate|discriminate].
  apply (Rounding.rint_at_most _ 1000000 million (-33) 4503599628370496);
    try reflexivity; [|discriminate].
  rewrite mul_spec, Hf. unfold SF64mul.
  apply (Bounds.SFmul_at_most _ million (-33) Bounds.two52 (-52) million (-33));
    try reflexivity; [exact Hx | discriminate].
Qed.

(** The reciprocal of 1 plus a number that is not below 0. *)
Lemma reciprocal_at_most_1 e :
  (0 <=? e) = true ->
  Binary64.at_most (Prim2SF (1 / (1 + e))) Bounds.two52 (-52).
Proof.
  intros He. rewrite leb_spec in He.
  change (Prim2SF 0) with (S754_zero false) in He.
  pose proof (Prim2SF_valid (1 + e)) as V.
  rewrite div_spec, one_spec. rewrite add_spec, one_spec in V |- *.
  unfold SF64div, SF64add in V |- *.
  destruct (Prim2SF e) as [s|[|]| |[|] m ex]; try discriminate He.
  - (* e is a zero *)
    cbn [SFadd]. rewrite Binary64.SFdiv_self. cbn. split; [lia | reflexivity].
  - (* e is +infinity *)
    cbn. exact I.
  - (* e is a positive number *)
    pose proof (Bounds.SFadd_at_least_l Bounds.two52 (-52) m ex eq_refl) as Hge.
    destruct (SFadd prec emax (S754_finite false Bounds.two52 (-52))
                (S754_finite false m ex))
      as [s|[|]| |[|] my ey]; cbn [Bounds.at_least] in Hge; try contradiction.
    + cbn. exact I.
    + cbn [valid_binary] in V.
      assert (Hcmp : SFcompare (S754_finite false Bounds.two52 (-52))
                       (S754_finite false my ey) = Some Lt
                     \/ (my = Bounds.two52 /\ ey = (-52)%Z)).
      { cbn [SFcompare]. destruct Hge as [Hlt | [-> Hm]].
        - left. now rewrite (proj2 (Z.compare_lt_iff _ _) Hlt).
        - rewrite Z.compare_refl.
          change (Pos.compare_cont Eq Bounds.two52 my)
            with (Pos.compare Bounds.two52 my).
          destruct (Pos.compare_spec Bounds.two52 my) as [E|L|G].
          + right. now split.
          + now left.
          + exfalso. apply (Pos.lt_irrefl my).
            eapply Pos.lt_le_trans; [exact G | exact Hm]. }
      destruct Hcmp as [Hlt | [-> ->]].
      * pose proof (Binary64.SFdiv_below_one Bounds.two52 (-52) my ey eq_refl V Hlt)
          as Hb.
        pose proof (Prim2SF_valid (1 / SF2Prim (S754_finite false my ey))) as Vq.
        rewrite div_spec, one_spec, (Prim2SF_SF2Prim (S754_finite false my ey) V) in Vq.
        unfold SF64div in Vq.
        destruct (SFdiv prec emax (S754_finite false Bounds.two52 (-52))
                    (S754_finite false my ey))
          as [[|]|sq| |[|] mq eq]; cbn [Binary64.below_one] in Hb;
          try contradiction; [exact I|].
        cbn [valid_binary] in Vq. cbn [Binary64.at_most]. split; [lia|].
        destruct (Binary64.bounded_facts _ _ Vq) as (Dq & _ & _).
        pose proof (Binary64.Zdigits2_bounds (Zpos mq) ltac:(lia)) as [_ Uq].
        assert (Hq53 : (Zpos mq < 2 ^ 53)%Z)
          by (eapply Z.lt_le_trans; [exact Uq | apply Z.pow_le_mono_r; lia]).
        assert (H2 : (2 <= 2 ^ (-52 - eq))%Z)
          by (change 2%Z with (2 ^ 1)%Z at 1; apply Z.pow_le_mono_r; lia).
        apply Z.lt_le_incl. apply Z.lt_le_trans with (2 ^ 52 * 2)%Z; [exact Hq53|].
        apply Z.mul_le_mono_nonneg; try lia. reflexivity.
      * rewrite Binary64.SFdiv_self. cbn. split; [lia | reflexivity].
Qed.

(** X17.  The false alarm probability the significance evaluator
    returns lies between 0 and 1 whenever [np.exp] returns a number that
    is not below 0, as it does for every argument that is not NaN:
    [1 + exp] is then at least 1, its reciprocal at most 1, and rounding
    to six decimals stays within the bounds. *)
Theorem false_alarm_probability_range (time flux model_flux : list float)
    (significance : Significance) :
  calculate_detection_significance time flux model_flux = Ok significance ->
  exists raw,
    snr significance = Np.round raw 2
    /\ ((0 <=? np_exp (raw - 5)) = true ->
        (0 <=? false_alarm_probability significance) = true
        /\ (false_alarm_probability significance <=? 1) = true).
Proof.
  unfold calculate_detection_significance.
  destruct (Np.broadcast sub flux model_flux) as [residuals|e];
    cbn [Py.bind]; [|discriminate].
  destruct (Np.amax model_flux) as [highest|e]; cbn [Py.bind]; [|discriminate].
  destruct (Np.amin model_flux) as [lowest|e]; cbn [Py.bind]; [|discriminate].
  intros H. inversion H. cbn [snr false_alarm_probability].
  eexists. split; [reflexivity|]. intros He.
  apply (Rounding.at_most_leb _ 1 Bounds.two52 (-52) one_spec).
  now apply round6_at_most_1, reciprocal_at_most_1.
Qed.

End FalseAlarm.

(** ** Further concrete runs *)

Section MoreRuns.

Local Open Scope string_scope.
Local Open Scope float_scope.

#[local] Existing Instance Standin.external.

(** A stand-in for [float] that reads two numerals and refuses the rest. *)
Definition two_numerals (s : string) : option float :=
  if String.eqb s "0.5" then Some 0.5
  else if String.eqb s "1" then Some 1
  else None.

(** The objective on three points, inside the bounds. *)
Lemma chi_squared_not_negative_witness :
  let time := [0; 1; 2] in
  let flux := [1; 0.5; 1] in
  let p : params := (0.01, 1, 0, 0.1) in
  List.length time = List.length flux
  /\ (exists c,
        chi_squared init time flux p = Ok c
        /\ (c <? 0) = false
        /\ c = (if out_of_bounds init p then 1e10
                else sum_squares
                       (map (fun q => fst q - snd q)
                            (combine flux (transit_model time p)))))
  /\ (forall period t0 duration fit,
        fit_transit_model init time flux period t0 duration = Ok (Some fit) ->
        (fit_chi2 fit <? 0) = false).
Proof.
  intros time flux p. split; [reflexivity|].
  exact (chi_squared_not_negative init time flux p eq_refl).
Defined.

(** A header and two rows: far fewer than 100 line breaks. *)
Lemma few_lines_rejected_witness :
  let csv_data :=
    "time,flux" ++ String Text.newline "0.5,1" ++ String Text.newline "1,1" in
  (Text.count Text.newline csv_data < 100)%nat
  /\ (exists msg,
        In msg [columns_message;
                "Insufficient data points. Need at least 100 measurements."]
        /\ analyze_lightcurve_csv two_numerals init csv_data
           = ([], error_result msg))
  /\ (exists msg,
        In msg ["No CSV data provided"; columns_message;
                "Insufficient data points. Need at least 100 measurements."]
        /\ main two_numerals init csv_data = ([], error_result msg)).
Proof.
  intros csv_data.
  assert (H : (Text.count Text.newline csv_data < 100)%nat)
    by (vm_compute; lia).
  split; [exact H|].
  exact (few_lines_rejected two_numerals init csv_data H).
Defined.

(** A line of three fields. *)
Lemma first_two_fields_witness :
  let a := "0.5" in
  let b := "1" in
  Text.count Text.comma a = 0%nat /\ Text.count Text.comma b = 0%nat
  /\ parse_line two_numerals a = []
  /\ parse_line two_numerals (a ++ "," ++ b)
     = match two_numerals a, two_numerals b with
       | Some time_val, Some flux_val => [(time_val, flux_val)]
       | _, _ => []
       end
  /\ forall rest,
       parse_line two_numerals (a ++ "," ++ b ++ "," ++ rest)
       = parse_line two_numerals (a ++ "," ++ b).
Proof.
  intros a b. split; [reflexivity|]. split; [reflexivity|].
  exact (first_two_fields two_numerals a b eq_refl eq_refl).
Defined.

(** A flat flux against a model with one point in transit. *)
Definition example_significance : Significance :=
  Eval vm_compute in
    match calculate_detection_significance [0; 1; 2; 3] [1; 1; 1; 1]
            [1; 0.99; 1; 1] with
    | Ok significance => significance
    | Raise _ =>
        {| snr := 0; confidence_percent := 0; false_alarm_probability := 0;
           detection_significance_sigma := 0 |}
    end.

Lemma example_significance_value :
  calculate_detection_significance [0; 1; 2; 3] [1; 1; 1; 1] [1; 0.99; 1; 1]
  = Ok example_significance.
Proof. vm_compute. reflexivity. Qed.

Lemma confidence_range_witness :
  calculate_detection_significance [0; 1; 2; 3] [1; 1; 1; 1] [1; 0.99; 1; 1]
  = Ok example_significance
  /\ (0 <=? confidence_percent example_significance) = true
  /\ (confidence_percent example_significance <=? 100) = true
  /\ exists raw,
       snr example_significance = Np.round raw 2
       /\ (is_nan raw = true ->
           is_nan (snr example_significance) = true
           /\ confidence_percent example_significance = 100).
Proof.
  split; [exact example_significance_value|].
  exact (confidence_range _ _ _ _ example_significance_value).
Defined.

Lemma snr_not_negative_witness :
  calculate_detection_significance [0; 1; 2; 3] [1; 1; 1; 1] [1; 0.99; 1; 1]
  = Ok example_significance
  /\ (snr example_significance <? 0) = false
  /\ (detection_significance_sigma example_significance <? 0) = false.
Proof.
  split; [exact example_significance_value|].
  exact (snr_not_negative _ _ _ _ example_significance_value).
Defined.

(** The radius for a depth of one percent around a star of one solar
    radius. *)
Lemma planet_radius_not_negative_witness :
  (1 <? 0) = false
  /\ exists radius,
       get "radius_earth" (calculate_planet_properties 0.01 3 1)
       = Some (PyFloat radius)
       /\ (radius <? 0) = false
       /\ ((0.01 <? 0) = true -> is_nan radius = true).
Proof.
  split; [reflexivity|].
  exact (planet_radius_not_negative 0.01 3 1 eq_refl).
Defined.

Lemma false_alarm_probability_range_witness :
  calculate_detection_significance [0; 1; 2; 3] [1; 1; 1; 1] [1; 0.99; 1; 1]
  = Ok example_significance
  /\ exists raw,
       snr example_significance = Np.round raw 2
       /\ ((0 <=? np_exp (raw - 5)) = true ->
           (0 <=? false_alarm_probability example_significance) = true
           /\ (false_alarm_probability example_significance <=? 1) = true).
Proof.
  split; [exact example_significance_value|].
  exact (false_alarm_probability_range _ _ _ _ example_significance_value).
Defined.

End MoreRuns.
